(** * DiffusionMap: batch partitioning, index maps and top-K merging

    A shallow embedding of [util.py] and of the top-K stages of
    [WeightMat.py], with the properties of the partitioning pipeline
    proved about it.

    Python integers are [Z], and the scalars numpy makes of them carry
    their type; one-dimensional arrays and Python lists are [list];
    two-dimensional arrays are lists of rows; dictionaries keyed by file
    path are [gmap string]; the disk is a map from locations to nodes, on
    which paths are resolved; a call that can raise returns a [result]. *)

From stdpp Require Import base numbers list list_numbers option strings gmap sorting pretty.

Local Open Scope Z_scope.

(** ** Python and numpy primitives used by the sources *)

Module py.

(** The exception classes the modelled code raises or lets escape.
    [Exception] carries the message of an explicit [raise Exception(..)]. *)
Inductive exn : Type :=
  | ValueError
  | IndexError
  | KeyError
  | AttributeError
  | ZeroDivisionError
  | IOError
  | TypeError
  | OverflowError
  | Exception (msg : string).

Inductive result (A : Type) : Type :=
  | Return (a : A)
  | Raise (e : exn).
Global Arguments Return {A} a.
Global Arguments Raise {A} e.

Definition bind {A B} (c : result A) (k : A → result B) : result B :=
  match c with
  | Return a => k a
  | Raise e => Raise e
  end.

Definition raises {A} (c : result A) : Prop := ∃ e, c = Raise e.
Definition returns {A} (c : result A) : Prop := ∃ a, c = Return a.

(** [len(l)] *)
Definition len {A} (l : list A) : Z := Z.of_nat (length l).

(** [range(a, b)] and [np.arange(a, b)] on integers. *)
Definition range (a b : Z) : list Z := seqZ a (b - a).

(** [for x in xs: s = body(s, x)], stopping at the first exception. *)
Fixpoint for_ {A S} (xs : list A) (body : S → A → result S) (s : S) : result S :=
  match xs with
  | [] => Return s
  | x :: xs' => bind (body s x) (for_ xs' body)
  end.

(** Position denoted by an integer subscript [l[i]]: negative subscripts
    count from the end, anything outside the list is an [IndexError]. *)
Definition position (n i : Z) : option nat :=
  let i' := if i <? 0 then i + n else i in
  if (0 <=? i') && (i' <? n) then Some (Z.to_nat i') else None.

Definition index {A} (l : list A) (i : Z) : result A :=
  match position (len l) i with
  | Some p => match l !! p with Some x => Return x | None => Raise IndexError end
  | None => Raise IndexError
  end.

(** Bounds of a step-1 slice [l[a:b]] over a sequence of length [n]
    (CPython's [PySlice_AdjustIndices]); [None] is an omitted bound. *)
Definition adjust (n i : Z) : Z :=
  if i <? 0 then Z.max (i + n) 0 else Z.min i n.
Definition slice_lo (n : Z) (a : option Z) : nat :=
  Z.to_nat (match a with None => 0 | Some i => adjust n i end).
Definition slice_hi (n : Z) (b : option Z) : nat :=
  Z.to_nat (match b with None => n | Some i => adjust n i end).

(** [l[a:b]] *)
Definition get_slice {A} (l : list A) (a b : option Z) : list A :=
  let lo := slice_lo (len l) a in
  let hi := slice_hi (len l) b in
  take (hi - lo)%nat (drop lo l).

(** [sum(l)] *)
Definition sum (l : list Z) : Z := foldr Z.add 0 l.

(** [a // b] on Python integers. *)
Definition floordiv (a b : Z) : result Z :=
  if b =? 0 then Raise ZeroDivisionError else Return (a `div` b).

(** [l * n] for a list and an integer: a count that is not positive gives
    the empty list, and one that does not fit [Py_ssize_t] (64 bits) is an
    [OverflowError]. Memory is taken to suffice for every list that fits. *)
Definition PY_SSIZE_T_MAX : Z := 2 ^ 63 - 1.
Definition list_mul {A} (l : list A) (n : Z) : result (list A) :=
  if PY_SSIZE_T_MAX <? n then Raise OverflowError
  else Return (mjoin (replicate (Z.to_nat n) l)).

(** [d[k]] on a dictionary keyed by strings: a missing key is a [KeyError]. *)
Definition getitem {V} (d : gmap string V) (k : string) : result V :=
  match d !! k with
  | Some v => Return v
  | None => Raise KeyError
  end.

(** Strings. [s[:n]] and [s[n:]] for a non-negative literal [n]: a bound
    past the end is clipped. *)
Fixpoint str_take (n : nat) (s : string) : string :=
  match n, s with
  | S n', String c s' => String c (str_take n' s')
  | _, _ => EmptyString
  end.
Fixpoint str_drop (n : nat) (s : string) : string :=
  match n, s with
  | S n', String _ s' => str_drop n' s'
  | _, _ => s
  end.

(** [s.strip(chars)] removes the leading and the trailing characters that
    are in [chars]; [s.strip()] removes white space. A character of a string
    is a code point below 256: there, Python 3 counts as white space the
    codes 9 to 13, 28 to 32, 133 (U+0085) and 160 (U+00A0). *)
Fixpoint lstrip (chars : Ascii.ascii → bool) (s : string) : string :=
  match s with
  | EmptyString => EmptyString
  | String c s' => if chars c then lstrip chars s' else s
  end.
Definition rstrip (chars : Ascii.ascii → bool) (s : string) : string :=
  String.rev (lstrip chars (String.rev s)).
Definition strip (chars : Ascii.ascii → bool) (s : string) : string :=
  rstrip chars (lstrip chars s).
Definition is_newline (c : Ascii.ascii) : bool :=
  bool_decide (c = Ascii.ascii_of_nat 10).
Definition isspace (c : Ascii.ascii) : bool :=
  let n := Ascii.nat_of_ascii c in
  ((9 <=? n)%nat && (n <=? 13)%nat) || ((28 <=? n)%nat && (n <=? 32)%nat)
  || (n =? 133)%nat || (n =? 160)%nat.

(** [len(set(l)) != len(l)] on a list of strings. *)
Definition has_duplicates (l : list string) : bool :=
  bool_decide (len (remove_dups l) ≠ len l).

End py.

Module np.
Import py.

(** The type numpy gives a Python integer: [int64] where it fits, [uint64]
    from [2^63] to [2^64 - 1], a Python object beyond. *)
Inductive dtype : Type := int64 | uint64 | object.
Definition dtype_of (x : Z) : dtype :=
  if (- 2 ^ 63 <=? x) && (x <? 2 ^ 63) then int64
  else if (0 <=? x) && (x <? 2 ^ 64) then uint64
  else object.

(** A scalar that [np.mod] returns: an integer, or a [float64], which here
    is [nan] or has an integer value. *)
Inductive number : Type :=
  | Int (z : Z)
  | Float64 (x : option Z).

(** The [float64] nearest to an integer below [2^64] in size: 53 bits are
    kept, a tie goes to the even neighbour. *)
Definition to_float64 (x : Z) : Z :=
  let a := Z.abs x in
  if a <? 2 ^ 53 then x
  else
    let e := Z.log2 a - 52 in
    let q := a `div` 2 ^ e in
    let r := a `mod` 2 ^ e in
    let half := 2 ^ (e - 1) in
    let q' := if r <? half then q
              else if half <? r then q + 1
              else if Z.even q then q else q + 1 in
    Z.sgn x * (q' * 2 ^ e).

(** The remainder of two [float64] of integer value: the C [fmod], then the
    sign of the divisor given to the result; a zero divisor gives [nan]. *)
Definition float_mod (x y : Z) : option Z :=
  if y =? 0 then None
  else
    let m := Z.rem x y in
    if m =? 0 then Some 0
    else if xorb (y <? 0) (m <? 0) then Some (to_float64 (m + y))
    else Some m.

(** [np.mod(a, b)] on two Python integers. Two [int64] or two [uint64] give
    the integer remainder in that type: the sign follows the divisor and a
    zero divisor gives zero (with a warning, not an exception). An [int64]
    with a [uint64] is computed in [float64]. With an object on either side
    it is Python's [a % b]. *)
Definition mod_ (a b : Z) : result number :=
  match dtype_of a, dtype_of b with
  | int64, int64 | uint64, uint64 =>
      Return (Int (if b =? 0 then 0 else a `mod` b))
  | int64, uint64 | uint64, int64 =>
      Return (Float64 (float_mod (to_float64 a) (to_float64 b)))
  | _, _ =>
      if b =? 0 then Raise ZeroDivisionError else Return (Int (a `mod` b))
  end.

(** [x != 0]; [nan] differs from zero. *)
Definition ne_zero (x : number) : bool :=
  match x with
  | Int z | Float64 (Some z) => negb (z =? 0)
  | Float64 None => true
  end.

Definition arange (a b : Z) : list Z := seqZ a (b - a).

(** [np.zeros((r, c))]: negative dimensions are a [ValueError]. *)
Definition zeros1 (n : Z) : result (list Z) :=
  if n <? 0 then Raise ValueError else Return (replicate (Z.to_nat n) 0).
Definition zeros2 (r c : Z) : result (list (list Z)) :=
  if (r <? 0) || (c <? 0) then Raise ValueError
  else Return (replicate (Z.to_nat r) (replicate (Z.to_nat c) 0)).

(** [row[a:b] = v] for a scalar [v]: always succeeds. *)
Definition fill_slice {A} (row : list A) (a b : option Z) (v : A) : list A :=
  let lo := slice_lo (len row) a in
  let hi := slice_hi (len row) b in
  take lo row ++ replicate (hi - lo)%nat v ++ drop (lo + (hi - lo))%nat row.

(** [row[a:b] = vals] for a one-dimensional [vals]: the value must have
    the length of the slice, or length one (it is then broadcast);
    otherwise numpy raises [ValueError] and the row is left as it was. *)
Definition set_slice {A} (row : list A) (a b : option Z) (vals : list A)
  : result (list A) :=
  let lo := slice_lo (len row) a in
  let hi := slice_hi (len row) b in
  if (length vals =? hi - lo)%nat
  then Return (take lo row ++ vals ++ drop (lo + (hi - lo))%nat row)
  else match vals with
       | [v] => Return (fill_slice row a b v)
       | _ => Raise ValueError
       end.

(** [holder[r, a:b] = vals] *)
Definition set_row_slice {A} (holder : list (list A)) (r : Z)
    (a b : option Z) (vals : list A) : result (list (list A)) :=
  match position (len holder) r with
  | None => Raise IndexError
  | Some p =>
      match holder !! p with
      | None => Raise IndexError
      | Some row =>
          bind (set_slice row a b vals) (λ row', Return (<[p := row']> holder))
      end
  end.

(** [holder[r, a:b] = v] for a scalar [v] *)
Definition fill_row_slice {A} (holder : list (list A)) (r : Z)
    (a b : option Z) (v : A) : result (list (list A)) :=
  match position (len holder) r with
  | None => Raise IndexError
  | Some p =>
      match holder !! p with
      | None => Raise IndexError
      | Some row => Return (<[p := fill_slice row a b v]> holder)
      end
  end.

(** [np.min(a)] and [np.max(a)]: an empty array is a [ValueError]. *)
Definition min (l : list Z) : result Z :=
  match l with
  | [] => Raise ValueError
  | x :: l' => Return (foldr Z.min x l')
  end.
Definition max (l : list Z) : result Z :=
  match l with
  | [] => Raise ValueError
  | x :: l' => Return (foldr Z.max x l')
  end.

(** A two-dimensional array that knows its shape, for the places where the
    source reads [a.shape]: [nd_rows] holds [nd_shape.1] rows of [nd_shape.2]
    entries. Matrix entries are floating-point numbers that the modelled code
    only stores and copies; an entry is carried as an integer, the [0.] of
    [np.zeros] being [0]. *)
Record ndarray2 : Type := Ndarray2 {
  nd_shape : nat * nat;
  nd_rows : list (list Z)
}.

(** [np.zeros((r, c))] with its shape. *)
Definition zeros_nd (r c : Z) : result ndarray2 :=
  if (r <? 0) || (c <? 0) then Raise ValueError
  else Return (Ndarray2 (Z.to_nat r, Z.to_nat c)
                        (replicate (Z.to_nat r) (replicate (Z.to_nat c) 0))).

(** The entry of [patch] that broadcasting puts at offset [(i, j)] of the
    target: an axis of length one is repeated. *)
Definition broadcast_at (patch : ndarray2) (i j : nat) : Z :=
  let i' := if (patch.(nd_shape).1 =? 1)%nat then 0%nat else i in
  let j' := if (patch.(nd_shape).2 =? 1)%nat then 0%nat else j in
  default 0 (row ← patch.(nd_rows) !! i'; row !! j').

(** [holder[a0:b0, a1:b1] = patch]: each axis of the patch must have the
    length of the slice or length one, otherwise numpy raises [ValueError]. *)
Definition set_block (holder : ndarray2) (a0 b0 a1 b1 : Z) (patch : ndarray2)
  : result ndarray2 :=
  let lo0 := slice_lo (Z.of_nat holder.(nd_shape).1) (Some a0) in
  let hi0 := slice_hi (Z.of_nat holder.(nd_shape).1) (Some b0) in
  let lo1 := slice_lo (Z.of_nat holder.(nd_shape).2) (Some a1) in
  let hi1 := slice_hi (Z.of_nat holder.(nd_shape).2) (Some b1) in
  let fits (p n : nat) := (p =? n)%nat || (p =? 1)%nat in
  if fits patch.(nd_shape).1 (hi0 - lo0)%nat && fits patch.(nd_shape).2 (hi1 - lo1)%nat
  then
    Return (Ndarray2 holder.(nd_shape)
      (imap (λ i row,
               if (lo0 <=? i)%nat && (i <? hi0)%nat
               then imap (λ j v,
                            if (lo1 <=? j)%nat && (j <? hi1)%nat
                            then broadcast_at patch (i - lo0) (j - lo1)
                            else v) row
               else row)
            holder.(nd_rows)))
  else Raise ValueError.

(** [np.unique(a)]: the sorted distinct values of [a]. *)
Fixpoint insert_unique (x : Z) (l : list Z) : list Z :=
  match l with
  | [] => [x]
  | y :: l' =>
      if x <? y then x :: l
      else if x =? y then l
      else y :: insert_unique x l'
  end.
Definition unique (l : list Z) : list Z := foldr insert_unique [] l.

(** Boolean masks: [a == v], [m1 & m2] and the selection [a[mask]]. The
    arrays compared here are rows of one rectangular array, so they have one
    length (numpy raises on masks of another length). *)
Definition eq_mask (a : list Z) (v : Z) : list bool := (λ x, x =? v) <$> a.
Definition and_mask (m1 m2 : list bool) : list bool := zip_with andb m1 m2.
Fixpoint select {A} (a : list A) (mask : list bool) : list A :=
  match a, mask with
  | x :: a', b :: mask' => if b then x :: select a' mask' else select a' mask'
  | _, _ => []
  end.

End np.

Notation "x <- c ;; k" := (py.bind c (λ x, k))
  (at level 20, c at level 99, k at level 200, only parsing).

(** ** h5py, as far as the parser uses it *)

Module h5py.
Import py.

(** What a path inside an HDF5 file names: a dataset, which has a shape,
    or a group, which has none. *)
Inductive item : Type :=
  | Dataset (shape : list Z)
  | Group.

(** An opened file: [keys()] lists the names at the root, in the order h5py
    yields them; [f[key]] resolves any path. *)
Record file : Type := Hdf5 {
  keys : list string;
  items : string → option item
}.

(** The files on disk. A path that holds no file, or a damaged one, cannot
    be opened: [h5py.File(address, 'r')] raises [IOError]. *)
Definition store : Type := string → option file.

Definition File (h5 : store) (address : string) : result file :=
  match h5 address with
  | Some f => Return f
  | None => Raise IOError
  end.

(** [h5file[key]] *)
Definition getitem (f : file) (key : string) : result item :=
  match items f key with
  | Some i => Return i
  | None => Raise KeyError
  end.

(** [data_set.shape] *)
Definition shape (i : item) : result (list Z) :=
  match i with
  | Dataset s => Return s
  | Group => Raise AttributeError
  end.

End h5py.

(** ** util.py *)

Module util.
Import py.

(** [get_batch_num_list(total_num, batch_num)]. [redundant_num] is the
    scalar [np.mod] returns; the quotients are Python's. A list cannot be
    multiplied by a [float64], which is a [TypeError]; where [redundant_num]
    is an integer, [batch_num - redundant_num] lies between zero and
    [batch_num] and is computed without overflow. *)
Definition get_batch_num_list (total_num batch_num : Z) : result (list Z) :=
  redundant_num <- np.mod_ total_num batch_num ;;
  if np.ne_zero redundant_num then
    number_per_batch <- floordiv total_num batch_num ;;
    match redundant_num with
    | np.Float64 _ => Raise TypeError
    | np.Int redundant_num =>
        batch_num_list <- list_mul [number_per_batch + 1] redundant_num ;;
        rest <- list_mul [number_per_batch] (batch_num - redundant_num) ;;
        Return (batch_num_list ++ rest)
    end
  else
    number_per_batch <- floordiv total_num batch_num ;;
    list_mul [number_per_batch] batch_num.

(** [get_batch_idx_per_list(batch_num)]: the holder has [batch_num] rows of
    [batch_num - 1] columns; the first and the last row are written whole,
    every other row [l] in two slice assignments. *)
Definition get_batch_idx_per_list (batch_num : Z) : result (list (list Z)) :=
  let batch_num_per_line := batch_num - 1 in
  holder <- np.zeros2 batch_num batch_num_per_line ;;
  holder <- np.set_row_slice holder 0 None None (np.arange 1 batch_num) ;;
  holder <- np.set_row_slice holder (batch_num - 1) None None
                             (np.arange 0 batch_num_per_line) ;;
  for_ (range 1 (batch_num - 1))
       (λ holder l,
          holder <- np.set_row_slice holder l None (Some l) (np.arange 0 l) ;;
          np.set_row_slice holder l (Some l) None (np.arange l batch_num))
       holder.

(** [get_global_index_map]: the holder is a [3 x data_num_total] array whose
    rows are the file index, the dataset index and the local index. The
    state of the inner loop is the holder with [global_idx_dataset_start],
    the state of the outer loop the holder with [global_idx_file_start]. *)
Definition dataset_loop_body (data_num_per_dataset : list (list Z)) (file_idx : Z)
    (st : list (list Z) * Z) (dataset_idx : Z) : result (list (list Z) * Z) :=
  let (holder, global_idx_dataset_start) := st in
  per_dataset <- index data_num_per_dataset file_idx ;;
  count <- index per_dataset dataset_idx ;;
  let global_idx_dataset_end := global_idx_dataset_start + count in
  holder <- np.fill_row_slice holder 1 (Some global_idx_dataset_start)
                              (Some global_idx_dataset_end) dataset_idx ;;
  holder <- np.set_row_slice holder 2 (Some global_idx_dataset_start)
                             (Some global_idx_dataset_end) (np.arange 0 count) ;;
  Return (holder, global_idx_dataset_end).

Definition file_loop_body (data_num_per_file dataset_num_per_file : list Z)
    (data_num_per_dataset : list (list Z))
    (st : list (list Z) * Z) (file_idx : Z) : result (list (list Z) * Z) :=
  let (holder, global_idx_file_start) := st in
  n <- index data_num_per_file file_idx ;;
  let global_idx_file_end := global_idx_file_start + n in
  holder <- np.fill_row_slice holder 0 (Some global_idx_file_start)
                              (Some global_idx_file_end) file_idx ;;
  let global_idx_dataset_start := global_idx_file_start in
  dataset_num <- index dataset_num_per_file file_idx ;;
  st' <- for_ (range 0 dataset_num)
              (dataset_loop_body data_num_per_dataset file_idx)
              (holder, global_idx_dataset_start) ;;
  Return (st'.1, global_idx_file_end).

Definition get_global_index_map (data_num_total file_num : Z)
    (data_num_per_file dataset_num_per_file : list Z)
    (data_num_per_dataset : list (list Z)) : result (list (list Z)) :=
  holder <- np.zeros2 3 data_num_total ;;
  st <- for_ (range 0 file_num)
             (file_loop_body data_num_per_file dataset_num_per_file
                             data_num_per_dataset)
             (holder, 0) ;;
  Return st.1.

(** The dictionary of one input source, as [_parse_h5_data_list] returns it:
    ["Files"], ["shape"], and for every file path its ["Datasets"] and
    ["data_num"]. The two fixed keys are fields here, apart from the file
    paths: the record stands for the dictionary of the code as long as no
    file path is ["Files"] or ["shape"], where the code would put the entry
    of the file in the place of the list or of the shape. *)
Record source_entry : Type := SourceEntry {
  se_Datasets : list string;
  se_data_num : list Z
}.
Record source_dict : Type := SourceDict {
  sd_Files : list string;
  sd_entries : gmap string source_entry;
  sd_shape : list Z
}.

(** The dictionary [get_batch_ends] builds for one batch: ["files"], and for
    every file path its ["Datasets"] and ["Ends"]. The key ["files"] is a
    field here: the record stands for the dictionary of the code as long as
    no file path is ["files"]. *)
Record file_ends : Type := FileEnds {
  fe_Datasets : list string;
  fe_Ends : list (Z * Z)
}.
Record batch_ends : Type := BatchEnds {
  be_files : list string;
  be_entries : gmap string file_ends
}.

(** [get_batch_ends]: the body of the loop over [dataset_range], of the loop
    over [file_range], and of the loop over the batches. The range list is a
    [batch_number x 2] array, read row by row. *)
Definition batch_dataset_body (file_list : list string) (source_dict : source_dict)
    (file_pos_holder dataset_pos_holder data_pos_holder : list Z) (file_idx : Z)
    (batch : batch_ends) (dataset_idx : Z) : result batch_ends :=
  name <- index file_list file_idx ;;
  entry <- getitem (be_entries batch) name ;;
  source <- getitem (sd_entries source_dict) name ;;
  dataset_name <- index (se_Datasets source) dataset_idx ;;
  let batch :=
    BatchEnds (be_files batch)
      (<[name := FileEnds (fe_Datasets entry ++ [dataset_name]) (fe_Ends entry)]>
         (be_entries batch)) in
  let mask := np.and_mask (np.eq_mask file_pos_holder file_idx)
                          (np.eq_mask dataset_pos_holder dataset_idx) in
  tmp_start <- np.min (np.select data_pos_holder mask) ;;
  tmp_max <- np.max (np.select data_pos_holder mask) ;;
  let tmp_end := tmp_max + 1 in
  entry <- getitem (be_entries batch) name ;;
  Return (BatchEnds (be_files batch)
            (<[name := FileEnds (fe_Datasets entry)
                                (fe_Ends entry ++ [(tmp_start, tmp_end)])]>
               (be_entries batch))).

Definition batch_file_body (file_list : list string) (source_dict : source_dict)
    (file_pos_holder dataset_pos_holder data_pos_holder : list Z)
    (batch : batch_ends) (file_idx : Z) : result batch_ends :=
  name <- index file_list file_idx ;;
  let batch := BatchEnds (be_files batch ++ [name]) (be_entries batch) in
  let batch :=
    BatchEnds (be_files batch) (<[name := FileEnds [] []]> (be_entries batch)) in
  let dataset_range :=
    np.unique (np.select dataset_pos_holder (np.eq_mask file_pos_holder file_idx)) in
  for_ dataset_range
       (batch_dataset_body file_list source_dict file_pos_holder dataset_pos_holder
                           data_pos_holder file_idx)
       batch.

Definition batch_body (index_map : list (list Z)) (file_list : list string)
    (source_dict : source_dict)
    (batch_ends_local : list batch_ends) (range : Z * Z) : result (list batch_ends) :=
  let global_idx_batch_start := range.1 in
  let global_idx_batch_end := range.2 in
  row0 <- index index_map 0 ;;
  let file_pos_holder :=
    get_slice row0 (Some global_idx_batch_start) (Some global_idx_batch_end) in
  row1 <- index index_map 1 ;;
  let dataset_pos_holder :=
    get_slice row1 (Some global_idx_batch_start) (Some global_idx_batch_end) in
  row2 <- index index_map 2 ;;
  let data_pos_holder :=
    get_slice row2 (Some global_idx_batch_start) (Some global_idx_batch_end) in
  let file_range := np.unique file_pos_holder in
  batch <- for_ file_range
             (batch_file_body file_list source_dict file_pos_holder
                              dataset_pos_holder data_pos_holder)
             (BatchEnds [] ∅) ;;
  Return (batch_ends_local ++ [batch]).

Definition get_batch_ends (index_map : list (list Z))
    (global_index_range_list : list (Z * Z)) (file_list : list string)
    (source_dict : source_dict) : result (list batch_ends) :=
  for_ global_index_range_list (batch_body index_map file_list source_dict) [].

(** The files [assemble_mat] looks at: a path is a directory, a [.npy] file
    holding a two-dimensional array, or some other file; [np.load] raises on
    anything but the second. *)
Inductive node : Type :=
  | Directory
  | Npy (a : np.ndarray2)
  | Other.
Definition filesystem : Type := string → option node.

Definition isdir (fs : filesystem) (path : string) : bool :=
  match fs path with Some Directory => true | _ => false end.
Definition isfile (fs : filesystem) (path : string) : bool :=
  match fs path with Some (Npy _) | Some Other => true | _ => false end.
Definition load (fs : filesystem) (path : string) : result np.ndarray2 :=
  match fs path with
  | Some (Npy a) => Return a
  | Some Other => Raise ValueError
  | Some Directory | None => Raise IOError
  end.

(** The attributes of the data source that [assemble_mat] reads. *)
Record data_source : Type := DataSource {
  output_path : string;
  batch_number : Z;
  pattern_number_total : Z;
  batch_size_list : list Z
}.

(** ["/patch_{}_{}.npy".format(l, m)] under the folder. *)
Definition patch_file (folder_address : string) (l m : Z) : string :=
  folder_address +:+ "/patch_" +:+ pretty l +:+ "_" +:+ pretty m +:+ ".npy".

(** The presence check: [flag] stays true only if every patch is a file. *)
Definition all_patches_present (fs : filesystem) (folder_address : string)
    (batch_num : Z) : bool :=
  forallb (λ l, forallb (λ m, isfile fs (patch_file folder_address l m))
                        (range l batch_num))
          (range 0 batch_num).

(** [assemble_mat]: the body of the loop over [m], with the state
    [(holder, start_dim_1)], and of the loop over [l], with the state
    [(holder, start_dim_0)]. *)
Definition assemble_patch_body (fs : filesystem) (folder_address : string)
    (batch_size_list : list Z) (l start_dim_0 end_dim_0 : Z)
    (st : np.ndarray2 * Z) (m : Z) : result (np.ndarray2 * Z) :=
  let (holder, start_dim_1) := st in
  let patch_file := patch_file folder_address l m in
  patch_holder <- load fs patch_file ;;
  size_l <- index batch_size_list l ;;
  mismatch <-
    (if negb (Z.of_nat patch_holder.(np.nd_shape).1 =? size_l) then Return true
     else size_m <- index batch_size_list m ;;
          Return (negb (Z.of_nat patch_holder.(np.nd_shape).2 =? size_m))) ;;
  if (mismatch : bool) then
    _ <- index batch_size_list l ;;
    _ <- index batch_size_list m ;;
    Raise (Exception "The size of the patch does not match that in the record.")
  else
    size_m <- index batch_size_list m ;;
    let end_dim_1 := start_dim_1 + size_m in
    holder <- np.set_block holder start_dim_0 end_dim_0 start_dim_1 end_dim_1
                           patch_holder ;;
    Return (holder, end_dim_1).

Definition assemble_row_body (fs : filesystem) (folder_address : string)
    (batch_size_list : list Z) (batch_num : Z)
    (st : np.ndarray2 * Z) (l : Z) : result (np.ndarray2 * Z) :=
  let (holder, start_dim_0) := st in
  size_l <- index batch_size_list l ;;
  let end_dim_0 := start_dim_0 + size_l in
  let start_dim_1 := start_dim_0 in
  st' <- for_ (range l batch_num)
              (assemble_patch_body fs folder_address batch_size_list l
                                   start_dim_0 end_dim_0)
              (holder, start_dim_1) ;;
  Return (st'.1, end_dim_0).

Definition assemble_mat (fs : filesystem) (data_source : data_source)
  : result np.ndarray2 :=
  let folder_address := data_source.(output_path) +:+ "/distances" in
  let batch_num := data_source.(batch_number) in
  let total_num := data_source.(pattern_number_total) in
  if negb (isdir fs folder_address) then
    Raise (Exception "The target specified by the folder_address is not a folder.")
  else if negb (all_patches_present fs folder_address batch_num) then
    Raise (Exception "The patches are not complete.")
  else
    holder <- np.zeros_nd total_num total_num ;;
    st <- for_ (range 0 batch_num)
               (assemble_row_body fs folder_address data_source.(batch_size_list)
                                  batch_num)
               (holder, 0) ;;
    Return st.1.

(** [_parse_h5_data_list]. The text files on disk are given by the lines
    [readlines()] returns for each path; a path with no file raises
    [IOError] on [open]. *)
Definition text_store : Type := string → option (list string).

Definition readlines (text : text_store) (txt_file : string)
  : result (list string) :=
  match text txt_file with
  | Some lines => Return lines
  | None => Raise IOError
  end.

Definition missing_file_message (address : string) : string :=
  "The file " +:+ address +:+ " does not exit or is damaged."
  +:+ "Please make sure all the data source h5 files are intact"
  +:+ "before launching this program.".
Definition duplicate_message (txt_file : string) : string :=
  "There are duplicated h5 files specified in the list."
  +:+ "Please make sure that all the h5 files listed in " +:+ txt_file +:+ " "
  +:+ "are unique.".
Definition shape_message (key file_address : string) : string :=
  "The shape of the dataset " +:+ key
  +:+ "in file " +:+ file_address
  +:+ "is different from the intended shape."
  +:+ "Please check if the shape of all samples are the same.".

(** The parser's variables while it reads the list: [dict_holder["Files"]],
    the per-file entries of [dict_holder], and [file_pos]. *)
Definition parse_state : Type :=
  list string * gmap string source_entry * list Z.

(** First loop: every line that starts with [File:] names a file, which
    must open. *)
Definition first_loop_body (h5 : h5py.store) (lines : list string)
    (st : parse_state) (num : Z) : result parse_state :=
  let '(Files, entries, file_pos) := st in
  line <- index lines num ;;
  if bool_decide (str_take 5 line = "File:") then
    let address := str_drop 5 line in
    match h5py.File h5 address with
    | Return _ =>
        Return (Files ++ [address],
                <[address := SourceEntry [] []]> entries,
                file_pos ++ [num])
    | Raise IOError => Raise (Exception (missing_file_message address))
    | Raise e => Raise e
    end
  else Return st.

Definition first_loop (h5 : h5py.store) (lines : list string)
  : result parse_state :=
  for_ (range 0 (len lines)) (first_loop_body h5 lines) ([], ∅, []).

(** Second loop: the [Dataset:] lines between a file's line and the next
    file's line name its datasets; a file with none gets all its keys. *)
Definition second_inner_body (lines file_list : list string) (file_idx : Z)
    (st : gmap string source_entry * bool) (line_idx : Z)
  : result (gmap string source_entry * bool) :=
  let '(entries, default_flag) := st in
  line <- index lines line_idx ;;
  if bool_decide (str_take 8 line = "Dataset:") then
    name <- index file_list file_idx ;;
    entry <- getitem entries name ;;
    Return (<[name := SourceEntry (se_Datasets entry ++ [str_drop 8 line])
                                  (se_data_num entry)]> entries,
            false)
  else Return st.

Definition second_loop_body (h5 : h5py.store) (lines file_list : list string)
    (file_pos : list Z) (entries : gmap string source_entry) (file_idx : Z)
  : result (gmap string source_entry) :=
  lo <- index file_pos file_idx ;;
  hi <- index file_pos (file_idx + 1) ;;
  st <- for_ (range lo hi) (second_inner_body lines file_list file_idx)
             (entries, true) ;;
  let '(entries, default_flag) := st in
  if default_flag then
    name <- index file_list file_idx ;;
    h5file <- h5py.File h5 name ;;
    let keys := h5py.keys h5file in
    name <- index file_list file_idx ;;
    entry <- getitem entries name ;;
    Return (<[name := SourceEntry keys (se_data_num entry)]> entries)
  else Return entries.

Definition second_loop (h5 : h5py.store) (lines file_list : list string)
    (file_pos : list Z) (entries : gmap string source_entry)
  : result (gmap string source_entry) :=
  for_ (range 0 (len file_list))
       (second_loop_body h5 lines file_list file_pos) entries.

(** Third loop: the shape after the first axis of the first dataset of the
    first file is the reference; every dataset records its first axis and
    must have the reference shape after it. *)
Definition get_a_shape (h5 : h5py.store) (file_list : list string)
    (entries : gmap string source_entry) : result (list Z) :=
  name <- index file_list 0 ;;
  h5file <- h5py.File h5 name ;;
  name <- index file_list 0 ;;
  entry <- getitem entries name ;;
  key <- index (se_Datasets entry) 0 ;;
  data_set <- h5py.getitem h5file key ;;
  shape <- h5py.shape data_set ;;
  Return (get_slice shape (Some 1) None).

Definition third_inner_body (h5file : h5py.file) (shape : list Z)
    (file_address : string) (entries : gmap string source_entry)
    (key : string) : result (gmap string source_entry) :=
  data_set <- h5py.getitem h5file key ;;
  entry <- getitem entries file_address ;;
  data_shape <- h5py.shape data_set ;;
  data_num <- index data_shape 0 ;;
  let entries :=
    <[file_address := SourceEntry (se_Datasets entry)
                                  (se_data_num entry ++ [data_num])]> entries in
  data_shape <- h5py.shape data_set ;;
  if bool_decide (shape ≠ get_slice data_shape (Some 1) None)
  then Raise (Exception (shape_message key file_address))
  else Return entries.

Definition third_loop_body (h5 : h5py.store) (shape : list Z)
    (entries : gmap string source_entry) (file_address : string)
  : result (gmap string source_entry) :=
  h5file <- h5py.File h5 file_address ;;
  entry <- getitem entries file_address ;;
  for_ (se_Datasets entry) (third_inner_body h5file shape file_address) entries.

Definition third_loop (h5 : h5py.store) (file_list : list string)
    (entries : gmap string source_entry) : result source_dict :=
  shape <- get_a_shape h5 file_list entries ;;
  entries <- for_ file_list (third_loop_body h5 shape) entries ;;
  Return (SourceDict file_list entries shape).

Definition _parse_h5_data_list (text : text_store) (h5 : h5py.store)
    (txt_file : string) : result source_dict :=
  lines <- readlines text txt_file ;;
  let lines := strip is_newline <$> lines in
  let lines := strip isspace <$> lines in
  st <- first_loop h5 lines ;;
  let '(file_list, entries, file_pos) := st in
  if has_duplicates file_list
  then Raise (Exception (duplicate_message txt_file))
  else
    let file_pos := file_pos ++ [len lines] in
    entries <- second_loop h5 lines file_list file_pos entries ;;
    third_loop h5 file_list entries.

(** [save_distances]. The disk is a tree of directories and files without
    links: a location is the list of the names from the root down to a
    node, and the root is a directory. A path is resolved as the system
    does it, from the root or from the working directory, one component
    after the other, so that all the ways of writing a path lead to one
    location. The calls on the disk fail with an [OSError] of one of these
    subclasses. *)
Inductive oserror : Type :=
  | FileExistsError
  | FileNotFoundError
  | NotADirectoryError
  | IsADirectoryError.

(** A call into [np.save] seen from the caller: an [OSError], which Python 3
    also names [IOError], whatever its subclass. *)
Definition os_call {A} (c : oserror + A) : result A :=
  match c with
  | inl _ => Raise IOError
  | inr a => Return a
  end.

Definition location : Type := list string.
Record disk : Type := Disk {
  nodes : location → option node;
  cwd : location
}.
Definition node_at (d : disk) (loc : location) : option node :=
  match loc with
  | [] => Some Directory
  | _ => nodes d loc
  end.

(** The disk with one more node, or one node replaced. *)
Definition write (d : disk) (loc : location) (n : node) : disk :=
  Disk (λ q, if decide (q = loc) then Some n else nodes d q) (cwd d).

Definition is_slash (c : Ascii.ascii) : bool :=
  bool_decide (c = Ascii.ascii_of_nat 47).
Fixpoint has_slash (s : string) : bool :=
  match s with
  | EmptyString => false
  | String c s' => is_slash c || has_slash s'
  end.

(** [path.split('/')]: the components of a path, the empty ones too. *)
Fixpoint components (path : string) : list string :=
  match path with
  | EmptyString => [""]
  | String c rest =>
      if is_slash c then "" :: components rest
      else match components rest with
           | [] => [String c ""]
           | x :: xs => String c x :: xs
           end
  end.

(** Path resolution. A step from a location, which must be a directory:
    [.] stays, [..] goes to the parent, which for the root is the root, and
    a name goes down to that name, whether something is there or not. An
    empty component, left by a doubled or a trailing slash, is no step. *)
Definition step (d : disk) (cur : location) (c : string) : oserror + location :=
  if bool_decide (c = "") then inr cur
  else
    match node_at d cur with
    | Some Directory =>
        inr (if bool_decide (c = ".") then cur
             else if bool_decide (c = "..") then removelast cur
             else cur ++ [c])
    | Some _ => inl NotADirectoryError
    | None => inl FileNotFoundError
    end.
Fixpoint walk (d : disk) (cur : location) (comps : list string)
  : oserror + location :=
  match comps with
  | [] => inr cur
  | c :: comps' =>
      match step d cur c with
      | inl e => inl e
      | inr cur' => walk d cur' comps'
      end
  end.

(** The location a path names: the walk along its components from the root
    for a path that starts with a slash, from the working directory for
    another; the empty path names nothing. *)
Definition is_absolute (path : string) : bool :=
  match path with
  | EmptyString => false
  | String c _ => is_slash c
  end.
Definition locate (d : disk) (path : string) : oserror + location :=
  if bool_decide (path = "") then inl FileNotFoundError
  else walk d (if is_absolute path then [] else cwd d) (components path).

(** [os.stat(path)]: the node at the location of the path; a path that ends
    in a slash names directories only. *)
Definition ends_in_slash (path : string) : bool :=
  bool_decide (last (components path) = Some "").
Definition stat (d : disk) (path : string) : oserror + node :=
  match locate d path with
  | inl e => inl e
  | inr loc =>
      match node_at d loc with
      | None => inl FileNotFoundError
      | Some Directory => inr Directory
      | Some n => if ends_in_slash path then inl NotADirectoryError else inr n
      end
  end.

(** What [os.path.isdir], [os.path.isfile] and [np.load] see of the disk:
    the node each path names. *)
Definition view (d : disk) : filesystem :=
  λ path, match stat d path with inr n => Some n | inl _ => None end.

(** [os.path.exists(path)] *)
Definition path_exists (d : disk) (path : string) : bool :=
  bool_decide (view d path ≠ None).

(** [os.mkdir(path)]: the location of the path must be free, under a
    directory. A last component [.] or [..] names a directory that is
    there. *)
Definition mkdir (d : disk) (path : string) : oserror + disk :=
  match locate d path with
  | inl e => inl e
  | inr loc =>
      match node_at d loc with
      | Some _ => inl FileExistsError
      | None => inr (write d loc Directory)
      end
  end.

(** A call that may have changed the disk before it failed: the disk it
    leaves, and the error if there is one. *)
Definition outcome : Type := disk * option oserror.
Definition attempt (d : disk) (c : oserror + disk) : outcome :=
  match c with
  | inl e => (d, Some e)
  | inr d' => (d', None)
  end.

(** [np.save(file, arr)] for a [file] that ends in [.npy]: it is opened for
    writing as it is named, made if it is not there, and the array written
    in place of what it holds. *)
Definition save (d : disk) (file : string) (arr : np.ndarray2) : oserror + disk :=
  match locate d file with
  | inl e => inl e
  | inr loc =>
      match node_at d loc with
      | Some Directory => inl IsADirectoryError
      | _ => if ends_in_slash file then inl IsADirectoryError
             else inr (write d loc (Npy arr))
      end
  end.

(** [s == '/' * len(s)] *)
Definition all_slashes (s : string) : bool :=
  bool_decide (lstrip is_slash s = "").

(** [p[:i], p[i:]] for [i = p.rfind('/') + 1]. *)
Fixpoint rpartition (p : string) : string * string :=
  match p with
  | EmptyString => ("", "")
  | String c rest =>
      if has_slash rest
      then let '(head, tail) := rpartition rest in (String c head, tail)
      else if is_slash c then (String c "", rest)
      else ("", String c rest)
  end.

(** [posixpath.split(p)]: the head loses its trailing slashes unless it is
    made of slashes only. *)
Definition path_split (p : string) : string * string :=
  let '(head, tail) := rpartition p in
  (if bool_decide (head ≠ "") && negb (all_slashes head)
   then rstrip is_slash head
   else head,
   tail).

(** [os.makedirs(name)]: the body, with the recursive call on the head as a
    parameter. The directories that call has made stay when it fails; its
    [FileExistsError] is passed over, and a tail [.] ends the call once the
    head is made. The head is shorter than [name] whenever the call is made,
    so that [len(name)] unfoldings reach every call. *)
Definition makedirs_body (makedirs : disk → string → outcome)
    (d : disk) (name : string) : outcome :=
  let '(head, tail) := path_split name in
  let '(head, tail) :=
    if bool_decide (tail = "") then path_split head else (head, tail) in
  if bool_decide (head ≠ "") && bool_decide (tail ≠ "")
     && negb (path_exists d head)
  then
    let '(d, error) := makedirs d head in
    match error with
    | None | Some FileExistsError =>
        if bool_decide (tail = ".") then (d, None)
        else attempt d (mkdir d name)
    | Some e => (d, Some e)
    end
  else attempt d (mkdir d name).

Fixpoint makedirs_go (fuel : nat) (d : disk) (name : string) : outcome :=
  match fuel with
  | O => makedirs_body (λ d _, (d, None)) d name
  | S fuel' => makedirs_body (makedirs_go fuel') d name
  end.

Definition makedirs (d : disk) (name : string) : outcome :=
  makedirs_go (String.length name) d name.

(** The disk a call leaves when it has not failed. *)
Definition completed (c : outcome) : result disk :=
  match c with
  | (d, None) => Return d
  | (_, Some _) => Raise IOError
  end.

(** [save_distances(output_path, distance_patch, patch_position)], returning
    the disk it leaves. *)
Definition save_distances (d : disk) (output_path : string)
    (distance_patch : np.ndarray2) (patch_position : list Z) : result disk :=
  let address := output_path in
  d <- (if negb (isdir (view d) (address +:+ "/distances"))
        then completed (makedirs d (address +:+ "/distances"))
        else Return d) ;;
  p0 <- index patch_position 0 ;;
  p1 <- index patch_position 1 ;;
  let name := address +:+ "/distances/patch_" +:+ pretty p0 +:+ "_"
                      +:+ pretty p1 +:+ ".npy" in
  os_call (save d name distance_patch).

End util.

(** ** WeightMat.py *)

Module WeightMat.
Import py.

(** The samples a worker loads for one batch (Step Two and Step Four): for
    every file of [info["files"]], for every position of its dataset list,
    the rows [Ends[i][0] : Ends[i][1]] of that dataset. A sample is named by
    (file path, dataset name, local index). *)
Definition dataset_reads (file_name : string) (data_name_list : list string)
    (data_ends_list : list (Z * Z)) : result (list (string * string * Z)) :=
  for_ (range 0 (len data_name_list))
       (λ dataset_holder data_idx,
          data_name <- index data_name_list data_idx ;;
          ends <- index data_ends_list data_idx ;;
          Return (dataset_holder
                    ++ ((λ x, (file_name, data_name, x)) <$> range ends.1 ends.2)))
       [].

Definition batch_reads (info_holder : util.batch_ends)
  : result (list (string * string * Z)) :=
  for_ (util.be_files info_holder)
       (λ dataset_holder file_name,
          entry <- getitem (util.be_entries info_holder) file_name ;;
          loaded <- dataset_reads file_name (util.fe_Datasets entry)
                                  (util.fe_Ends entry) ;;
          Return (dataset_holder ++ loaded))
       [].

End WeightMat.

(** ** Specification vocabulary *)

(** [ceil(a / b)] for a positive divisor. *)
Definition ceil_div (a b : Z) : Z := - ((- a) `div` b).

(** Row [l] of the pairing table lists batch [m]. *)
Definition row_lists (holder : list (list Z)) (l m : Z) : Prop :=
  ∃ row, holder !! Z.to_nat l = Some row ∧ m ∈ row.

(** The pairing property as the specification words it: of the two rows [l] and [m] of the table, exactly one
    lists the other batch. *)
Definition listed_by_exactly_one (batch_num : Z) : Prop :=
  ∀ holder, util.get_batch_idx_per_list batch_num = py.Return holder →
  ∀ l m, 0 ≤ l < batch_num → 0 ≤ m < batch_num → l ≠ m →
    (row_lists holder l m ∧ ¬ row_lists holder m l)
    ∨ (¬ row_lists holder l m ∧ row_lists holder m l).

(** ** Index maps read column by column *)

(** One column of an index map: (file index, dataset index, local index). *)
Definition triple : Type := Z * Z * Z.
Definition tfile (t : triple) : Z := t.1.1.
Definition tdataset (t : triple) : Z := t.1.2.
Definition tlocal (t : triple) : Z := t.2.

(** The columns of a three-row holder, in global-index order. *)
Definition columns (holder : list (list Z)) : list triple :=
  match holder with
  | [r0; r1; r2] => zip (zip r0 r1) r2
  | _ => []
  end.

(** The local indices of the columns that belong to dataset [d] of file [f],
    in global-index order. *)
Definition locals_of (cols : list triple) (f d : Z) : list Z :=
  tlocal <$> filter (λ t, tfile t = f ∧ tdataset t = d) cols.

(** The samples of dataset [d] of file [f], which holds [c] samples; the
    datasets [d, d+1, ...] of file [f] with the sample counts [cs]; the files
    [f, f+1, ...] with per-dataset counts [css]. *)
Definition dataset_block (f d c : Z) : list triple :=
  (λ x, (f, d, x)) <$> seqZ 0 c.
Fixpoint dataset_blocks (f d : Z) (cs : list Z) : list triple :=
  match cs with
  | [] => []
  | c :: cs' => dataset_block f d c ++ dataset_blocks f (d + 1) cs'
  end.
Fixpoint file_blocks (f : Z) (css : list (list Z)) : list triple :=
  match css with
  | [] => []
  | cs :: css' => dataset_blocks f 0 cs ++ file_blocks (f + 1) css'
  end.

(** Two neighbouring columns of a monotonic map: the later one is the next
    sample of the same dataset, or lies in a later dataset or file. *)
Definition step_ok (a b : triple) : bool :=
  (tfile a <? tfile b)
  || (tfile a =? tfile b)
     && ((tdataset a <? tdataset b)
         || (tdataset a =? tdataset b) && (tlocal b =? tlocal a + 1)).
Fixpoint chain (cols : list triple) : bool :=
  match cols with
  | a :: (b :: _) as rest => step_ok a b && chain rest
  | _ => true
  end.

(** The order two columns at distance [k] of a chain stand in. *)
Definition ahead (k : Z) (a b : triple) : Prop :=
  tfile a < tfile b
  ∨ (tfile a = tfile b
     ∧ (tdataset a < tdataset b
        ∨ (tdataset a = tdataset b ∧ tlocal b = tlocal a + k))).

(** A monotonic index map: three rows of one length whose columns form a
    chain. *)
Definition monotonic (index_map : list (list Z)) : Prop :=
  ∃ r0 r1 r2, index_map = [r0; r1; r2]
    ∧ length r0 = length r1 ∧ length r1 = length r2
    ∧ chain (columns index_map) = true.

(** The invariant of the global index map, for the per-dataset sample
    counts [counts]: the file index never decreases, the dataset index never
    decreases inside a file, the columns of one (file, dataset) pair are
    contiguous, and the local indices of each dataset are [0, ..., count-1]. *)
Definition well_segmented (counts : list (list Z)) (holder : list (list Z)) : Prop :=
  let cols := columns holder in
  (∀ (i j : nat) a b, (i ≤ j)%nat → cols !! i = Some a → cols !! j = Some b →
     tfile a ≤ tfile b)
  ∧ (∀ (i j : nat) a b, (i ≤ j)%nat → cols !! i = Some a → cols !! j = Some b →
     tfile a = tfile b → tdataset a ≤ tdataset b)
  ∧ (∀ (i k j : nat) a b c, (i ≤ k ≤ j)%nat →
     cols !! i = Some a → cols !! k = Some b → cols !! j = Some c →
     tfile a = tfile c → tdataset a = tdataset c →
     tfile b = tfile a ∧ tdataset b = tdataset a)
  ∧ (∀ (f d : nat) cs c, counts !! f = Some cs → cs !! d = Some c →
     locals_of cols (Z.of_nat f) (Z.of_nat d) = seqZ 0 c).

(** ** Batches of an index map *)


(** The keys the dictionaries of the code hold besides the file paths:
    ["Files"] and ["shape"] in the dictionary of the source, ["files"] in the
    dictionary of a batch. A file path equal to one of them would take the
    place of that key in the dictionary of the code; the properties of the
    parser and of [get_batch_ends] are stated for file paths that are none
    of these keys. *)
Definition fixed_keys : list string := ["Files"; "shape"; "files"].
Definition no_fixed_key (files : list string) : Prop :=
  Forall (λ name, name ∉ fixed_keys) files.


(** The columns of the batch [[s, e)]. *)
Definition batch_columns (index_map : list (list Z)) (s e : Z) : list triple :=
  py.get_slice (columns index_map) (Some s) (Some e).






(** A small source used to exercise the theorems: file [/a.h5] with the
    datasets [x] (one sample) and [y] (two samples), file [/b.h5] with the
    dataset [z] (two samples). *)
Definition example_files : list string := ["/a.h5"; "/b.h5"].
Definition example_source : util.source_dict :=
  util.SourceDict example_files
    {[ "/a.h5" := util.SourceEntry ["x"; "y"] [1; 2];
       "/b.h5" := util.SourceEntry ["z"] [2] ]} [].
Definition example_index_map : list (list Z) :=
  [[0; 0; 0; 1; 1]; [0; 1; 1; 0; 0]; [0; 0; 1; 0; 1]].

(** ** Assembled matrices *)

(** The entry at row [i], column [j] of an array, for non-negative [i], [j]. *)
Definition entry (a : np.ndarray2) (i j : Z) : option Z :=
  if (0 <=? i) && (0 <=? j)
  then row ← a.(np.nd_rows) !! Z.to_nat i; row !! Z.to_nat j
  else None.

(** The first global index of batch [l]: the sizes of the batches before it. *)
Definition batch_start (batch_size_list : list Z) (l : Z) : Z :=
  py.sum (take (Z.to_nat l) batch_size_list).

(** A folder of four patches for two batches of sizes 1 and 2. *)
Definition example_patches : util.filesystem :=
  λ path,
    if decide (path = "/out/distances") then Some util.Directory
    else if decide (path = "/out/distances/patch_0_0.npy")
      then Some (util.Npy (np.Ndarray2 (1, 1)%nat [[5]]))
    else if decide (path = "/out/distances/patch_0_1.npy")
      then Some (util.Npy (np.Ndarray2 (1, 2)%nat [[6; 7]]))
    else if decide (path = "/out/distances/patch_1_1.npy")
      then Some (util.Npy (np.Ndarray2 (2, 2)%nat [[8; 9]; [10; 11]]))
    else None.
Definition example_data_source : util.data_source :=
  util.DataSource "/out" 2 3 [1; 2].

(** The non-zero entries of an array all lie where [R] holds. *)
Definition nonzero_within (R : Z → Z → Prop) (a : np.ndarray2) : Prop :=
  ∀ i j v, entry a i j = Some v → v ≠ 0 → R i j.

(** Position [(i, j)] lies in the block row of a batch before [k], at or to
    the right of its diagonal block. *)
Definition in_upper_blocks (batch_size_list : list Z) (k i j : Z) : Prop :=
  ∃ l, 0 ≤ l < k
       ∧ batch_start batch_size_list l ≤ i < batch_start batch_size_list (l + 1)
       ∧ batch_start batch_size_list l ≤ j.

(** Folders with a patch missing, and with a patch of the wrong shape. *)
Definition example_patches_missing : util.filesystem :=
  λ path,
    if decide (path = "/out/distances/patch_0_1.npy") then None
    else example_patches path.
Definition example_patches_misshapen : util.filesystem :=
  λ path,
    if decide (path = "/out/distances/patch_0_1.npy")
    then Some (util.Npy (np.Ndarray2 (1, 1)%nat [[6]]))
    else example_patches path.

(** ** The input list

    What the list file says, read off its cleaned lines without the
    parser's positions: a line [File:<path>] lists a file; the lines
    [Dataset:<name>] up to the next [File:] line name its datasets, and a
    file with no such line stands for all the keys at its root. *)

Definition clean_lines (raw : list string) : list string :=
  py.strip py.isspace <$> (py.strip py.is_newline <$> raw).

Definition file_of_line (line : string) : option string :=
  if bool_decide (py.str_take 5 line = "File:")
  then Some (py.str_drop 5 line) else None.
Definition dataset_of_line (line : string) : option string :=
  if bool_decide (py.str_take 8 line = "Dataset:")
  then Some (py.str_drop 8 line) else None.

Definition listed_files (lines : list string) : list string :=
  omap file_of_line lines.

(** The lines before the next [File:] line, and the lines from it on. *)
Fixpoint body_lines (lines : list string) : list string :=
  match lines with
  | [] => []
  | line :: rest =>
      match file_of_line line with
      | Some _ => []
      | None => line :: body_lines rest
      end
  end.
Fixpoint next_file (lines : list string) : list string :=
  match lines with
  | [] => []
  | line :: rest =>
      match file_of_line line with
      | Some _ => lines
      | None => next_file rest
      end
  end.

Definition named_datasets (lines : list string) : list string :=
  omap dataset_of_line (body_lines lines).

Definition datasets_of (h5 : h5py.store) (address : string)
    (named : list string) : list string :=
  match named with
  | [] => match h5 address with Some f => h5py.keys f | None => [] end
  | _ => named
  end.

(** Every listed file with the datasets listed for it, in the order of the
    list. *)
Fixpoint listing (h5 : h5py.store) (lines : list string)
  : list (string * list string) :=
  match lines with
  | [] => []
  | line :: rest =>
      match file_of_line line with
      | Some address =>
          (address, datasets_of h5 address (named_datasets rest))
            :: listing h5 rest
      | None => listing h5 rest
      end
  end.

(** The line numbers of the [File:] lines, counting from [k]. *)
Fixpoint file_positions (k : Z) (lines : list string) : list Z :=
  match lines with
  | [] => []
  | line :: rest =>
      match file_of_line line with
      | Some _ => k :: file_positions (k + 1) rest
      | None => file_positions (k + 1) rest
      end
  end.

(** The shape of the dataset [key] of the file at [address], if there is
    such a dataset; its per-sample shape is what follows the first axis. *)
Definition dataset_shape (h5 : h5py.store) (address key : string)
  : option (list Z) :=
  f ← h5 address;
  i ← h5py.items f key;
  match i with
  | h5py.Dataset shape => Some shape
  | h5py.Group => None
  end.
Definition sample_shape (shape : list Z) : list Z := drop 1 shape.

(** The per-sample shape of the first dataset of the first file. *)
Definition first_shape (h5 : h5py.store) (lines : list string)
  : option (list Z) :=
  match listing h5 lines with
  | (address, key :: _) :: _ => sample_shape <$> dataset_shape h5 address key
  | _ => None
  end.

Definition all_open (h5 : h5py.store) (files : list string) : Prop :=
  ∀ address, address ∈ files → is_Some (h5 address).

(** Every listed dataset is there and has a first axis. *)
Definition all_datasets (h5 : h5py.store) (lines : list string) : Prop :=
  ∀ address names key,
    (address, names) ∈ listing h5 lines → key ∈ names →
    ∃ n rest, dataset_shape h5 address key = Some (n :: rest).

(** The call fails with a plain [Exception]. *)
Definition fails {A} (c : py.result A) : Prop :=
  ∃ msg, c = py.Raise (py.Exception msg).

(** The exception of the shape check of the third loop. *)
Definition shape_failure (e : py.exn) : Prop :=
  ∃ key address, e = py.Exception (util.shape_message key address).

(** The entries the first loop makes, and the entries the second loop
    leaves. *)
Definition fresh_entries (entries : gmap string util.source_entry)
    (files : list string) : gmap string util.source_entry :=
  foldl (λ entries address, <[address := util.SourceEntry [] []]> entries)
        entries files.
Definition update_entries (g : string → list string → util.source_entry)
    (entries : gmap string util.source_entry)
    (l : list (string * list string)) : gmap string util.source_entry :=
  foldl (λ entries al, <[al.1 := g al.1 al.2]> entries) entries l.
Definition listed_entries (entries : gmap string util.source_entry)
    (l : list (string * list string)) : gmap string util.source_entry :=
  update_entries (λ _ names, util.SourceEntry names []) entries l.

(** The first axis of every dataset of [names] in the file at [address]:
    the numbers of samples the third loop records. *)
Definition first_axes (h5 : h5py.store) (address : string)
    (names : list string) : list Z :=
  omap (λ key, dataset_shape h5 address key ≫= head) names.
Definition counted_entries (h5 : h5py.store)
    (entries : gmap string util.source_entry)
    (l : list (string * list string)) : gmap string util.source_entry :=
  update_entries
    (λ address names, util.SourceEntry names (first_axes h5 address names))
    entries l.

(** The third loop never changes the dataset names of an entry. *)
Definition keeps_datasets (entries0 entries : gmap string util.source_entry)
  : Prop :=
  ∀ address,
    util.se_Datasets <$> entries !! address
    = util.se_Datasets <$> entries0 !! address.

(** A list the parser accepts: every listed file opens, no path is listed
    twice, the first file has a first dataset, whose per-sample shape is
    [shape], and every listed dataset is there with that per-sample shape. *)
Definition valid_list (h5 : h5py.store) (lines : list string)
    (shape : list Z) : Prop :=
  all_open h5 (listed_files lines)
  ∧ NoDup (listed_files lines)
  ∧ first_shape h5 lines = Some shape
  ∧ ∀ address names key,
      (address, names) ∈ listing h5 lines → key ∈ names →
      ∃ n, dataset_shape h5 address key = Some (n :: shape).

Definition newline : string := String (Ascii.ascii_of_nat 10) EmptyString.

(** A store with one text file. *)
Definition single_text (path : string) (raw : list string) : util.text_store :=
  λ p, if decide (p = path) then Some raw else None.

Definition example_raw : list string :=
  ["File:/data/a.h5" +:+ newline;
   "  Dataset:x " +:+ newline;
   "File:/data/b.h5" +:+ newline;
   newline].
Definition example_raw_twice : list string :=
  ["File:/data/a.h5" +:+ newline;
   "File:/data/b.h5" +:+ newline;
   "File:/data/a.h5" +:+ newline].
Definition example_raw_no_file : list string :=
  ["# nothing to process" +:+ newline; "Dataset:x" +:+ newline].
Definition example_list : util.text_store :=
  single_text "/data/list.txt" example_raw.

Definition example_a : h5py.file :=
  h5py.Hdf5 ["x"; "y"]
    (λ key, if decide (key = "x") then Some (h5py.Dataset [3; 4; 4])
            else if decide (key = "y") then Some (h5py.Dataset [9; 9])
            else None).
Definition example_b (last : Z) : h5py.file :=
  h5py.Hdf5 ["u"; "v"]
    (λ key, if decide (key = "u") then Some (h5py.Dataset [2; 4; 4])
            else if decide (key = "v") then Some (h5py.Dataset [5; 4; last])
            else None).
Definition example_h5 : h5py.store :=
  λ path,
    if decide (path = "/data/a.h5") then Some example_a
    else if decide (path = "/data/b.h5") then Some (example_b 4)
    else None.
Definition example_h5_ragged : h5py.store :=
  λ path,
    if decide (path = "/data/a.h5") then Some example_a
    else if decide (path = "/data/b.h5") then Some (example_b 3)
    else None.
Definition example_h5_missing : h5py.store :=
  λ path, if decide (path = "/data/a.h5") then Some example_a else None.

(** ** Blocks of an assembled matrix *)

(** An array whose rows agree with its shape. *)
Definition well_shaped (a : np.ndarray2) : Prop :=
  length a.(np.nd_rows) = a.(np.nd_shape).1
  ∧ Forall (λ row, length row = a.(np.nd_shape).2) a.(np.nd_rows).

(** The entry of a loaded patch at [(i, j)]; numpy reads a position the
    stored rows do not have as it reads any other, here as [0]. *)
Definition patch_entry (patch : np.ndarray2) (i j : Z) : Z :=
  default 0 (entry patch i j).

(** Block [(l, m)] of the holder is the patch [patch_l_m.npy]. *)
Definition block_holds (fs : util.filesystem) (folder_address : string)
    (batch_size_list : list Z) (holder : np.ndarray2) (l m : Z) : Prop :=
  ∀ patch i j v,
    util.load fs (util.patch_file folder_address l m) = py.Return patch →
    batch_start batch_size_list l ≤ i < batch_start batch_size_list (l + 1) →
    batch_start batch_size_list m ≤ j < batch_start batch_size_list (m + 1) →
    entry holder i j = Some v →
    v = patch_entry patch (i - batch_start batch_size_list l)
                          (j - batch_start batch_size_list m).

(** Block [(l, m)] of a holder of [n] rows and columns is the patch
    [patch_l_m.npy]: every position of the block that the holder has holds
    the entry of the patch for that position. *)
Definition block_is_patch (fs : util.filesystem) (folder_address : string)
    (batch_size_list : list Z) (n : Z) (holder : np.ndarray2) (l m : Z) : Prop :=
  ∀ patch i j,
    util.load fs (util.patch_file folder_address l m) = py.Return patch →
    batch_start batch_size_list l ≤ i < batch_start batch_size_list (l + 1) →
    batch_start batch_size_list m ≤ j < batch_start batch_size_list (m + 1) →
    i < n → j < n →
    entry holder i j
    = Some (patch_entry patch (i - batch_start batch_size_list l)
                              (j - batch_start batch_size_list m)).

(** ** Shapes of index maps *)

(** A two-dimensional array of [r] rows of [c] entries. *)
Definition has_shape (r c : nat) (holder : list (list Z)) : Prop :=
  length holder = r ∧ Forall (λ row, length row = c) holder.

(** The patch file of block [(l, m)] holds an array of the recorded sizes
    of the batches [l] and [m]. *)
Definition patch_recorded (fs : util.filesystem) (folder_address : string)
    (batch_size_list : list Z) (l m : Z) : Prop :=
  ∃ patch,
    fs (util.patch_file folder_address l m) = Some (util.Npy patch)
    ∧ batch_size_list !! Z.to_nat l = Some (Z.of_nat patch.(np.nd_shape).1)
    ∧ batch_size_list !! Z.to_nat m = Some (Z.of_nat patch.(np.nd_shape).2).

(** An index map of three rows of one length. *)
Definition rectangular (index_map : list (list Z)) : Prop :=
  ∃ r0 r1 r2, index_map = [r0; r1; r2]
    ∧ length r0 = length r1 ∧ length r1 = length r2.

(** The column names, by Python's subscripts, a file of the list and a
    dataset of its entry in the source dictionary. *)
Definition names_dataset (file_list : list string)
    (source_dict : util.source_dict) (t : triple) : Prop :=
  ∃ name source dataset_name,
    py.index file_list (tfile t) = py.Return name
    ∧ util.sd_entries source_dict !! name = Some source
    ∧ py.index (util.se_Datasets source) (tdataset t) = py.Return dataset_name.

(** ** Patch names and disks *)

(** The characters of a printed integer: the digits and the sign. *)
Definition numeral_char (c : Ascii.ascii) : bool :=
  let n := Ascii.nat_of_ascii c in
  bool_decide (n = 45%nat) || ((48 <=? n)%nat && (n <=? 57)%nat).
Fixpoint numeral (s : string) : bool :=
  match s with
  | EmptyString => true
  | String c s' => numeral_char c && numeral s'
  end.

(** The name of the patch file of block [(l, m)] in its folder. *)
Definition patch_name (l m : Z) : string :=
  "patch_" +:+ pretty l +:+ "_" +:+ pretty m +:+ ".npy".

(** A string of [k] slashes. *)
Definition slashes (k : nat) : string :=
  Nat.iter k (String (Ascii.ascii_of_nat 47)) "".

(** A disk as the system keeps it: the working directory is a directory,
    and so is the parent of every node. *)
Definition tree (d : util.disk) : Prop :=
  util.node_at d (util.cwd d) = Some util.Directory
  ∧ ∀ loc name n,
      util.nodes d (loc ++ [name]) = Some n →
      util.node_at d loc = Some util.Directory.

(** The disk [d'] has every node of [d], and the same working directory. *)
Definition extends (d d' : util.disk) : Prop :=
  util.cwd d' = util.cwd d
  ∧ ∀ loc n, util.node_at d loc = Some n → util.node_at d' loc = Some n.

(** The disk [d'] has every directory of [d], and the same working
    directory. *)
Definition dirs_kept (d d' : util.disk) : Prop :=
  util.cwd d' = util.cwd d
  ∧ ∀ loc, util.node_at d loc = Some util.Directory →
           util.node_at d' loc = Some util.Directory.

(** An empty disk with the root as working directory, a disk that holds
    [/out] and a file in its distances folder, and a patch of one entry. *)
Definition example_empty : util.disk := util.Disk (λ _, None) [].
Definition example_disk : util.disk :=
  util.Disk
    (λ loc, if decide (loc = ["out"]) then Some util.Directory
            else if decide (loc = ["out"; "distances"]) then Some util.Directory
            else if decide (loc = ["out"; "distances"; "patch_0_1.npy"])
              then Some util.Other
            else None)
    [].
Definition example_patch : np.ndarray2 := np.Ndarray2 (1, 1)%nat [[5]].

(* ================================================================== *)
(** * Properties *)
(* ================================================================== *)

Import py.

Example get_batch_num_list_10_3 :
  util.get_batch_num_list 10 3 = Return [4; 3; 3].
Proof. reflexivity. Qed.

Example get_batch_num_list_float_remainder :
  util.get_batch_num_list (2 ^ 63) 3 = Raise TypeError.
Proof. by vm_compute. Qed.

Example get_batch_idx_per_list_2 :
  util.get_batch_idx_per_list 2 = Return [[1]; [0]].
Proof. reflexivity. Qed.

Example get_batch_idx_per_list_1 :
  util.get_batch_idx_per_list 1 = Return [[]].
Proof. reflexivity. Qed.

Example get_batch_idx_per_list_3_raises :
  util.get_batch_idx_per_list 3 = Raise ValueError.
Proof. reflexivity. Qed.

Example get_batch_idx_per_list_5_raises :
  util.get_batch_idx_per_list 5 = Raise ValueError.
Proof. reflexivity. Qed.

(** ** Sums, minima and maxima *)

Section sums.

Lemma sum_app (l1 l2 : list Z) : py.sum (l1 ++ l2) = py.sum l1 + py.sum l2.
Proof. induction l1 as [|x l1 IH]; simpl; [done|]. rewrite IH. lia. Qed.

Lemma sum_replicate (n : nat) (x : Z) : py.sum (replicate n x) = Z.of_nat n * x.
Proof. induction n as [|n IH]; simpl; [done|]. rewrite IH. lia. Qed.

Lemma foldr_max_spec (x : Z) (l : list Z) :
  foldr Z.max x l ∈ x :: l ∧ Forall (λ y, y ≤ foldr Z.max x l) (x :: l).
Proof.
  induction l as [|y l [IHin IHall]]; simpl.
  - split; [left|]. constructor; [lia|constructor].
  - inversion IHall as [|? ? Hx Hl]; subst. split.
    + destruct (Z.max_spec y (foldr Z.max x l)) as [[_ ->]|[_ ->]].
      * apply elem_of_cons in IHin as [->|Hin]; [left|right; right]; done.
      * right; left.
    + constructor; [lia|]. constructor; [lia|].
      eapply Forall_impl; [exact Hl|]. simpl. intros; lia.
Qed.

Lemma foldr_min_spec (x : Z) (l : list Z) :
  foldr Z.min x l ∈ x :: l ∧ Forall (λ y, foldr Z.min x l ≤ y) (x :: l).
Proof.
  induction l as [|y l [IHin IHall]]; simpl.
  - split; [left|]. constructor; [lia|constructor].
  - inversion IHall as [|? ? Hx Hl]; subst. split.
    + destruct (Z.min_spec y (foldr Z.min x l)) as [[_ ->]|[_ ->]].
      * right; left.
      * apply elem_of_cons in IHin as [->|Hin]; [left|right; right]; done.
    + constructor; [lia|]. constructor; [lia|].
      eapply Forall_impl; [exact Hl|]. simpl. intros; lia.
Qed.

Lemma np_max_spec (l : list Z) :
  l ≠ [] → ∃ mx, np.max l = Return mx ∧ mx ∈ l ∧ Forall (λ y, y ≤ mx) l.
Proof.
  destruct l as [|x l]; [done|]. intros _. eexists. split; [reflexivity|].
  apply foldr_max_spec.
Qed.

Lemma np_min_spec (l : list Z) :
  l ≠ [] → ∃ mn, np.min l = Return mn ∧ mn ∈ l ∧ Forall (λ y, mn ≤ y) l.
Proof.
  destruct l as [|x l]; [done|]. intros _. eexists. split; [reflexivity|].
  apply foldr_min_spec.
Qed.

End sums.

(** ** get_batch_num_list *)

Section batch_num_list.

Lemma ceil_div_exact (a b : Z) : 0 < b → a `mod` b = 0 → ceil_div a b = a `div` b.
Proof.
  intros Hb Hm. unfold ceil_div.
  rewrite Z.div_opp_l_z by lia. lia.
Qed.

Lemma ceil_div_inexact (a b : Z) :
  0 < b → a `mod` b ≠ 0 → ceil_div a b = a `div` b + 1.
Proof.
  intros Hb Hm. unfold ceil_div.
  rewrite Z.div_opp_l_nz by lia. lia.
Qed.

Lemma dtype_of_int64 (x : Z) : - 2 ^ 63 ≤ x < 2 ^ 63 → np.dtype_of x = np.int64.
Proof.
  intros Hx. unfold np.dtype_of.
  destruct (Z.leb_spec (- 2 ^ 63) x); [|lia].
  destruct (Z.ltb_spec x (2 ^ 63)); [done|lia].
Qed.

(** [[x] * n] for a count that fits. *)
Lemma list_mul_singleton {A} (x : A) (n : Z) :
  n < 2 ^ 63 → list_mul [x] n = Return (replicate (Z.to_nat n) x).
Proof.
  intros Hn. unfold list_mul, PY_SSIZE_T_MAX.
  destruct (Z.ltb_spec (2 ^ 63 - 1) n); [lia|]. f_equal.
  induction (Z.to_nat n) as [|k IH]; [done|]. simpl. f_equal. exact IH.
Qed.

(** On the [int64] range [np.mod] is the integer remainder. *)
Lemma mod_int64 (a b : Z) :
  - 2 ^ 63 ≤ a < 2 ^ 63 → - 2 ^ 63 ≤ b < 2 ^ 63 →
  np.mod_ a b = Return (np.Int (if b =? 0 then 0 else a `mod` b)).
Proof. intros Ha Hb. unfold np.mod_. by rewrite !dtype_of_int64. Qed.

(** Both branches of the source build the same list: [total mod B] parts
    of the larger size followed by the parts of the smaller size. *)
Lemma get_batch_num_list_shape (total_num batch_num : Z) :
  - 2 ^ 63 ≤ total_num < 2 ^ 63 → 1 ≤ batch_num < 2 ^ 63 →
  util.get_batch_num_list total_num batch_num =
    Return (replicate (Z.to_nat (total_num `mod` batch_num)) (total_num `div` batch_num + 1)
            ++ replicate (Z.to_nat (batch_num - total_num `mod` batch_num))
                         (total_num `div` batch_num)).
Proof.
  intros Ht Hb. unfold util.get_batch_num_list, floordiv.
  rewrite mod_int64 by lia. cbn [bind np.ne_zero].
  pose proof (Z.mod_pos_bound total_num batch_num ltac:(lia)) as Hr.
  destruct (Z.eqb_spec batch_num 0) as [|_]; [lia|].
  destruct (Z.eqb_spec (total_num `mod` batch_num) 0) as [Hz|Hnz]; cbn [negb bind].
  - rewrite list_mul_singleton by lia. rewrite Hz. cbn [Z.to_nat replicate app].
    by rewrite Z.sub_0_r.
  - by rewrite !list_mul_singleton by lia.
Qed.

End batch_num_list.

(** C5, counterexample: a total of [2^63 + 1] is a [uint64] for numpy,
    which takes its remainder by the [int64] 2 in [float64]. There the total
    is [2^63] and the remainder [0.0], so that both parts are [2^62] and a
    sample is lost. *)
Lemma get_batch_num_list_loses_a_sample :
  1 ≤ 2 ^ 63 + 1 ∧ 1 ≤ 2
  ∧ util.get_batch_num_list (2 ^ 63 + 1) 2 = Return [2 ^ 62; 2 ^ 62]
  ∧ py.sum [2 ^ 62; 2 ^ 62] ≠ 2 ^ 63 + 1.
Proof.
  split; [done|]. split; [done|]. split; [by vm_compute|]. by vm_compute.
Qed.

(** C5, amended. For [1 <= total_num < 2^63] and [1 <= batch_num < 2^63],
    the range of numpy's [int64], [get_batch_num_list] returns a list of
    exactly [batch_num] non-negative integers that sums to [total_num]; its
    first [total_num mod batch_num] elements are
    [ceil(total_num / batch_num)], the others [floor(total_num / batch_num)],
    and its maximum exceeds its minimum by at most one. *)
Theorem get_batch_num_list_spec (total_num batch_num : Z) :
  1 ≤ total_num < 2 ^ 63 → 1 ≤ batch_num < 2 ^ 63 →
  ∃ l, util.get_batch_num_list total_num batch_num = Return l
     ∧ py.len l = batch_num
     ∧ Forall (λ x, 0 ≤ x) l
     ∧ py.sum l = total_num
     ∧ (∀ i : nat, Z.of_nat i < total_num `mod` batch_num →
          l !! i = Some (ceil_div total_num batch_num))
     ∧ (∀ i : nat, total_num `mod` batch_num ≤ Z.of_nat i < batch_num →
          l !! i = Some (total_num `div` batch_num))
     ∧ ∃ mx mn, np.max l = Return mx ∧ np.min l = Return mn ∧ mx - mn ≤ 1.
Proof.
  intros Ht Hb.
  pose proof (Z.mod_pos_bound total_num batch_num ltac:(lia)) as Hr.
  pose proof (Z.div_pos total_num batch_num ltac:(lia) ltac:(lia)) as Hq.
  pose proof (Z.div_mod total_num batch_num ltac:(lia)) as Hdm.
  set (r := total_num `mod` batch_num) in *.
  set (q := total_num `div` batch_num) in *.
  eexists. split; [apply get_batch_num_list_shape; lia|]. fold r q.
  assert (Hmem : ∀ x, x ∈ replicate (Z.to_nat r) (q + 1)
                        ++ replicate (Z.to_nat (batch_num - r)) q → x = q + 1 ∨ x = q).
  { intros x [Hx|Hx]%elem_of_app; apply elem_of_replicate in Hx; tauto. }
  repeat split.
  - unfold py.len. rewrite length_app, !length_replicate. lia.
  - apply Forall_forall. intros x Hx. destruct (Hmem x Hx); lia.
  - rewrite sum_app, !sum_replicate. nia.
  - intros i Hi. rewrite lookup_app_l by (rewrite length_replicate; lia).
    rewrite ceil_div_inexact by (fold r; lia).
    apply lookup_replicate_2. lia.
  - intros i Hi. rewrite lookup_app_r by (rewrite length_replicate; lia).
    apply lookup_replicate_2. rewrite length_replicate. lia.
  - destruct (np_max_spec (replicate (Z.to_nat r) (q + 1)
                             ++ replicate (Z.to_nat (batch_num - r)) q))
      as (mx & Hmx & Hin & _).
    { intros Hnil. apply (f_equal length) in Hnil.
      rewrite length_app, !length_replicate in Hnil. simpl in Hnil. lia. }
    destruct (np_min_spec (replicate (Z.to_nat r) (q + 1)
                             ++ replicate (Z.to_nat (batch_num - r)) q))
      as (mn & Hmn & Hin' & _).
    { intros Hnil. apply (f_equal length) in Hnil.
      rewrite length_app, !length_replicate in Hnil. simpl in Hnil. lia. }
    exists mx, mn. repeat split; [done..|].
    destruct (Hmem _ Hin), (Hmem _ Hin'); lia.
Qed.

Lemma get_batch_num_list_spec_witness :
  ∃ l, util.get_batch_num_list 10 3 = Return l
     ∧ py.len l = 3
     ∧ Forall (λ x, 0 ≤ x) l
     ∧ py.sum l = 10
     ∧ (∀ i : nat, Z.of_nat i < 10 `mod` 3 → l !! i = Some (ceil_div 10 3))
     ∧ (∀ i : nat, 10 `mod` 3 ≤ Z.of_nat i < 3 → l !! i = Some (10 `div` 3))
     ∧ ∃ mx mn, np.max l = Return mx ∧ np.min l = Return mn ∧ mx - mn ≤ 1.
Proof. apply (get_batch_num_list_spec 10 3); by vm_compute. Defined.

(** ** Subscripts and slice assignment *)

Section slices.
Context {A : Type}.
Implicit Types (row vals : list A) (holder : list (list A)).

Lemma position_in (n i : Z) : 0 ≤ i < n → position n i = Some (Z.to_nat i).
Proof.
  intros Hi. unfold position.
  destruct (Z.ltb_spec i 0) as [|_]; [lia|].
  destruct (Z.leb_spec 0 i) as [_|]; [|lia].
  destruct (Z.ltb_spec i n) as [_|]; [done|lia].
Qed.

Lemma adjust_in (n i : Z) : 0 ≤ i ≤ n → adjust n i = i.
Proof. intros Hi. unfold adjust. destruct (Z.ltb_spec i 0); lia. Qed.

Lemma adjust_bounds (n i : Z) : 0 ≤ n → 0 ≤ adjust n i ≤ n.
Proof. intros Hn. unfold adjust. destruct (Z.ltb_spec i 0); lia. Qed.

Lemma slice_lo_le (row : list A) a : (slice_lo (len row) a ≤ length row)%nat.
Proof.
  unfold slice_lo, len. destruct a as [i|]; [|lia].
  pose proof (adjust_bounds (Z.of_nat (length row)) i ltac:(lia)). lia.
Qed.

Lemma slice_hi_le (row : list A) b : (slice_hi (len row) b ≤ length row)%nat.
Proof.
  unfold slice_hi, len. destruct b as [i|]; [|lia].
  pose proof (adjust_bounds (Z.of_nat (length row)) i ltac:(lia)). lia.
Qed.

(** A slice assignment never changes the length of the row. *)
Lemma set_slice_length row a b vals row' :
  np.set_slice row a b vals = Return row' → length row' = length row.
Proof.
  unfold np.set_slice, np.fill_slice.
  pose proof (slice_lo_le row a) as Hlo. pose proof (slice_hi_le row b) as Hhi.
  destruct (Nat.eqb_spec (length vals) (slice_hi (len row) b - slice_lo (len row) a))
    as [Hlen|Hlen].
  - intros [= <-]. rewrite !length_app, length_take, length_drop. lia.
  - destruct vals as [|v [|? ?]]; [done| |done].
    intros [= <-]. rewrite !length_app, length_take, length_replicate, length_drop. lia.
Qed.

(** A value that is neither as long as the slice nor of length one cannot
    be assigned. *)
Lemma set_slice_mismatch row a b vals :
  length vals ≠ (slice_hi (len row) b - slice_lo (len row) a)%nat →
  length vals ≠ 1%nat →
  np.set_slice row a b vals = Raise ValueError.
Proof.
  intros Hne H1. unfold np.set_slice.
  destruct (Nat.eqb_spec (length vals) (slice_hi (len row) b - slice_lo (len row) a));
    [done|].
  by destruct vals as [|v [|? ?]].
Qed.

Lemma set_slice_whole row vals :
  length vals = length row → np.set_slice row None None vals = Return vals.
Proof.
  intros Hlen. unfold np.set_slice, slice_lo, slice_hi, len.
  rewrite Nat2Z.id. simpl. rewrite Nat.sub_0_r, Hlen, Nat.eqb_refl.
  rewrite drop_all. by rewrite app_nil_r.
Qed.

Lemma set_row_slice_at holder (r : Z) a b vals row :
  0 ≤ r < len holder →
  holder !! Z.to_nat r = Some row →
  np.set_row_slice holder r a b vals =
    py.bind (np.set_slice row a b vals) (λ row', Return (<[Z.to_nat r := row']> holder)).
Proof.
  intros Hr Hrow. unfold np.set_row_slice. by rewrite position_in, Hrow.
Qed.

End slices.

(** ** get_batch_idx_per_list *)

Section batch_idx_per_list.

Lemma length_arange (a b : Z) : length (np.arange a b) = Z.to_nat (b - a).
Proof. apply length_seqZ. Qed.

(** With three or more batches the second slice assignment of the first
    loop round, [holder[1, 1:] = np.arange(1, batch_num)], has a value one
    element longer than its target, and the call raises. *)
Lemma get_batch_idx_per_list_raises (batch_num : Z) :
  3 ≤ batch_num → util.get_batch_idx_per_list batch_num = Raise ValueError.
Proof.
  intros Hn. unfold util.get_batch_idx_per_list, np.zeros2.
  destruct (Z.ltb_spec batch_num 0) as [|_]; [lia|].
  destruct (Z.ltb_spec (batch_num - 1) 0) as [|_]; [lia|]. simpl.
  set (zrow := replicate (Z.to_nat (batch_num - 1)) 0).
  assert (Hzlen : length zrow = Z.to_nat (batch_num - 1))
    by apply length_replicate.
  rewrite (set_row_slice_at _ 0 _ _ _ zrow); cycle 1.
  { unfold len. rewrite length_replicate. lia. }
  { apply lookup_replicate_2. lia. }
  rewrite set_slice_whole by (rewrite length_arange, Hzlen; f_equal; lia). simpl.
  set (h1 := <[Z.to_nat 0 := np.arange 1 batch_num]> _).
  assert (Hh1 : length h1 = Z.to_nat batch_num)
    by (unfold h1; rewrite length_insert; apply length_replicate).
  rewrite (set_row_slice_at _ (batch_num - 1) _ _ _ zrow); cycle 1.
  { unfold len. lia. }
  { unfold h1. rewrite list_lookup_insert_ne by lia. apply lookup_replicate_2. lia. }
  rewrite set_slice_whole by (rewrite length_arange, Hzlen; f_equal; lia). simpl.
  set (h2 := <[Z.to_nat (batch_num - 1) := _]> h1).
  assert (Hh2 : length h2 = Z.to_nat batch_num)
    by (unfold h2; rewrite length_insert; done).
  unfold range. rewrite seqZ_cons by lia. simpl.
  rewrite (set_row_slice_at _ 1 _ _ _ zrow); cycle 1.
  { unfold len. lia. }
  { unfold h2, h1. rewrite !list_lookup_insert_ne by lia. apply lookup_replicate_2. lia. }
  destruct (np.set_slice zrow None (Some 1) (np.arange 0 1)) as [row'|e] eqn:Hset; cycle 1.
  { unfold np.set_slice in Hset. revert Hset.
    unfold slice_lo, slice_hi, len. rewrite Hzlen, adjust_in by lia.
    replace (length (np.arange 0 1)) with 1%nat by done. simpl. done. }
  apply set_slice_length in Hset. simpl.
  rewrite (set_row_slice_at _ 1 _ _ _ row'); cycle 1.
  { unfold len. rewrite length_insert. lia. }
  { apply list_lookup_insert_eq. lia. }
  rewrite set_slice_mismatch; [done| |].
  - rewrite length_arange. unfold slice_lo, slice_hi, len.
    rewrite Hset, Hzlen, adjust_in by lia. lia.
  - rewrite length_arange. lia.
Qed.

Lemma get_batch_idx_per_list_nonpositive (batch_num : Z) :
  batch_num ≤ 0 → util.get_batch_idx_per_list batch_num = Raise ValueError.
Proof.
  intros Hn. unfold util.get_batch_idx_per_list, np.zeros2.
  destruct (Z.ltb_spec (batch_num - 1) 0) as [_|]; [|lia].
  by rewrite orb_true_r.
Qed.

(** The call returns for one and for two batches only. *)
Lemma get_batch_idx_per_list_returns (batch_num : Z) (holder : list (list Z)) :
  util.get_batch_idx_per_list batch_num = Return holder →
  (batch_num = 1 ∧ holder = [[]]) ∨ (batch_num = 2 ∧ holder = [[1]; [0]]).
Proof.
  intros Hret.
  destruct (Z.le_gt_cases batch_num 0) as [Hle|Hgt].
  { by rewrite get_batch_idx_per_list_nonpositive in Hret. }
  destruct (Z.le_gt_cases 3 batch_num) as [Hge|Hlt].
  { by rewrite get_batch_idx_per_list_raises in Hret. }
  assert (batch_num = 1 ∨ batch_num = 2) as [->| ->] by lia.
  - left. split; [done|]. vm_compute in Hret. congruence.
  - right. split; [done|]. vm_compute in Hret. congruence.
Qed.

End batch_idx_per_list.

(** C1, counterexample: with two batches the table is [[1], [0]], so row 0
    lists batch 1 and row 1 lists batch 0: the pair is listed twice. *)
Lemma listed_by_exactly_one_fails : ¬ listed_by_exactly_one 2.
Proof.
  intros H. specialize (H [[1]; [0]] eq_refl 0 1 ltac:(lia) ltac:(lia) ltac:(lia)).
  assert (H01 : row_lists [[1]; [0]] 0 1) by (exists [1]; split; [done|left]).
  assert (H10 : row_lists [[1]; [0]] 1 0) by (exists [0]; split; [done|left]).
  tauto.
Qed.

(** C1, amended. The table for two batches is [[1], [0]], and whenever
    [get_batch_idx_per_list] returns a table, each row [l] lists every other
    batch [m] and row [m] lists [l] as well: every unordered pair of batches
    is listed by both of its rows, so no pair is missed and each is visited
    from both sides. *)
Theorem listed_by_both_rows :
  util.get_batch_idx_per_list 2 = Return [[1]; [0]]
  ∧ ∀ batch_num holder l m,
      util.get_batch_idx_per_list batch_num = Return holder →
      0 ≤ l < batch_num → 0 ≤ m < batch_num → l ≠ m →
      row_lists holder l m ∧ row_lists holder m l.
Proof.
  split; [reflexivity|].
  intros batch_num holder l m Hret Hl Hm Hne.
  apply get_batch_idx_per_list_returns in Hret as [[-> ->]|[-> ->]]; [lia|].
  assert ((l = 0 ∧ m = 1) ∨ (l = 1 ∧ m = 0)) as [[-> ->]|[-> ->]] by lia.
  - split; [exists [1]|exists [0]]; (split; [done|left]).
  - split; [exists [0]|exists [1]]; (split; [done|left]).
Qed.

Lemma listed_by_both_rows_witness :
  row_lists [[1]; [0]] 0 1 ∧ row_lists [[1]; [0]] 1 0.
Proof.
  apply (proj2 listed_by_both_rows 2 [[1]; [0]] 0 1); [reflexivity|lia..].
Defined.

(** C2, the failing input: for three batches the middle row is assigned
    [np.arange(1, 3)], two values, into the one-element slice [holder[1, 1:]];
    the call raises and returns no table. *)
Theorem get_batch_idx_per_list_three : 
  util.get_batch_idx_per_list 3 = Raise ValueError.
Proof. apply get_batch_idx_per_list_raises. lia. Qed.

Example get_global_index_map_example :
  util.get_global_index_map 5 2 [3; 2] [2; 1] [[1; 2]; [2]]
  = Return [[0; 0; 0; 1; 1]; [0; 1; 1; 0; 0]; [0; 0; 1; 0; 1]].
Proof. reflexivity. Qed.

Example get_global_index_map_short_dataset :
  util.get_global_index_map 2 1 [2] [1] [[1]] = Return [[0; 0]; [0; 0]; [0; 0]].
Proof. reflexivity. Qed.

(** ** Slice assignment at the end of the filled prefix *)

Section slice_at.
Context {A : Type}.
Implicit Types (P T vals : list A).

Lemma slice_bounds_at P T (s c : Z) :
  len P = s → 0 ≤ c ≤ len T →
  slice_lo (len (P ++ T)) (Some s) = length P
  ∧ slice_hi (len (P ++ T)) (Some (s + c)) = (length P + Z.to_nat c)%nat.
Proof.
  unfold len, slice_lo, slice_hi. rewrite length_app. intros <- Hc.
  rewrite !adjust_in by lia. lia.
Qed.

Lemma fill_slice_at P T (s c : Z) (v : A) :
  len P = s → 0 ≤ c ≤ len T →
  np.fill_slice (P ++ T) (Some s) (Some (s + c)) v
  = P ++ replicate (Z.to_nat c) v ++ drop (Z.to_nat c) T.
Proof.
  intros Hs Hc. unfold np.fill_slice.
  destruct (slice_bounds_at P T s c Hs Hc) as [-> ->].
  replace (length P + Z.to_nat c - length P)%nat with (Z.to_nat c) by lia.
  rewrite take_app_length. by rewrite drop_app_add.
Qed.

Lemma set_slice_at P T (s c : Z) vals :
  len P = s → 0 ≤ c ≤ len T → len vals = c →
  np.set_slice (P ++ T) (Some s) (Some (s + c)) vals
  = Return (P ++ vals ++ drop (Z.to_nat c) T).
Proof.
  intros Hs Hc Hv. unfold np.set_slice.
  destruct (slice_bounds_at P T s c Hs Hc) as [-> ->].
  replace (length P + Z.to_nat c - length P)%nat with (Z.to_nat c) by lia.
  replace (length vals =? Z.to_nat c)%nat with true
    by (symmetry; apply Nat.eqb_eq; unfold len in Hv; lia).
  rewrite take_app_length. by rewrite drop_app_add.
Qed.

Lemma index_app_middle (pre : list A) (x : A) (post : list A) :
  index (pre ++ x :: post) (len pre) = Return x.
Proof.
  unfold index. rewrite position_in by (unfold len; rewrite length_app; simpl; lia).
  unfold len. rewrite Nat2Z.id. by rewrite list_lookup_middle.
Qed.

End slice_at.

(** ** Blocks of an index map *)

Section blocks.

Lemma tfile_dataset_block f d c :
  tfile <$> dataset_block f d c = replicate (Z.to_nat c) f.
Proof.
  unfold dataset_block. rewrite <- list_fmap_compose.
  rewrite (const_fmap _ _ f) by done. by rewrite length_seqZ.
Qed.

Lemma tdataset_dataset_block f d c :
  tdataset <$> dataset_block f d c = replicate (Z.to_nat c) d.
Proof.
  unfold dataset_block. rewrite <- list_fmap_compose.
  rewrite (const_fmap _ _ d) by done. by rewrite length_seqZ.
Qed.

Lemma tlocal_dataset_block f d c : tlocal <$> dataset_block f d c = seqZ 0 c.
Proof.
  unfold dataset_block. rewrite <- list_fmap_compose.
  rewrite <- (list_fmap_id (seqZ 0 c)) at 2. by apply list_fmap_ext.
Qed.

Lemma length_dataset_block f d c : length (dataset_block f d c) = Z.to_nat c.
Proof. unfold dataset_block. by rewrite length_fmap, length_seqZ. Qed.

Lemma sum_nonneg (cs : list Z) : Forall (λ c, 0 ≤ c) cs → 0 ≤ py.sum cs.
Proof. induction 1; simpl; lia. Qed.

Lemma length_dataset_blocks f d cs :
  Forall (λ c, 0 ≤ c) cs → len (dataset_blocks f d cs) = py.sum cs.
Proof.
  intros Hcs. revert d. unfold len.
  induction Hcs as [|c cs Hc Hcs IH]; intros d; simpl; [done|].
  rewrite length_app, length_dataset_block, Nat2Z.inj_add, IH. lia.
Qed.

Lemma tfile_dataset_blocks f d cs :
  Forall (λ c, 0 ≤ c) cs →
  tfile <$> dataset_blocks f d cs = replicate (Z.to_nat (py.sum cs)) f.
Proof.
  intros Hcs. revert d.
  induction Hcs as [|c cs Hc Hcs IH]; intros d; simpl; [done|].
  rewrite fmap_app, tfile_dataset_block, IH, <- replicate_add.
  f_equal. pose proof (sum_nonneg cs Hcs). lia.
Qed.

End blocks.

(** ** The loops of get_global_index_map *)

Section index_map_loops.

Lemma seqZ_len_cons {A} (k : Z) (x : A) (l : list A) :
  seqZ k (len (x :: l)) = k :: seqZ (k + 1) (len l).
Proof.
  unfold len. rewrite seqZ_cons by (simpl; lia).
  f_equal. f_equal; simpl; lia.
Qed.

Lemma len_app {A} (l1 l2 : list A) : len (l1 ++ l2) = len l1 + len l2.
Proof. unfold len. rewrite length_app. lia. Qed.

Lemma len_replicate {A} (n : Z) (x : A) : 0 ≤ n → len (replicate (Z.to_nat n) x) = n.
Proof. intros. unfold len. rewrite length_replicate. lia. Qed.

(** One round of the inner loop, for dataset [len pre] holding [c] samples. *)
Lemma dataset_loop_body_step (counts : list (list Z)) (f : Z) (r0 : list Z)
    (c : Z) (cs pre A1 A2 : list Z) (m : Z) :
  index counts f = Return (pre ++ c :: cs) →
  0 ≤ c ≤ m → length A1 = length A2 →
  util.dataset_loop_body counts f
    ([r0; A1 ++ replicate (Z.to_nat m) 0; A2 ++ replicate (Z.to_nat m) 0], len A1)
    (len pre)
  = Return ([r0;
             (A1 ++ replicate (Z.to_nat c) (len pre)) ++ replicate (Z.to_nat (m - c)) 0;
             (A2 ++ seqZ 0 c) ++ replicate (Z.to_nat (m - c)) 0],
            len A1 + c).
Proof.
  intros Hidx Hc Hlen.
  unfold util.dataset_loop_body. rewrite Hidx. simpl.
  rewrite index_app_middle. simpl.
  unfold np.fill_row_slice, np.set_row_slice. simpl.
  rewrite fill_slice_at by (rewrite ?len_replicate; lia).
  assert (Hlen12 : len A2 = len A1) by (unfold len; lia).
  rewrite <- Hlen12.
  rewrite set_slice_at;
    [|done|rewrite len_replicate; lia|unfold len; rewrite length_arange; lia].
  simpl. rewrite drop_replicate.
  replace (Z.to_nat m - Z.to_nat c)%nat with (Z.to_nat (m - c)) by lia.
  rewrite <- !(assoc_L (++)). unfold np.arange. rewrite Z.sub_0_r. done.
Qed.

(** The inner loop appends, to the filled prefixes of the dataset row and of
    the local-index row, the blocks of the datasets it runs over. *)
Lemma dataset_loop_spec (counts : list (list Z)) (f : Z) (r0 : list Z)
    (cs pre A1 A2 : list Z) (m : Z) :
  index counts f = Return (pre ++ cs) →
  Forall (λ c, 0 ≤ c) cs → py.sum cs ≤ m → length A1 = length A2 →
  for_ (seqZ (len pre) (len cs)) (util.dataset_loop_body counts f)
       ([r0; A1 ++ replicate (Z.to_nat m) 0; A2 ++ replicate (Z.to_nat m) 0], len A1)
  = Return ([r0;
             A1 ++ (tdataset <$> dataset_blocks f (len pre) cs)
                ++ replicate (Z.to_nat (m - py.sum cs)) 0;
             A2 ++ (tlocal <$> dataset_blocks f (len pre) cs)
                ++ replicate (Z.to_nat (m - py.sum cs)) 0],
            len A1 + py.sum cs).
Proof.
  intros Hidx Hcs. revert pre A1 A2 m Hidx.
  induction Hcs as [|c cs Hc Hcs IH]; intros pre A1 A2 m Hidx Hm Hlen.
  - simpl. rewrite Z.sub_0_r, Z.add_0_r. done.
  - rewrite seqZ_len_cons. cbn [for_ py.sum foldr] in Hm |- *.
    pose proof (sum_nonneg cs Hcs) as Hsum. fold (py.sum cs) in Hm |- *.
    rewrite (dataset_loop_body_step counts f r0 c cs) by (done || lia).
    cbn [bind].
    specialize (IH (pre ++ [c]) (A1 ++ replicate (Z.to_nat c) (len pre))
                   (A2 ++ seqZ 0 c) (m - c)).
    rewrite !len_app, len_replicate in IH by lia.
    replace (len [c]) with 1 in IH by done.
    rewrite <- (assoc_L (++) pre) in IH. simpl in IH.
    rewrite IH; [|done|lia|].
    + cbn [dataset_blocks].
      rewrite !fmap_app, tdataset_dataset_block, tlocal_dataset_block.
      rewrite <- !(assoc_L (++)).
      replace (m - c - py.sum cs) with (m - (c + py.sum cs)) by lia.
      replace (len A1 + c + py.sum cs) with (len A1 + (c + py.sum cs)) by lia.
      done.
    + rewrite !length_app, length_replicate, length_seqZ. lia.
Qed.

Lemma len_fmap {A B} (g : A → B) (l : list A) : len (g <$> l) = len l.
Proof. unfold len. by rewrite length_fmap. Qed.

Lemma index_fmap_middle {A B} (g : A → B) (pre : list A) (x : A) (post : list A) :
  index (g <$> pre ++ x :: post) (len pre) = Return (g x).
Proof.
  rewrite fmap_app, fmap_cons, <- (len_fmap g pre). apply index_app_middle.
Qed.

(** One round of the outer loop, for file [len pre] with the per-dataset
    counts [cs]. *)
Lemma file_loop_body_step (pre : list (list Z)) (cs : list Z) (css : list (list Z))
    (A0 A1 A2 : list Z) (m : Z) :
  Forall (λ c, 0 ≤ c) cs → py.sum cs ≤ m →
  length A0 = length A1 → length A1 = length A2 →
  util.file_loop_body (py.sum <$> pre ++ cs :: css) (len <$> pre ++ cs :: css)
      (pre ++ cs :: css)
      ([A0 ++ replicate (Z.to_nat m) 0; A1 ++ replicate (Z.to_nat m) 0;
        A2 ++ replicate (Z.to_nat m) 0], len A0)
      (len pre)
  = Return ([(A0 ++ (tfile <$> dataset_blocks (len pre) 0 cs))
               ++ replicate (Z.to_nat (m - py.sum cs)) 0;
             (A1 ++ (tdataset <$> dataset_blocks (len pre) 0 cs))
               ++ replicate (Z.to_nat (m - py.sum cs)) 0;
             (A2 ++ (tlocal <$> dataset_blocks (len pre) 0 cs))
               ++ replicate (Z.to_nat (m - py.sum cs)) 0],
            len A0 + py.sum cs).
Proof.
  intros Hcs Hm H01 H12. pose proof (sum_nonneg cs Hcs) as Hsum.
  unfold util.file_loop_body. rewrite !index_fmap_middle. cbn [bind].
  unfold np.fill_row_slice. simpl.
  rewrite fill_slice_at by (rewrite ?len_replicate; lia).
  rewrite drop_replicate.
  replace (Z.to_nat m - Z.to_nat (py.sum cs))%nat with (Z.to_nat (m - py.sum cs)) by lia.
  unfold range. rewrite Z.sub_0_r.
  assert (Hlen01 : len A0 = len A1) by (unfold len; lia). rewrite Hlen01.
  change 0 with (len (@nil Z)) at 2.
  rewrite (dataset_loop_spec _ _ _ cs []); [|apply index_app_middle|done..].
  cbn [bind fst]. rewrite tfile_dataset_blocks by done.
  rewrite <- !(assoc_L (++)). done.
Qed.

(** The outer loop appends the blocks of the files it runs over to the
    filled prefixes of the three rows. *)
Lemma file_loop_spec (css pre : list (list Z)) (A0 A1 A2 : list Z) (m : Z) :
  Forall (Forall (λ c, 0 ≤ c)) css → py.sum (py.sum <$> css) ≤ m →
  length A0 = length A1 → length A1 = length A2 →
  for_ (seqZ (len pre) (len css))
       (util.file_loop_body (py.sum <$> pre ++ css) (len <$> pre ++ css) (pre ++ css))
       ([A0 ++ replicate (Z.to_nat m) 0; A1 ++ replicate (Z.to_nat m) 0;
         A2 ++ replicate (Z.to_nat m) 0], len A0)
  = Return ([A0 ++ (tfile <$> file_blocks (len pre) css)
                ++ replicate (Z.to_nat (m - py.sum (py.sum <$> css))) 0;
             A1 ++ (tdataset <$> file_blocks (len pre) css)
                ++ replicate (Z.to_nat (m - py.sum (py.sum <$> css))) 0;
             A2 ++ (tlocal <$> file_blocks (len pre) css)
                ++ replicate (Z.to_nat (m - py.sum (py.sum <$> css))) 0],
            len A0 + py.sum (py.sum <$> css)).
Proof.
  intros Hcss. revert pre A0 A1 A2 m.
  induction Hcss as [|cs css Hcs Hcss IH]; intros pre A0 A1 A2 m Hm H01 H12.
  - simpl. rewrite Z.sub_0_r, Z.add_0_r. done.
  - rewrite seqZ_len_cons. cbn [for_ fmap list_fmap py.sum foldr] in Hm |- *.
    fold (py.sum (py.sum <$> css)) in Hm |- *.
    pose proof (sum_nonneg cs Hcs) as Hsum.
    assert (Htot : 0 ≤ py.sum (py.sum <$> css)).
    { apply sum_nonneg, Forall_fmap. eapply Forall_impl; [exact Hcss|].
      intros l Hl. by apply sum_nonneg. }
    rewrite file_loop_body_step by (done || lia). cbn [bind].
    pose proof (length_dataset_blocks (len pre) 0 cs Hcs) as Hblk.
    unfold len in Hblk.
    specialize (IH (pre ++ [cs])
                   (A0 ++ (tfile <$> dataset_blocks (len pre) 0 cs))
                   (A1 ++ (tdataset <$> dataset_blocks (len pre) 0 cs))
                   (A2 ++ (tlocal <$> dataset_blocks (len pre) 0 cs))
                   (m - py.sum cs)).
    rewrite !len_app, len_fmap in IH.
    replace (len [cs]) with 1 in IH by done.
    rewrite <- (assoc_L (++) pre) in IH. simpl in IH.
    replace (len (dataset_blocks (len pre) 0 cs)) with (py.sum cs) in IH
      by (unfold len; lia).
    rewrite IH; [|lia|rewrite !length_app, !length_fmap; lia..].
    cbn [file_blocks]. rewrite !fmap_app, <- !(assoc_L (++)).
    replace (m - py.sum cs - py.sum (py.sum <$> css))
      with (m - (py.sum cs + py.sum (py.sum <$> css))) by lia.
    replace (len A0 + py.sum cs + py.sum (py.sum <$> css))
      with (len A0 + (py.sum cs + py.sum (py.sum <$> css))) by lia.
    done.
Qed.

Lemma columns_of_projections (cols : list triple) :
  columns [tfile <$> cols; tdataset <$> cols; tlocal <$> cols] = cols.
Proof.
  unfold columns. induction cols as [|[[f d] x] cols IH]; [done|].
  cbn [fmap list_fmap zip zip_with]. f_equal. exact IH.
Qed.

(** For consistent counts the map is, column by column, the list of the
    blocks of all files. *)
Lemma get_global_index_map_blocks (counts : list (list Z)) :
  Forall (Forall (λ c, 0 ≤ c)) counts →
  util.get_global_index_map (py.sum (py.sum <$> counts)) (len counts)
      (py.sum <$> counts) (len <$> counts) counts
  = Return [tfile <$> file_blocks 0 counts; tdataset <$> file_blocks 0 counts;
            tlocal <$> file_blocks 0 counts].
Proof.
  intros Hc.
  assert (Htot : 0 ≤ py.sum (py.sum <$> counts)).
  { apply sum_nonneg, Forall_fmap. eapply Forall_impl; [exact Hc|].
    intros l Hl. by apply sum_nonneg. }
  unfold util.get_global_index_map, np.zeros2. 
  destruct (Z.ltb_spec (py.sum (py.sum <$> counts)) 0) as [|_]; [lia|].
  cbn [orb Z.ltb Z.compare bind].
  unfold range. rewrite Z.sub_0_r.
  pose proof (file_loop_spec counts [] [] [] [] (py.sum (py.sum <$> counts))) as H.
  cbn [app] in H. change (len []) with 0 in H.
  change (replicate (Z.to_nat 3) ?x) with [x; x; x].
  rewrite H by (done || lia). cbn [bind fst].
  rewrite Z.sub_diag. simpl. by rewrite !app_nil_r.
Qed.

End index_map_loops.

(** ** Chains *)

Section chains.
Implicit Types (a b : triple) (cols : list triple).

Lemma step_ok_ahead a b : step_ok a b = true ↔ ahead 1 a b.
Proof. unfold step_ok, ahead. lia. Qed.

Lemma ahead_trans (j k : Z) a b c : ahead j a b → ahead k b c → ahead (j + k) a c.
Proof. unfold ahead. lia. Qed.

Lemma chain_cons a cols :
  chain (a :: cols) = true ↔
  (∀ b, head cols = Some b → step_ok a b = true) ∧ chain cols = true.
Proof.
  destruct cols as [|b cols]; cbn [chain head].
  - split; [|done]. intros _. by split.
  - rewrite andb_true_iff. split.
    + intros [Hab Hch]. split; [|done]. by intros ? [= <-].
    + intros [Hab Hch]. split; [|done]. by apply Hab.
Qed.

Lemma chain_app cols1 cols2 :
  chain cols1 = true → chain cols2 = true →
  (∀ a b, a ∈ cols1 → b ∈ cols2 → step_ok a b = true) →
  chain (cols1 ++ cols2) = true.
Proof.
  intros H1 H2 H12. induction cols1 as [|a cols1 IH]; [done|].
  apply chain_cons in H1 as [Hhd H1]. cbn [app]. apply chain_cons. split.
  - intros b Hb. destruct cols1 as [|a' cols1]; cbn [app head] in Hb.
    + apply H12; [left|]. by apply head_Some_elem_of.
    + apply Hhd. done.
  - apply IH; [done|]. intros a' b Ha' Hb. apply H12; [by right|done].
Qed.

Lemma chain_lookup cols (i : nat) a b :
  chain cols = true → cols !! i = Some a → cols !! S i = Some b →
  step_ok a b = true.
Proof.
  revert i. induction cols as [|c cols IH]; intros i Hch Ha Hb; [done|].
  apply chain_cons in Hch as [Hhd Hch]. destruct i as [|i]; simpl in *.
  - injection Ha as ->. apply Hhd. by destruct cols; simplify_eq/=.
  - by eapply IH.
Qed.

(** In a chain, any two columns are ordered, and two columns of the same
    dataset are as far apart as their local indices. *)
Lemma chain_ahead cols (i k : nat) a b :
  chain cols = true → cols !! i = Some a → cols !! (i + S k)%nat = Some b →
  ahead (Z.of_nat (S k)) a b.
Proof.
  intros Hch Ha. revert b. induction k as [|k IH]; intros b Hb.
  - apply step_ok_ahead. eapply chain_lookup; [done..|].
    by replace (S i) with (i + 1)%nat by lia.
  - destruct (lookup_lt_is_Some_2 cols (i + S k)) as [c Hc].
    { apply lookup_lt_Some in Hb. lia. }
    replace (Z.of_nat (S (S k))) with (Z.of_nat (S k) + 1) by lia.
    eapply ahead_trans; [by apply IH|].
    apply step_ok_ahead. eapply chain_lookup; [done..|].
    by replace (S (i + S k)) with (i + S (S k))%nat by lia.
Qed.

Lemma chain_ahead_lt cols (i j : nat) a b :
  chain cols = true → (i < j)%nat → cols !! i = Some a → cols !! j = Some b →
  ahead (Z.of_nat j - Z.of_nat i) a b.
Proof.
  intros Hch Hij Ha Hb.
  replace (Z.of_nat j - Z.of_nat i) with (Z.of_nat (S (j - i - 1))) by lia.
  eapply chain_ahead; [done..|].
  by replace (i + S (j - i - 1))%nat with j by lia.
Qed.

Lemma elem_of_dataset_block a f d c :
  a ∈ dataset_block f d c → tfile a = f ∧ tdataset a = d ∧ 0 ≤ tlocal a < c.
Proof.
  unfold dataset_block. intros (x & -> & Hx)%list_elem_of_fmap.
  apply elem_of_seqZ in Hx. cbn. lia.
Qed.

Lemma elem_of_dataset_blocks a f d cs :
  a ∈ dataset_blocks f d cs → tfile a = f ∧ d ≤ tdataset a.
Proof.
  revert d. induction cs as [|c cs IH]; intros d; cbn [dataset_blocks].
  - by intros ?%elem_of_nil.
  - intros [H|H]%elem_of_app.
    + apply elem_of_dataset_block in H. lia.
    + apply IH in H. lia.
Qed.

Lemma elem_of_file_blocks a f css : a ∈ file_blocks f css → f ≤ tfile a.
Proof.
  revert f. induction css as [|cs css IH]; intros f; cbn [file_blocks].
  - by intros ?%elem_of_nil.
  - intros [H|H]%elem_of_app.
    + apply elem_of_dataset_blocks in H. lia.
    + apply IH in H. lia.
Qed.

Lemma chain_consecutive f d (k : Z) (n : nat) :
  chain ((λ x, (f, d, x)) <$> seqZ k (Z.of_nat n)) = true.
Proof.
  revert k. induction n as [|n IH]; intros k; [done|].
  rewrite seqZ_cons by lia. cbn [fmap list_fmap]. apply chain_cons. split.
  - replace (Z.pred (Z.of_nat (S n))) with (Z.of_nat n) by lia.
    destruct n as [|n]; [done|]. rewrite seqZ_cons by lia. cbn.
    intros b [= <-]. apply step_ok_ahead.
    unfold ahead, tfile, tdataset, tlocal. simpl. lia.
  - replace (Z.pred (Z.of_nat (S n))) with (Z.of_nat n) by lia. apply IH.
Qed.

Lemma chain_dataset_block f d c : chain (dataset_block f d c) = true.
Proof.
  unfold dataset_block. destruct (Z.le_gt_cases 0 c) as [Hc|Hc].
  - rewrite <- (Z2Nat.id c) by done. apply chain_consecutive.
  - by rewrite seqZ_nil by lia.
Qed.

Lemma chain_dataset_blocks f d cs : chain (dataset_blocks f d cs) = true.
Proof.
  revert d. induction cs as [|c cs IH]; intros d; [done|].
  cbn [dataset_blocks]. apply chain_app; [apply chain_dataset_block|apply IH|].
  intros a b Ha%elem_of_dataset_block Hb%elem_of_dataset_blocks.
  unfold step_ok. lia.
Qed.

Lemma chain_file_blocks f css : chain (file_blocks f css) = true.
Proof.
  revert f. induction css as [|cs css IH]; intros f; [done|].
  cbn [file_blocks]. apply chain_app; [apply chain_dataset_blocks|apply IH|].
  intros a b Ha%elem_of_dataset_blocks Hb%elem_of_file_blocks.
  unfold step_ok. lia.
Qed.

End chains.

(** ** The columns of one dataset *)

Section locals.

Lemma filter_all {A} (P : A → Prop) `{∀ x, Decision (P x)} (l : list A) :
  Forall P l → filter P l = l.
Proof.
  induction 1 as [|x l Hx Hl IH]; [done|]. by rewrite filter_cons_True, IH.
Qed.

Lemma filter_none {A} (P : A → Prop) `{∀ x, Decision (P x)} (l : list A) :
  Forall (λ x, ¬ P x) l → filter P l = [].
Proof.
  induction 1 as [|x l Hx Hl IH]; [done|]. by rewrite filter_cons_False.
Qed.

Lemma filter_dataset_blocks (f d0 : Z) (cs : list Z) (k : nat) (c : Z) :
  cs !! k = Some c →
  filter (λ t, tfile t = f ∧ tdataset t = d0 + Z.of_nat k) (dataset_blocks f d0 cs)
  = dataset_block f (d0 + Z.of_nat k) c.
Proof.
  revert d0 k. induction cs as [|c' cs IH]; intros d0 k Hk; [done|].
  cbn [dataset_blocks]. rewrite filter_app. destruct k as [|k]; simpl in Hk.
  - injection Hk as ->. rewrite Z.add_0_r.
    rewrite filter_all, filter_none; [by rewrite app_nil_r| |].
    + apply Forall_forall. intros a Ha%elem_of_dataset_blocks. lia.
    + apply Forall_forall. intros a Ha%elem_of_dataset_block. lia.
  - rewrite filter_none.
    + replace (d0 + Z.of_nat (S k)) with (d0 + 1 + Z.of_nat k) by lia.
      by rewrite IH.
    + apply Forall_forall. intros a Ha%elem_of_dataset_block. lia.
Qed.

Lemma filter_dataset_blocks_other (f f' d d0 : Z) (cs : list Z) :
  f ≠ f' →
  filter (λ t, tfile t = f' ∧ tdataset t = d) (dataset_blocks f d0 cs) = [].
Proof.
  intros Hne. apply filter_none, Forall_forall.
  intros a Ha%elem_of_dataset_blocks. lia.
Qed.

Lemma filter_file_blocks (f0 : Z) (css : list (list Z)) (i : nat) (cs : list Z)
    (k : nat) (c : Z) :
  css !! i = Some cs → cs !! k = Some c →
  filter (λ t, tfile t = f0 + Z.of_nat i ∧ tdataset t = Z.of_nat k) (file_blocks f0 css)
  = dataset_block (f0 + Z.of_nat i) (Z.of_nat k) c.
Proof.
  revert f0 i. induction css as [|cs' css IH]; intros f0 i Hi Hk; [done|].
  cbn [file_blocks]. rewrite filter_app. destruct i as [|i]; simpl in Hi.
  - injection Hi as ->. rewrite Z.add_0_r.
    pose proof (filter_dataset_blocks f0 0 cs k c Hk) as Hf.
    rewrite Z.add_0_l in Hf. rewrite Hf, filter_none; [by rewrite app_nil_r|].
    apply Forall_forall. intros a Ha%elem_of_file_blocks. lia.
  - rewrite filter_dataset_blocks_other by lia.
    replace (f0 + Z.of_nat (S i)) with (f0 + 1 + Z.of_nat i) by lia.
    by rewrite (IH _ _ Hi Hk).
Qed.

End locals.

(** ** get_global_index_map *)

Section global_index_map.

Lemma file_blocks_well_segmented (counts : list (list Z)) (cols : list triple) :
  cols = file_blocks 0 counts →
  well_segmented counts [tfile <$> cols; tdataset <$> cols; tlocal <$> cols].
Proof.
  intros ->. unfold well_segmented. rewrite columns_of_projections.
  pose proof (chain_file_blocks 0 counts) as Hch.
  assert (Hord : ∀ (i j : nat) a b, (i ≤ j)%nat →
            file_blocks 0 counts !! i = Some a → file_blocks 0 counts !! j = Some b →
            a = b ∨ ahead (Z.of_nat j - Z.of_nat i) a b).
  { intros i j a b Hij Ha Hb. destruct (decide (i = j)) as [->|Hne].
    - left. congruence.
    - right. eapply chain_ahead_lt; [done|lia|done..]. }
  repeat split.
  - intros i j a b Hij Ha Hb.
    destruct (Hord i j a b Hij Ha Hb) as [->|Hab]; [done|]. unfold ahead in Hab. lia.
  - intros i j a b Hij Ha Hb.
    destruct (Hord i j a b Hij Ha Hb) as [->|Hab]; [done|]. unfold ahead in Hab. lia.
  - destruct (Hord i k a b ltac:(lia) H0 H1) as [->|Hab]; [done|].
    destruct (Hord k j b c ltac:(lia) H1 H2) as [->|Hbc]; [done|].
    unfold ahead in *. lia.
  - destruct (Hord i k a b ltac:(lia) H0 H1) as [->|Hab]; [done|].
    destruct (Hord k j b c ltac:(lia) H1 H2) as [->|Hbc]; [done|].
    unfold ahead in *. lia.
  - intros f d cs c Hf Hd. unfold locals_of.
    pose proof (filter_file_blocks 0 counts f cs d c Hf Hd) as Hfil.
    rewrite Z.add_0_l in Hfil. rewrite Hfil. apply tlocal_dataset_block.
Qed.

Lemma length_file_blocks (f : Z) (css : list (list Z)) :
  Forall (Forall (λ c, 0 ≤ c)) css →
  len (file_blocks f css) = py.sum (py.sum <$> css).
Proof.
  intros Hcss. revert f.
  induction Hcss as [|cs css Hcs Hcss IH]; intros f; [done|].
  cbn [file_blocks fmap list_fmap py.sum foldr].
  rewrite len_app, length_dataset_blocks, IH by done. done.
Qed.

(** The map of consistent counts is a monotonic index map. *)
Lemma get_global_index_map_monotonic (counts : list (list Z)) (holder : list (list Z)) :
  Forall (Forall (λ c, 0 ≤ c)) counts →
  util.get_global_index_map (py.sum (py.sum <$> counts)) (len counts)
      (py.sum <$> counts) (len <$> counts) counts = Return holder →
  monotonic holder.
Proof.
  intros Hc. rewrite get_global_index_map_blocks by done. intros [= <-].
  eexists _, _, _. split; [done|]. rewrite !length_fmap.
  split; [done|]. split; [done|].
  rewrite columns_of_projections. apply chain_file_blocks.
Qed.

End global_index_map.

(** C6, counterexample: one file said to hold two samples, whose only
    dataset holds one. [data_num_total] is the sum of the per-file counts,
    yet both columns of the map fall into dataset 0 with local index 0,
    where the claim wants the local indices [0 .. count-1] = [0]. *)
Lemma well_segmented_needs_dataset_sums :
  2 = py.sum [2]
  ∧ util.get_global_index_map 2 1 [2] [1] [[1]] = Return [[0; 0]; [0; 0]; [0; 0]]
  ∧ ¬ well_segmented [[1]] [[0; 0]; [0; 0]; [0; 0]].
Proof.
  split; [done|]. split; [reflexivity|].
  intros (_ & _ & _ & Hloc).
  specialize (Hloc 0%nat 0%nat [1] 1 eq_refl eq_refl).
  vm_compute in Hloc. discriminate.
Qed.

(** C6, amended. When moreover every file's sample count is the sum of the
    counts of its datasets (and [file_num], [dataset_num_per_file] are the
    lengths of the lists, counts being non-negative), [get_global_index_map]
    returns a [3 x data_num_total] map in which the file index never
    decreases, the dataset index never decreases inside a file, the columns of
    each (file, dataset) pair are contiguous, and the local indices inside
    each dataset are exactly [0, 1, ..., count-1]. *)
Theorem get_global_index_map_well_segmented
    (data_num_total file_num : Z) (data_num_per_file dataset_num_per_file : list Z)
    (data_num_per_dataset : list (list Z)) :
  Forall (Forall (λ c, 0 ≤ c)) data_num_per_dataset →
  file_num = len data_num_per_dataset →
  dataset_num_per_file = len <$> data_num_per_dataset →
  data_num_per_file = py.sum <$> data_num_per_dataset →
  data_num_total = py.sum data_num_per_file →
  ∃ r0 r1 r2,
    util.get_global_index_map data_num_total file_num data_num_per_file
        dataset_num_per_file data_num_per_dataset = Return [r0; r1; r2]
    ∧ len r0 = data_num_total ∧ len r1 = data_num_total ∧ len r2 = data_num_total
    ∧ well_segmented data_num_per_dataset [r0; r1; r2].
Proof.
  intros Hc -> -> -> ->. eexists _, _, _.
  split; [by apply get_global_index_map_blocks|].
  rewrite !len_fmap, length_file_blocks by done.
  do 3 (split; [done|]). by apply file_blocks_well_segmented.
Qed.

Lemma get_global_index_map_well_segmented_witness :
  ∃ r0 r1 r2,
    util.get_global_index_map 5 2 [3; 2] [2; 1] [[1; 2]; [2]] = Return [r0; r1; r2]
    ∧ len r0 = 5 ∧ len r1 = 5 ∧ len r2 = 5
    ∧ well_segmented [[1; 2]; [2]] [r0; r1; r2].
Proof.
  apply (get_global_index_map_well_segmented 5 2 [3; 2] [2; 1] [[1; 2]; [2]]);
    [|reflexivity..].
  repeat constructor; lia.
Defined.

Example get_batch_ends_example :
  (out <- util.get_batch_ends [[0; 0; 0; 1; 1]; [0; 1; 1; 0; 0]; [0; 0; 1; 0; 1]]
            [(0, 2); (2, 5)] ["/a.h5"; "/b.h5"]
            (util.SourceDict ["/a.h5"; "/b.h5"]
               {[ "/a.h5" := util.SourceEntry ["x"; "y"] [1; 2];
                  "/b.h5" := util.SourceEntry ["z"] [2] ]} []) ;;
   info <- index out 1 ;;
   loaded <- WeightMat.batch_reads info ;;
   Return (util.be_files info, loaded))
  = Return (["/a.h5"; "/b.h5"],
            [("/a.h5", "y", 1); ("/b.h5", "z", 0); ("/b.h5", "z", 1)]).
Proof. vm_compute. reflexivity. Qed.

(** ** np.unique and grouping by a sorted key *)

Section unique.

Lemma elem_of_insert_unique (x y : Z) (l : list Z) :
  y ∈ np.insert_unique x l ↔ y = x ∨ y ∈ l.
Proof.
  induction l as [|z l IH]; cbn [np.insert_unique].
  - rewrite list_elem_of_singleton, elem_of_nil. tauto.
  - destruct (Z.ltb_spec x z); [by rewrite elem_of_cons|].
    destruct (Z.eqb_spec x z) as [->|].
    + rewrite elem_of_cons. tauto.
    + rewrite !elem_of_cons, IH. tauto.
Qed.

Lemma elem_of_unique (y : Z) (l : list Z) : y ∈ np.unique l ↔ y ∈ l.
Proof.
  induction l as [|x l IH]; cbn [np.unique foldr]; [done|].
  fold (np.unique l). rewrite elem_of_insert_unique, elem_of_cons, IH. done.
Qed.

Lemma insert_unique_sorted (x : Z) (l : list Z) :
  StronglySorted Z.lt l → StronglySorted Z.lt (np.insert_unique x l).
Proof.
  induction 1 as [|z l Hl IH Hz]; cbn [np.insert_unique].
  - repeat constructor.
  - destruct (Z.ltb_spec x z).
    + constructor; [by constructor|]. constructor; [done|].
      eapply Forall_impl; [exact Hz|]. simpl. lia.
    + destruct (Z.eqb_spec x z) as [->|]; [by constructor|].
      constructor; [done|]. apply Forall_forall. intros y Hy.
      apply elem_of_insert_unique in Hy as [->|Hy]; [lia|].
      by eapply Forall_forall in Hz.
Qed.

Lemma unique_sorted (l : list Z) : StronglySorted Z.lt (np.unique l).
Proof.
  induction l as [|x l IH]; cbn [np.unique foldr]; [constructor|].
  by apply insert_unique_sorted.
Qed.

Lemma unique_NoDup (l : list Z) : NoDup (np.unique l).
Proof.
  induction (unique_sorted l) as [|z u Hu IH Hz]; constructor; [|done].
  intros Hin. eapply Forall_forall in Hz; [|done]. lia.
Qed.




End unique.

(** ** Chains: order, sub-lists and runs *)

Section chain_groups.
Implicit Types (a b : triple) (cols : list triple).











End chain_groups.

(** ** Masks, rows and slices *)

Section masks.
Context {A B : Type}.
Implicit Types (l : list A) (g : A → B).

Lemma select_eq_mask l g (k1 : A → Z) (v : Z) :
  np.select (g <$> l) (np.eq_mask (k1 <$> l) v) = g <$> filter (λ a, k1 a = v) l.
Proof.
  unfold np.eq_mask. induction l as [|a l IH]; [done|].
  cbn [fmap list_fmap np.select]. rewrite filter_cons.
  destruct (Z.eqb_spec (k1 a) v); case_decide; try done.
  cbn [fmap list_fmap]. f_equal. exact IH.
Qed.


Lemma get_slice_fmap l g (s e : option Z) :
  get_slice (g <$> l) s e = g <$> get_slice l s e.
Proof. unfold get_slice. by rewrite len_fmap, fmap_take, fmap_drop. Qed.

End masks.

Section rows.

Lemma zip_rows (r0 r1 r2 : list Z) :
  length r0 = length r1 → length r1 = length r2 →
  tfile <$> zip (zip r0 r1) r2 = r0
  ∧ tdataset <$> zip (zip r0 r1) r2 = r1
  ∧ tlocal <$> zip (zip r0 r1) r2 = r2.
Proof.
  revert r1 r2. induction r0 as [|x r0 IH]; intros [|y r1] [|z r2] H01 H12;
    try done.
  destruct (IH r1 r2) as (H0 & H1 & H2); [simpl in *; lia..|].
  cbn [zip zip_with fmap list_fmap]. rewrite H0, H1, H2. done.
Qed.


End rows.

(** ** The loops of get_batch_ends *)

Section batch_ends_loops.
Implicit Types (cols : list triple) (file_list : list string).

Lemma index_lookup {A} (l : list A) (i : Z) (x : A) :
  0 ≤ i → l !! Z.to_nat i = Some x → index l i = Return x.
Proof.
  intros Hi Hx. unfold index. pose proof (lookup_lt_Some _ _ _ Hx).
  rewrite position_in by (unfold len; lia). by rewrite Hx.
Qed.







End batch_ends_loops.

(** ** Reading a batch back *)

Section batch_reads.
Implicit Types (cols : list triple) (file_list : list string).










End batch_reads.

(** ** get_batch_ends *)

Section batch_ends.
Implicit Types (cols : list triple) (file_list : list string).





End batch_ends.




Example assemble_mat_example :
  util.assemble_mat example_patches example_data_source
  = Return (np.Ndarray2 (3, 3)%nat [[5; 6; 7]; [0; 8; 9]; [0; 10; 11]]).
Proof. vm_compute. reflexivity. Qed.

(** ** Loops that raise, loops that return *)

Section loops.
Context {A S : Type}.
Implicit Types (xs : list A) (body : S → A → result S).

Lemma raises_bind {B C} (c : result B) (k : B → result C) :
  raises c → raises (py.bind c k).
Proof. intros [e ->]. by exists e. Qed.

Lemma raises_bind_all {B C} (c : result B) (k : B → result C) :
  (∀ b, raises (k b)) → raises (py.bind c k).
Proof. intros Hk. destruct c as [b|e]; [apply Hk|by exists e]. Qed.

Lemma raises_Raise {B} (e : exn) : raises (@Raise B e).
Proof. by exists e. Qed.

Lemma raises_not_Return {B} (c : result B) (b : B) : raises c → c ≠ Return b.
Proof. by intros [e ->]. Qed.

(** A loop raises if one of its rounds raises whatever state it starts in. *)
Lemma for_raises xs body (s : S) (x : A) :
  x ∈ xs → (∀ s', raises (body s' x)) → raises (for_ xs body s).
Proof.
  intros Hx Hbody. revert s.
  induction xs as [|y xs IH]; intros s; [by apply elem_of_nil in Hx|].
  cbn [for_]. apply elem_of_cons in Hx as [->|Hx].
  - by apply raises_bind.
  - apply raises_bind_all. intros s'. by apply IH.
Qed.

End loops.

Lemma for_range_invariant {T} (Q : Z → T → Prop) (body : T → Z → result T)
    (a : Z) (n : nat) (s s' : T) :
  Q a s →
  (∀ k t t', a ≤ k < a + Z.of_nat n → Q k t → body t k = Return t' → Q (k + 1) t') →
  for_ (seqZ a (Z.of_nat n)) body s = Return s' → Q (a + Z.of_nat n) s'.
Proof.
  revert a s. induction n as [|n IH]; intros a s Hs Hstep.
  - cbn. intros [= <-]. by rewrite Z.add_0_r.
  - rewrite seqZ_cons by lia. cbn [for_].
    destruct (body s a) as [t|e] eqn:Hbody; [|done]. cbn [bind].
    replace (Z.pred (Z.of_nat (S n))) with (Z.of_nat n) by lia.
    replace (a + Z.of_nat (S n)) with (Z.succ a + Z.of_nat n) by lia.
    apply IH.
    + replace (Z.succ a) with (a + 1) by lia. eapply Hstep; [lia|done..].
    + intros k t1 t2 Hk. apply Hstep. lia.
Qed.

(** ** assemble_mat *)

Section assemble.
Implicit Types (fs : util.filesystem) (holder patch : np.ndarray2).

Lemma forallb_false {A} (g : A → bool) (l : list A) (x : A) :
  x ∈ l → g x = false → forallb g l = false.
Proof.
  intros Hx Hg. induction l as [|y l IH]; [by apply elem_of_nil in Hx|].
  cbn [forallb]. apply elem_of_cons in Hx as [->|Hx].
  - by rewrite Hg.
  - rewrite IH by done. apply andb_false_r.
Qed.

Lemma elem_of_range (a b k : Z) : k ∈ range a b ↔ a ≤ k < b.
Proof. unfold range. rewrite elem_of_seqZ. lia. Qed.

Lemma index_Return_inv {A} (l : list A) (i : Z) (x : A) :
  0 ≤ i → index l i = Return x → l !! Z.to_nat i = Some x.
Proof.
  intros Hi. unfold index, position.
  destruct (Z.ltb_spec i 0) as [|_]; [lia|].
  destruct ((0 <=? i) && (i <? len l)); [|done].
  by destruct (l !! Z.to_nat i); intros [= ->].
Qed.

Lemma missing_patch_raises fs (data_source : util.data_source) (l m : Z) :
  0 ≤ l ≤ m ∧ m < data_source.(util.batch_number) →
  util.isfile fs (util.patch_file (data_source.(util.output_path) +:+ "/distances")
                                  l m) = false →
  raises (util.assemble_mat fs data_source).
Proof.
  intros Hlm Hfile. unfold util.assemble_mat.
  destruct (util.isdir fs _); cbn [negb]; [|apply raises_Raise].
  unfold util.all_patches_present.
  rewrite (forallb_false _ _ l); [apply raises_Raise|apply elem_of_range; lia|].
  apply (forallb_false _ _ m); [apply elem_of_range; lia|done].
Qed.

Lemma mismatched_patch_raises fs (data_source : util.data_source) (l m : Z)
    (patch : np.ndarray2) :
  0 ≤ l ≤ m ∧ m < data_source.(util.batch_number) →
  fs (util.patch_file (data_source.(util.output_path) +:+ "/distances") l m)
    = Some (util.Npy patch) →
  ¬ (data_source.(util.batch_size_list) !! Z.to_nat l
       = Some (Z.of_nat patch.(np.nd_shape).1)
     ∧ data_source.(util.batch_size_list) !! Z.to_nat m
       = Some (Z.of_nat patch.(np.nd_shape).2)) →
  raises (util.assemble_mat fs data_source).
Proof.
  intros Hlm Hpatch Hshape. unfold util.assemble_mat.
  destruct (util.isdir fs _); cbn [negb]; [|apply raises_Raise].
  destruct (util.all_patches_present fs _ _); cbn [negb]; [|apply raises_Raise].
  apply raises_bind_all. intros holder. apply raises_bind.
  apply (for_raises _ _ _ l); [apply elem_of_range; lia|].
  intros [holder' start0]. unfold util.assemble_row_body.
  apply raises_bind_all. intros size_l. apply raises_bind.
  apply (for_raises _ _ _ m); [apply elem_of_range; lia|].
  intros [holder'' start1]. unfold util.assemble_patch_body, util.load.
  rewrite Hpatch. cbn [bind].
  destruct (index (util.batch_size_list data_source) l) as [x|e] eqn:Hx;
    [|apply raises_Raise].
  cbn [bind]. destruct (Z.eqb_spec (Z.of_nat patch.(np.nd_shape).1) x) as [<-|Hne];
    cbn [negb bind].
  - destruct (index (util.batch_size_list data_source) m) as [y|e] eqn:Hy;
      [|apply raises_Raise].
    cbn [bind].
    destruct (Z.eqb_spec (Z.of_nat patch.(np.nd_shape).2) y) as [<-|Hne];
      cbn [negb bind].
    + exfalso. apply Hshape. split; apply index_Return_inv; (lia || done).
    + apply raises_Raise.
  - destruct (index (util.batch_size_list data_source) m) as [y|e];
      apply raises_Raise.
Qed.

End assemble.

(** C9. [assemble_mat] raises, and so returns no matrix, whenever one of the
    expected patch files [patch_l_m.npy], [0 <= l <= m < batch_num], is not a
    file of the distances folder, and whenever a patch file holds an array
    whose shape is not [(batch_size_list[l], batch_size_list[m])]. *)
Theorem assemble_mat_raises (fs : util.filesystem) (data_source : util.data_source) :
  let folder_address := data_source.(util.output_path) +:+ "/distances" in
  (∀ l m, 0 ≤ l ≤ m ∧ m < data_source.(util.batch_number) →
     util.isfile fs (util.patch_file folder_address l m) = false →
     raises (util.assemble_mat fs data_source)
     ∧ ∀ holder, util.assemble_mat fs data_source ≠ Return holder)
  ∧ (∀ l m patch, 0 ≤ l ≤ m ∧ m < data_source.(util.batch_number) →
       fs (util.patch_file folder_address l m) = Some (util.Npy patch) →
       ¬ (data_source.(util.batch_size_list) !! Z.to_nat l
            = Some (Z.of_nat patch.(np.nd_shape).1)
          ∧ data_source.(util.batch_size_list) !! Z.to_nat m
            = Some (Z.of_nat patch.(np.nd_shape).2)) →
       raises (util.assemble_mat fs data_source)
       ∧ ∀ holder, util.assemble_mat fs data_source ≠ Return holder).
Proof.
  intros folder_address. split.
  - intros l m Hlm Hfile.
    pose proof (missing_patch_raises fs data_source l m Hlm Hfile) as Hr.
    split; [done|]. intros holder. by apply raises_not_Return.
  - intros l m patch Hlm Hpatch Hshape.
    pose proof (mismatched_patch_raises fs data_source l m patch Hlm Hpatch Hshape)
      as Hr.
    split; [done|]. intros holder. by apply raises_not_Return.
Qed.

Lemma assemble_mat_raises_witness :
  (raises (util.assemble_mat example_patches_missing example_data_source)
   ∧ ∀ holder,
       util.assemble_mat example_patches_missing example_data_source ≠ Return holder)
  ∧ (raises (util.assemble_mat example_patches_misshapen example_data_source)
     ∧ ∀ holder,
         util.assemble_mat example_patches_misshapen example_data_source
         ≠ Return holder).
Proof.
  split.
  - apply (proj1 (assemble_mat_raises example_patches_missing example_data_source)
                 0 1); [cbn; lia|reflexivity].
  - apply (proj2 (assemble_mat_raises example_patches_misshapen example_data_source)
                 0 1 (np.Ndarray2 (1, 1)%nat [[6]])); [cbn; lia|reflexivity|].
    intros [_ H]. discriminate H.
Defined.

(** ** The assembled matrix is block upper-triangular *)

Section upper_triangular.
Implicit Types (holder patch : np.ndarray2) (bsl : list Z).

Lemma batch_start_succ bsl (l x : Z) :
  0 ≤ l → bsl !! Z.to_nat l = Some x →
  batch_start bsl (l + 1) = batch_start bsl l + x.
Proof.
  intros Hl Hx. unfold batch_start.
  replace (Z.to_nat (l + 1)) with (S (Z.to_nat l)) by lia.
  rewrite (take_S_r _ _ x Hx), sum_app. simpl. lia.
Qed.

Lemma batch_start_mono bsl (B a b : Z) :
  (∀ k, 0 ≤ k < B → batch_start bsl k ≤ batch_start bsl (k + 1)) →
  0 ≤ a ≤ b ∧ b ≤ B → batch_start bsl a ≤ batch_start bsl b.
Proof.
  intros Hstep Hab.
  replace b with (a + Z.of_nat (Z.to_nat (b - a))) in * by lia.
  induction (Z.to_nat (b - a)) as [|n IH].
  - by rewrite Z.add_0_r.
  - etrans; [apply IH; lia|].
    replace (a + Z.of_nat (S n)) with (a + Z.of_nat n + 1) by lia.
    apply Hstep. lia.
Qed.

Lemma entry_zeros (r c : Z) holder (i j v : Z) :
  np.zeros_nd r c = Return holder → entry holder i j = Some v → v = 0.
Proof.
  unfold np.zeros_nd. destruct ((r <? 0) || (c <? 0)); [done|].
  intros [= <-]. unfold entry. cbn [np.nd_rows].
  destruct ((0 <=? i) && (0 <=? j)); [|done].
  intros Hv. apply bind_Some in Hv as (row & Hrow & Hv).
  apply lookup_replicate in Hrow as [-> _].
  by apply lookup_replicate in Hv as [-> _].
Qed.

(** An entry after a block assignment is the old entry, or lies in the
    assigned block. *)
Lemma entry_set_block holder (a0 b0 a1 b1 : Z) patch holder' (i j v : Z) :
  np.set_block holder a0 b0 a1 b1 patch = Return holder' →
  entry holder' i j = Some v →
  entry holder i j = Some v
  ∨ (0 ≤ i ∧ 0 ≤ j
     ∧ (slice_lo (Z.of_nat holder.(np.nd_shape).1) (Some a0) ≤ Z.to_nat i
        < slice_hi (Z.of_nat holder.(np.nd_shape).1) (Some b0))%nat
     ∧ (slice_lo (Z.of_nat holder.(np.nd_shape).2) (Some a1) ≤ Z.to_nat j
        < slice_hi (Z.of_nat holder.(np.nd_shape).2) (Some b1))%nat).
Proof.
  unfold np.set_block.
  match goal with |- context [if ?b then _ else _] => destruct b end; [|done].
  intros [= <-]. unfold entry. cbn [np.nd_rows].
  destruct (Z.leb_spec 0 i), (Z.leb_spec 0 j); cbn [andb]; try done.
  rewrite list_lookup_imap.
  destruct (np.nd_rows holder !! Z.to_nat i) as [row|]; [|done].
  cbn [fmap option_fmap option_map mbind option_bind].
  match goal with |- context [if ?b then _ else _] => destruct b eqn:Hrow end;
    [|by left].
  rewrite list_lookup_imap. destruct (row !! Z.to_nat j) as [w|]; [|done].
  cbn [fmap option_fmap option_map].
  match goal with |- context [if ?b then _ else _] => destruct b eqn:Hcol end;
    [|by left].
  intros _. right.
  apply andb_true_iff in Hrow as [Hr1 Hr2], Hcol as [Hc1 Hc2].
  apply Nat.leb_le in Hr1, Hc1. apply Nat.ltb_lt in Hr2, Hc2. lia.
Qed.

(** The rows and columns a slice [[a : a + x)] with non-negative bounds
    selects lie between [a] and [a + x]. *)
Lemma slice_within (n : nat) (a x : Z) (p : nat) :
  0 ≤ a → 0 ≤ x →
  (slice_lo (Z.of_nat n) (Some a) ≤ p
   < slice_hi (Z.of_nat n) (Some (a + x)%Z))%nat →
  a ≤ Z.of_nat p < a + x.
Proof.
  unfold slice_lo, slice_hi, adjust. intros Ha Hx.
  destruct (Z.ltb_spec a 0), (Z.ltb_spec (a + x) 0); lia.
Qed.

(** One round of the inner loop that returns: the patch has the recorded
    shape, the column start moves right, and what it writes lies in the block
    row of batch [l], from the diagonal block on. *)
Lemma assemble_patch_body_step fs (folder_address : string) bsl (l s0 x : Z)
    (R : Z → Z → Prop) holder (c m : Z) holder' (c' : Z) :
  0 ≤ l → 0 ≤ s0 → s0 ≤ c → bsl !! Z.to_nat l = Some x →
  (∀ i j, s0 ≤ i < s0 + x → s0 ≤ j → R i j) →
  nonzero_within R holder →
  util.assemble_patch_body fs folder_address bsl l s0 (s0 + x) (holder, c) m
    = Return (holder', c') →
  0 ≤ x ∧ c ≤ c' ∧ nonzero_within R holder'.
Proof.
  intros Hl Hs0 Hc Hx HR Hnz. unfold util.assemble_patch_body.
  destruct (util.load fs _) as [patch|]; [|done]. cbn [bind].
  rewrite (index_lookup _ _ _ Hl Hx). cbn [bind].
  destruct (Z.eqb_spec (Z.of_nat patch.(np.nd_shape).1) x) as [Hx0|];
    cbn [negb bind]; cycle 1.
  { by destruct (index bsl m). }
  destruct (index bsl m) as [y|]; [|done]. cbn [bind].
  destruct (Z.eqb_spec (Z.of_nat patch.(np.nd_shape).2) y) as [Hy0|];
    cbn [negb bind]; [|done].
  destruct (np.set_block holder s0 (s0 + x) c (c + y) patch) as [h|] eqn:Hset;
    [|done].
  cbn [bind]. intros [= <- <-]. split; [lia|]. split; [lia|].
  intros i j v Hv Hv0.
  destruct (entry_set_block _ _ _ _ _ _ _ _ _ _ Hset Hv)
    as [Hold|(Hi & Hj & Hrow & Hcol)]; [by eapply Hnz|].
  apply slice_within in Hrow, Hcol; [|lia..]. apply HR; lia.
Qed.

(** One round of the outer loop that returns. *)
Lemma assemble_row_body_step fs (folder_address : string) bsl (batch_num l : Z)
    holder (s0 : Z) holder' (s0' : Z) :
  0 ≤ l < batch_num → 0 ≤ s0 →
  nonzero_within (in_upper_blocks bsl l) holder →
  s0 = batch_start bsl l →
  util.assemble_row_body fs folder_address bsl batch_num (holder, s0) l
    = Return (holder', s0') →
  s0' = batch_start bsl (l + 1) ∧ s0 ≤ s0'
  ∧ nonzero_within (in_upper_blocks bsl (l + 1)) holder'.
Proof.
  intros Hl Hs0 Hnz Hstart. unfold util.assemble_row_body.
  destruct (index bsl l) as [x|] eqn:Hx; [|done]. cbn [bind].
  apply index_Return_inv in Hx; [|lia].
  destruct (for_ _ _ _) as [[h c]|] eqn:Hloop; [|done].
  cbn [bind fst]. intros [= <- <-].
  set (R := λ i j, in_upper_blocks bsl l i j ∨ (s0 ≤ i < s0 + x ∧ s0 ≤ j)).
  unfold range in Hloop.
  replace (batch_num - l) with (Z.of_nat (Z.to_nat (batch_num - l))) in Hloop by lia.
  apply (for_range_invariant
           (λ k st, s0 ≤ st.2 ∧ (l < k → 0 ≤ x) ∧ nonzero_within R st.1)) in Hloop.
  - destruct Hloop as (_ & Hx0 & Hnz'). cbn [fst snd] in *.
    specialize (Hx0 ltac:(lia)).
    rewrite (batch_start_succ bsl l x) by (lia || done).
    split; [lia|]. split; [lia|].
    intros i j v Hv Hv0. destruct (Hnz' i j v Hv Hv0) as [(l' & ? & ?)|[Hi Hj]].
    + exists l'. split; [lia|done].
    + exists l. rewrite (batch_start_succ bsl l x) by (lia || done). lia.
  - cbn [fst snd]. split; [lia|]. split; [lia|].
    intros i j v Hv Hv0. left. by eapply Hnz.
  - intros k [h1 c1] [h2 c2] Hk (Hc1 & _ & Hnz1) Hbody. cbn [fst snd] in *.
    eapply assemble_patch_body_step in Hbody as (Hx0 & Hc2 & Hnz2);
      [|lia|done|exact Hc1|done| |exact Hnz1].
    + split; [lia|]. split; [done|done].
    + intros i j Hi Hj. by right.
Qed.

End upper_triangular.

(** C10. The matrix a successful [assemble_mat] returns is block
    upper-triangular: for batches [m < l], every entry in the rows of batch
    [l] and the columns of batch [m] is zero, since only patches with
    [m >= l] are written into the zero-initialised holder. *)
Theorem assemble_mat_block_upper_triangular (fs : util.filesystem)
    (data_source : util.data_source) (holder : np.ndarray2) :
  util.assemble_mat fs data_source = Return holder →
  ∀ l m i j v,
    0 ≤ m < l ∧ l < data_source.(util.batch_number) →
    batch_start data_source.(util.batch_size_list) l ≤ i
      < batch_start data_source.(util.batch_size_list) (l + 1) →
    batch_start data_source.(util.batch_size_list) m ≤ j
      < batch_start data_source.(util.batch_size_list) (m + 1) →
    entry holder i j = Some v → v = 0.
Proof.
  unfold util.assemble_mat.
  destruct (util.isdir fs _); cbn [negb]; [|done].
  destruct (util.all_patches_present fs _ _); cbn [negb]; [|done].
  destruct (np.zeros_nd _ _) as [zeros|] eqn:Hzeros; [|done]. cbn [bind].
  destruct (for_ _ _ _) as [[h s0]|] eqn:Hloop; [|done].
  cbn [bind fst]. intros [= <-] l m i j v Hlm Hi Hj Hv.
  set (bsl := data_source.(util.batch_size_list)) in *.
  set (B := data_source.(util.batch_number)) in *.
  unfold range in Hloop. rewrite Z.sub_0_r in Hloop.
  replace B with (Z.of_nat (Z.to_nat B)) in Hloop by lia.
  apply (for_range_invariant
           (λ k st, st.2 = batch_start bsl k ∧ 0 ≤ st.2
                    ∧ (∀ k', 0 ≤ k' < k →
                         batch_start bsl k' ≤ batch_start bsl (k' + 1))
                    ∧ nonzero_within (in_upper_blocks bsl k) st.1)) in Hloop.
  - destruct Hloop as (_ & _ & Hmono & Hnz). cbn [fst snd] in *.
    rewrite Z.add_0_l, Z2Nat.id in Hmono, Hnz by lia.
    destruct (decide (v = 0)) as [|Hv0]; [done|]. exfalso.
    destruct (Hnz i j v Hv Hv0) as (l' & Hl' & Hi' & Hj').
    pose proof (batch_start_mono bsl B (m + 1) l Hmono ltac:(lia)).
    destruct (Z.lt_trichotomy l' l) as [Hlt|[->|Hgt]].
    + pose proof (batch_start_mono bsl B (l' + 1) l Hmono ltac:(lia)). lia.
    + lia.
    + pose proof (batch_start_mono bsl B (l + 1) l' Hmono ltac:(lia)). lia.
  - cbn [fst snd]. split; [done|]. split; [done|]. split; [intros; lia|].
    intros i' j' v' Hv' Hv0. by apply (entry_zeros _ _ _ _ _ _ Hzeros) in Hv'.
  - intros k [h1 c1] [h2 c2] Hk (Hc1 & Hc0 & Hmono & Hnz1) Hbody.
    cbn [fst snd] in *.
    eapply assemble_row_body_step in Hbody as (Hc2 & Hle & Hnz2);
      [|lia|done|exact Hnz1|done].
    split; [done|]. split; [lia|]. split; [|done].
    intros k' Hk'. destruct (decide (k' = k)) as [->|]; [lia|].
    apply Hmono. lia.
Qed.

Lemma assemble_mat_block_upper_triangular_witness :
  util.assemble_mat example_patches example_data_source
    = Return (np.Ndarray2 (3, 3)%nat [[5; 6; 7]; [0; 8; 9]; [0; 10; 11]])
  ∧ entry (np.Ndarray2 (3, 3)%nat [[5; 6; 7]; [0; 8; 9]; [0; 10; 11]]) 2 0 = Some 0
  ∧ (0 : Z) = 0.
Proof.
  split; [vm_compute; reflexivity|]. split; [reflexivity|].
  apply (assemble_mat_block_upper_triangular example_patches example_data_source
           (np.Ndarray2 (3, 3)%nat [[5; 6; 7]; [0; 8; 9]; [0; 10; 11]])
           eq_refl 1 0 2 0 0).
  - unfold example_data_source. simpl. lia.
  - unfold batch_start, example_data_source. simpl. lia.
  - unfold batch_start, example_data_source. simpl. lia.
  - reflexivity.
Defined.

(** ** The input parser *)

Section parser_loops.
Context {A S : Type}.
Implicit Types (xs : list A) (body : S → A → result S).

(** A loop whose rounds keep an invariant as long as they return, and that
    has a round which raises under the invariant, raises; the exception is
    of the kind [Q] if every exception of a round is. *)
Lemma for_raises_within (P : S → Prop) (Q : exn → Prop) xs body (s : S) (x0 : A) :
  P s →
  (∀ s x, x ∈ xs → P s →
     (∃ e, body s x = Raise e ∧ Q e) ∨ (∃ s', body s x = Return s' ∧ P s')) →
  x0 ∈ xs →
  (∀ s, P s → ∃ e, body s x0 = Raise e ∧ Q e) →
  ∃ e, for_ xs body s = Raise e ∧ Q e.
Proof.
  intros Hs Hstep Hx0 Hraise. revert s Hs.
  induction xs as [|x xs IH]; intros s Hs; [by apply elem_of_nil in Hx0|].
  cbn [for_]. apply elem_of_cons in Hx0 as [<-|Hx0].
  - destruct (Hraise s Hs) as (e & -> & He). by exists e.
  - destruct (Hstep s x) as [(e & -> & He)|(s' & -> & Hs')]; [left|done| |].
    + by exists e.
    + cbn [bind]. apply IH; [|done..].
      intros t y Hy. apply Hstep. by right.
Qed.

(** A loop whose rounds all return and keep an invariant returns. *)
Lemma for_returns_within (P : S → Prop) xs body (s : S) :
  P s →
  (∀ s x, x ∈ xs → P s → ∃ s', body s x = Return s' ∧ P s') →
  ∃ s', for_ xs body s = Return s' ∧ P s'.
Proof.
  intros Hs Hstep. revert s Hs.
  induction xs as [|x xs IH]; intros s Hs; [by exists s|].
  cbn [for_]. destruct (Hstep s x) as (s' & -> & Hs'); [left|done|].
  cbn [bind]. apply IH; [|done]. intros t y Hy. apply Hstep. by right.
Qed.

End parser_loops.

Section duplicates.

Lemma remove_dups_length_le (l : list string) :
  (length (remove_dups l) ≤ length l)%nat.
Proof.
  induction l as [|x l IH]; [done|]. cbn [remove_dups].
  destruct (decide_rel _ x l); simpl; lia.
Qed.

Lemma has_duplicates_NoDup (l : list string) :
  has_duplicates l = false ↔ NoDup l.
Proof.
  unfold has_duplicates. rewrite bool_decide_eq_false. unfold len.
  induction l as [|x l IH].
  - split; [constructor|]. intros _ H. by apply H.
  - cbn [remove_dups]. pose proof (remove_dups_length_le l).
    rewrite NoDup_cons. destruct (decide_rel _ x l) as [Hx|Hx].
    + split; [|by intros [? _]]. intros H'. exfalso. apply H'. simpl. lia.
    + rewrite <- IH. simpl. split.
      * intros H'. split; [done|]. intros H''. apply H'. lia.
      * intros [_ H'] H''. apply H'. lia.
Qed.

End duplicates.

Section lines.
Implicit Types (line : string) (lines rest : list string).

Lemma file_line_not_dataset line address :
  file_of_line line = Some address → dataset_of_line line = None.
Proof.
  unfold file_of_line, dataset_of_line.
  case_bool_decide as Hf; [|done]. intros _.
  case_bool_decide as Hd; [|done].
  destruct line as [|c line]; [done|].
  cbn [str_take] in Hf, Hd. congruence.
Qed.

Lemma body_next lines : body_lines lines ++ next_file lines = lines.
Proof.
  induction lines as [|line rest IH]; [done|]. cbn [body_lines next_file].
  destruct (file_of_line line); [done|]. simpl. by rewrite IH.
Qed.

Lemma body_lines_no_file lines :
  Forall (λ line, file_of_line line = None) (body_lines lines).
Proof.
  induction lines as [|line rest IH]; [constructor|]. cbn [body_lines].
  destruct (file_of_line line) eqn:Hl; [constructor|]. by constructor.
Qed.

Lemma next_file_head lines :
  next_file lines = [] ∨
  ∃ line address rest,
    next_file lines = line :: rest ∧ file_of_line line = Some address.
Proof.
  induction lines as [|line rest IH]; [by left|]. cbn [next_file].
  destruct (file_of_line line) as [address|] eqn:Hl; [|done].
  right. by exists line, address, rest.
Qed.

Lemma listed_files_next lines : listed_files (next_file lines) = listed_files lines.
Proof.
  induction lines as [|line rest IH]; [done|]. cbn [next_file].
  destruct (file_of_line line) eqn:Hl; [done|].
  rewrite IH. unfold listed_files. cbn [omap list_omap]. by rewrite Hl.
Qed.

Lemma listing_next h5 lines : listing h5 (next_file lines) = listing h5 lines.
Proof.
  induction lines as [|line rest IH]; [done|]. cbn [next_file].
  destruct (file_of_line line) eqn:Hl; [done|].
  rewrite IH. cbn [listing]. by rewrite Hl.
Qed.

Lemma file_positions_next (k : Z) lines :
  file_positions (k + len (body_lines lines)) (next_file lines)
  = file_positions k lines.
Proof.
  revert k. induction lines as [|line rest IH]; intros k; [done|].
  cbn [next_file body_lines].
  destruct (file_of_line line) eqn:Hl.
  - unfold len. simpl. by rewrite Z.add_0_r.
  - cbn [file_positions]. rewrite Hl, <- IH. f_equal. unfold len. simpl. lia.
Qed.

Lemma fst_listing h5 lines : (listing h5 lines).*1 = listed_files lines.
Proof.
  induction lines as [|line rest IH]; [done|].
  unfold listed_files in *. cbn [listing omap list_omap].
  destruct (file_of_line line); [|done]. rewrite fmap_cons. cbn [fst].
  f_equal. apply IH.
Qed.

Lemma length_file_positions (k : Z) lines :
  length (file_positions k lines) = length (listed_files lines).
Proof.
  revert k. induction lines as [|line rest IH]; intros k; [done|].
  unfold listed_files in *. cbn [file_positions omap list_omap].
  destruct (file_of_line line); simpl; by rewrite IH.
Qed.

End lines.

Section first_loop.
Implicit Types (line : string) (pre suf rest : list string)
  (E : gmap string util.source_entry).

Lemma listed_files_cons line rest :
  listed_files (line :: rest)
  = match file_of_line line with
    | Some address => address :: listed_files rest
    | None => listed_files rest
    end.
Proof. unfold listed_files. cbn [omap list_omap]. by destruct (file_of_line line). Qed.

Lemma app_cons_assoc {A} (l1 : list A) (x : A) (l2 : list A) :
  l1 ++ x :: l2 = (l1 ++ [x]) ++ l2.
Proof. by rewrite <- app_assoc. Qed.

Lemma len_snoc {A} (l : list A) (x : A) : len (l ++ [x]) = len l + 1.
Proof. unfold len. rewrite length_app. simpl. lia. Qed.

(** One round of the first loop, on the line after [pre]. *)
Lemma first_loop_body_step h5 pre line rest (F : list string) E (P : list Z) :
  util.first_loop_body h5 (pre ++ line :: rest) (F, E, P) (len pre)
  = match file_of_line line with
    | None => Return (F, E, P)
    | Some address =>
        match h5 address with
        | Some _ => Return (F ++ [address],
                            <[address := util.SourceEntry [] []]> E,
                            P ++ [len pre])
        | None => Raise (Exception (util.missing_file_message address))
        end
    end.
Proof.
  unfold util.first_loop_body. rewrite index_app_middle. cbn [bind].
  unfold file_of_line. case_bool_decide; [|done].
  unfold h5py.File. by destruct (h5 _).
Qed.

Lemma first_loop_returns h5 suf pre (F : list string) E (P : list Z) :
  all_open h5 (listed_files suf) →
  for_ (seqZ (len pre) (len suf)) (util.first_loop_body h5 (pre ++ suf)) (F, E, P)
  = Return (F ++ listed_files suf,
            fresh_entries E (listed_files suf),
            P ++ file_positions (len pre) suf).
Proof.
  revert pre F E P. induction suf as [|line rest IH]; intros pre F E P Hopen.
  - cbn. by rewrite !app_nil_r.
  - rewrite seqZ_len_cons. cbn [for_]. rewrite first_loop_body_step.
    rewrite listed_files_cons in Hopen |- *. cbn [file_positions].
    rewrite (app_cons_assoc pre line rest), <- (len_snoc pre line).
    destruct (file_of_line line) as [address|] eqn:Hline.
    + destruct (Hopen address) as [f Hf]; [by left|]. rewrite Hf. cbn [bind].
      rewrite IH by (intros a Ha; apply Hopen; by right).
      by rewrite <- !app_assoc.
    + cbn [bind]. by rewrite IH.
Qed.

Lemma first_loop_fails h5 suf pre (F : list string) E (P : list Z) address :
  address ∈ listed_files suf → h5 address = None →
  fails (for_ (seqZ (len pre) (len suf)) (util.first_loop_body h5 (pre ++ suf))
              (F, E, P)).
Proof.
  intros Hin Hmissing. revert pre F E P Hin.
  induction suf as [|line rest IH]; intros pre F E P Hin.
  - by apply elem_of_nil in Hin.
  - rewrite seqZ_len_cons. cbn [for_]. rewrite first_loop_body_step.
    rewrite listed_files_cons in Hin.
    rewrite (app_cons_assoc pre line rest), <- (len_snoc pre line).
    destruct (file_of_line line) as [a|] eqn:Hline.
    + destruct (h5 a) as [f|] eqn:Hf.
      * cbn [bind]. apply IH. apply elem_of_cons in Hin as [->|Hin]; [|done].
        congruence.
      * cbn [bind]. by eexists.
    + cbn [bind]. by apply IH.
Qed.

End first_loop.

Section second_loop.
Implicit Types (line : string) (pre suf rest : list string)
  (E : gmap string util.source_entry).

(** The inner loop over the lines [ls] that follow [pre]: the names on
    their [Dataset:] lines are appended to the file's entry. *)
Lemma second_inner_loop ls pre post (file_list : list string) (file_idx : Z)
    (name : string) E (entry : util.source_entry) (default_flag : bool) :
  index file_list file_idx = Return name →
  E !! name = Some entry →
  for_ (seqZ (len pre) (len ls))
       (util.second_inner_body (pre ++ ls ++ post) file_list file_idx)
       (E, default_flag)
  = Return (match omap dataset_of_line ls with
            | [] => (E, default_flag)
            | names =>
                (<[name := util.SourceEntry (util.se_Datasets entry ++ names)
                                            (util.se_data_num entry)]> E,
                 false)
            end).
Proof.
  intros Hname. revert pre E entry default_flag.
  induction ls as [|line ls IH]; intros pre E entry default_flag Hentry; [done|].
  rewrite seqZ_len_cons. cbn [for_ omap list_omap].
  unfold util.second_inner_body at 1. cbn [app].
  rewrite index_app_middle. cbn [bind].
  rewrite (app_cons_assoc pre line), <- (len_snoc pre line).
  unfold dataset_of_line at 1. case_bool_decide as Hline.
  - rewrite Hname. cbn [bind]. unfold getitem. rewrite Hentry. cbn [bind].
    erewrite IH by apply lookup_insert_eq. cbn [util.se_Datasets util.se_data_num].
    destruct (omap dataset_of_line ls) as [|d ds]; [done|].
    by rewrite insert_insert_eq, <- app_assoc.
  - cbn [bind]. by apply IH.
Qed.

Lemma fresh_lookup E (files : list string) (address : string) :
  address ∈ files →
  fresh_entries E files !! address = Some (util.SourceEntry [] []).
Proof.
  unfold fresh_entries. revert E.
  induction files as [|a files IH] using rev_ind; intros E Hin.
  - by apply elem_of_nil in Hin.
  - rewrite foldl_app. cbn [foldl].
    destruct (decide (a = address)) as [->|Hne]; [apply lookup_insert_eq|].
    rewrite lookup_insert_ne by done. apply IH.
    apply elem_of_app in Hin as [Hin|Hin]; [done|].
    apply list_elem_of_singleton in Hin. congruence.
Qed.

Lemma update_entries_other g E (l : list (string * list string)) (address : string) :
  address ∉ l.*1 → update_entries g E l !! address = E !! address.
Proof.
  unfold update_entries. revert E.
  induction l as [|[a names] l IH]; intros E Hnotin; [done|].
  cbn [foldl]. rewrite fmap_cons, not_elem_of_cons in Hnotin.
  destruct Hnotin as [Hne Hnotin]. rewrite IH by done.
  by apply lookup_insert_ne.
Qed.

Lemma update_entries_lookup g E (l : list (string * list string))
    (address : string) (names : list string) :
  NoDup l.*1 → (address, names) ∈ l →
  update_entries g E l !! address = Some (g address names).
Proof.
  revert E. induction l as [|[a ds] l IH]; intros E Hnodup Hin.
  - by apply elem_of_nil in Hin.
  - rewrite fmap_cons in Hnodup. apply NoDup_cons in Hnodup as [Ha Hnodup].
    change (update_entries g E ((a, ds) :: l))
      with (update_entries g (<[a := g a ds]> E) l).
    apply elem_of_cons in Hin as [[= -> ->]|Hin].
    + rewrite update_entries_other by done. apply lookup_insert_eq.
    + by apply IH.
Qed.

End second_loop.

Section second_loop_rounds.
Implicit Types (line : string) (pre suf rest : list string)
  (E : gmap string util.source_entry).

(** One round of the second loop, for the file whose line follows [pre];
    [hi] is the position the next entry of [file_pos] holds. *)
Lemma second_loop_body_step h5 pre line rest (address : string)
    (Fpre Fsuf : list string) (Ppre Psuf : list Z) E (f : h5py.file) :
  file_of_line line = Some address →
  h5 address = Some f →
  E !! address = Some (util.SourceEntry [] []) →
  length Fpre = length Ppre →
  util.second_loop_body h5 (pre ++ line :: rest) (Fpre ++ address :: Fsuf)
    (Ppre ++ len pre :: (len pre + 1 + len (body_lines rest)) :: Psuf) E (len Fpre)
  = Return (<[address := util.SourceEntry
                           (datasets_of h5 address (named_datasets rest)) []]> E).
Proof.
  intros Hline Hf Hentry Hlen.
  assert (HF : len Fpre = len Ppre) by (unfold len; by rewrite Hlen).
  unfold util.second_loop_body.
  rewrite HF at 1. rewrite index_app_middle. cbn [bind].
  rewrite HF at 1. rewrite (app_cons_assoc Ppre), <- (len_snoc Ppre (len pre)).
  rewrite index_app_middle. cbn [bind].
  unfold range.
  replace (len pre + 1 + len (body_lines rest) - len pre)
    with (len (line :: body_lines rest)) by (unfold len; simpl; lia).
  replace (pre ++ line :: rest)
    with (pre ++ (line :: body_lines rest) ++ next_file rest)
    by (cbn [app]; by rewrite body_next).
  assert (Hname : index (Fpre ++ address :: Fsuf) (len Fpre) = Return address)
    by apply index_app_middle.
  rewrite (second_inner_loop _ _ _ _ _ address E (util.SourceEntry [] []) true)
    by done.
  cbn [bind omap list_omap]. rewrite (file_line_not_dataset _ _ Hline).
  fold (named_datasets rest).
  destruct (named_datasets rest) as [|d ds]; cbn [datasets_of].
  - rewrite Hname. cbn [bind]. unfold h5py.File. rewrite Hf. cbn [bind].
    unfold getitem. by rewrite Hentry.
  - done.
Qed.

Lemma len_body_next lines :
  len lines = len (body_lines lines) + len (next_file lines).
Proof. rewrite <- len_app. by rewrite body_next. Qed.

Lemma file_positions_head (k : Z) rest :
  ∃ Psuf,
    file_positions (k + 1) rest ++ [k + 1 + len rest]
    = (k + 1 + len (body_lines rest)) :: Psuf.
Proof.
  rewrite <- (file_positions_next (k + 1) rest), (len_body_next rest).
  destruct (next_file_head rest) as [Hnil|(l & a & r & Hcons & Hl)].
  - rewrite Hnil. exists []. cbn. f_equal. unfold len. simpl. lia.
  - rewrite Hcons. cbn [file_positions]. rewrite Hl. by eexists.
Qed.

Lemma second_loop_from h5 (n : nat) :
  ∀ suf pre (Fpre : list string) (Ppre : list Z) E,
    length (listed_files suf) = n →
    (suf = [] ∨ ∃ line a rest, suf = line :: rest ∧ file_of_line line = Some a) →
    length Fpre = length Ppre →
    all_open h5 (listed_files suf) →
    NoDup (listed_files suf) →
    (∀ a, a ∈ listed_files suf → E !! a = Some (util.SourceEntry [] [])) →
    for_ (seqZ (len Fpre) (Z.of_nat n))
         (util.second_loop_body h5 (pre ++ suf) (Fpre ++ listed_files suf)
            (Ppre ++ file_positions (len pre) suf ++ [len pre + len suf]))
         E
    = Return (listed_entries E (listing h5 suf)).
Proof.
  induction n as [|n IH]; intros suf pre Fpre Ppre E Hn Hsuf Hlen Hopen Hnodup HE.
  - cbn. f_equal. pose proof (fst_listing h5 suf) as Hfst.
    apply nil_length_inv in Hn. rewrite Hn in Hfst.
    apply fmap_nil_inv in Hfst. by rewrite Hfst.
  - destruct Hsuf as [->|(line & a & rest & -> & Hline)]; [done|].
    rewrite listed_files_cons, Hline in Hn, Hopen, Hnodup, HE |- *.
    cbn [file_positions listing]. rewrite Hline.
    destruct (Hopen a) as [f Hf]; [by left|].
    apply NoDup_cons in Hnodup as [Hnotin Hnodup].
    destruct (file_positions_head (len pre) rest) as [Psuf HP].
    replace (len pre + len (line :: rest)) with (len pre + 1 + len rest)
      by (unfold len; simpl; lia).
    cbn [app]. rewrite HP.
    rewrite seqZ_cons by lia. cbn [for_].
    rewrite (second_loop_body_step h5 pre line rest a Fpre _ Ppre Psuf E f)
      by (done || apply HE; by left).
    cbn [bind].
    replace (Z.pred (Z.of_nat (S n))) with (Z.of_nat n) by lia.
    replace (Z.succ (len Fpre)) with (len (Fpre ++ [a])) by (rewrite len_snoc; lia).
    rewrite <- HP.
    rewrite <- (file_positions_next (len pre + 1) rest).
    rewrite <- (listed_files_next rest), <- (listing_next h5 rest) in *.
    replace (pre ++ line :: rest)
      with ((pre ++ line :: body_lines rest) ++ next_file rest)
      by (rewrite <- app_assoc; cbn [app]; by rewrite body_next).
    replace (len pre + 1 + len (body_lines rest))
      with (len (pre ++ line :: body_lines rest))
      by (unfold len; rewrite length_app; simpl; lia).
    replace (len pre + 1 + len rest)
      with (len (pre ++ line :: body_lines rest) + len (next_file rest)).
    2:{ rewrite (len_body_next rest). unfold len.
        rewrite !length_app. simpl. lia. }
    rewrite (app_cons_assoc Fpre a (listed_files (next_file rest))),
      (app_cons_assoc Ppre (len pre)).
    change (listed_entries E ((a, datasets_of h5 a (named_datasets rest))
                                :: listing h5 (next_file rest)))
      with (listed_entries
              (<[a := util.SourceEntry (datasets_of h5 a (named_datasets rest)) []]> E)
              (listing h5 (next_file rest))).
    apply IH.
    + by injection Hn.
    + destruct (next_file_head rest) as [->|(l & a' & r & -> & Hl)]; [by left|].
      right. by exists l, a', r.
    + rewrite !length_app. simpl. by rewrite Hlen.
    + intros a' Ha'. apply Hopen. by right.
    + done.
    + intros a' Ha'. rewrite lookup_insert_ne; [apply HE; by right|].
      intros ->. done.
Qed.

Lemma second_loop_returns h5 (lines : list string) :
  all_open h5 (listed_files lines) →
  NoDup (listed_files lines) →
  util.second_loop h5 lines (listed_files lines)
    (file_positions 0 lines ++ [len lines])
    (fresh_entries ∅ (listed_files lines))
  = Return (listed_entries (fresh_entries ∅ (listed_files lines))
                           (listing h5 lines)).
Proof.
  intros Hopen Hnodup. unfold util.second_loop, range. rewrite Z.sub_0_r.
  pose proof (second_loop_from h5 (length (listed_files lines))
                (next_file lines) (body_lines lines) [] []
                (fresh_entries ∅ (listed_files lines))) as H.
  rewrite listed_files_next, listing_next, body_next in H.
  replace (len (body_lines lines) + len (next_file lines)) with (len lines) in H.
  2:{ apply len_body_next. }
  replace (file_positions (len (body_lines lines)) (next_file lines))
    with (file_positions 0 lines) in H
    by (by rewrite <- (file_positions_next 0 lines), Z.add_0_l).
  apply H; try done.
  - destruct (next_file_head lines) as [->|(l & a & r & -> & Hl)]; [by left|].
    right. by exists l, a, r.
  - intros a Ha. by apply fresh_lookup.
Qed.

End second_loop_rounds.

Section third_loop.
Implicit Types (E : gmap string util.source_entry) (f : h5py.file)
  (shape : list Z) (names : list string).

Lemma get_slice_tail {A} (l : list A) : get_slice l (Some 1) None = drop 1 l.
Proof.
  unfold get_slice, slice_lo, slice_hi, adjust, len. destruct l as [|x l]; [done|].
  cbn [length]. change (1 <? 0) with false. cbv iota.
  rewrite Z.min_l by lia. rewrite Nat2Z.id.
  change (Z.to_nat 1) with 1%nat. apply take_ge.
  rewrite length_drop. simpl. lia.
Qed.

Lemma dataset_shape_items h5 (address key : string) f :
  h5 address = Some f →
  dataset_shape h5 address key
  = match h5py.items f key with
    | Some (h5py.Dataset sh) => Some sh
    | _ => None
    end.
Proof.
  intros Hf. unfold dataset_shape. rewrite Hf. cbn.
  by destruct (h5py.items f key) as [[]|].
Qed.

Lemma entry_eta (entry : util.source_entry) :
  util.SourceEntry (util.se_Datasets entry) (util.se_data_num entry) = entry.
Proof. by destruct entry. Qed.

(** One round of the inner loop on a dataset with a first axis. *)
Lemma third_inner_body_step f shape (address key : string) E
    (entry : util.source_entry) (n : Z) (rest : list Z) :
  h5py.items f key = Some (h5py.Dataset (n :: rest)) →
  E !! address = Some entry →
  util.third_inner_body f shape address E key
  = if bool_decide (shape ≠ rest)
    then Raise (Exception (util.shape_message key address))
    else Return (<[address := util.SourceEntry (util.se_Datasets entry)
                                (util.se_data_num entry ++ [n])]> E).
Proof.
  intros Hitem Hentry. unfold util.third_inner_body, h5py.getitem, getitem.
  rewrite Hitem, Hentry. cbn [bind h5py.shape].
  rewrite (index_lookup (n :: rest) 0 n) by done. cbn [bind].
  by rewrite get_slice_tail.
Qed.

(** A round of the inner loop that returns has read a dataset of the
    reference shape and has only added its first axis to the entry. *)
Lemma third_inner_body_returns f shape (address key : string) E E' :
  util.third_inner_body f shape address E key = Return E' →
  ∃ n entry,
    h5py.items f key = Some (h5py.Dataset (n :: shape))
    ∧ E !! address = Some entry
    ∧ E' = <[address := util.SourceEntry (util.se_Datasets entry)
                          (util.se_data_num entry ++ [n])]> E.
Proof.
  unfold util.third_inner_body, h5py.getitem, getitem.
  destruct (h5py.items f key) as [[sh|]|] eqn:Hitem; cbn [bind]; [|by destruct (E !! address)..].
  destruct (E !! address) as [entry|] eqn:Hentry; cbn [bind h5py.shape]; [|done].
  destruct sh as [|n rest]; [done|].
  rewrite (index_lookup (n :: rest) 0 n) by done. cbn [bind].
  rewrite get_slice_tail. cbn [drop]. case_bool_decide as Hshape; [done|].
  intros [= <-]. exists n, entry.
  simpl in Hshape. by subst.
Qed.

Lemma keeps_datasets_refl E : keeps_datasets E E.
Proof. done. Qed.

Lemma keeps_datasets_insert E0 E (address : string) (entry : util.source_entry)
    (nums : list Z) :
  keeps_datasets E0 E → E !! address = Some entry →
  keeps_datasets E0 (<[address := util.SourceEntry (util.se_Datasets entry) nums]> E).
Proof.
  intros Hkeep Hentry a. destruct (decide (address = a)) as [<-|Hne].
  - rewrite lookup_insert_eq, <- Hkeep, Hentry. done.
  - rewrite lookup_insert_ne by done. apply Hkeep.
Qed.

Lemma keeps_datasets_lookup E0 E (address : string) (entry0 : util.source_entry) :
  keeps_datasets E0 E → E0 !! address = Some entry0 →
  ∃ entry, E !! address = Some entry
           ∧ util.se_Datasets entry = util.se_Datasets entry0.
Proof.
  intros Hkeep Hentry0. specialize (Hkeep address). rewrite Hentry0 in Hkeep.
  destruct (E !! address) as [entry|]; [|done].
  exists entry. split; [done|]. by injection Hkeep.
Qed.

(** The inner loop over datasets that all have the reference shape. *)
Lemma third_inner_loop h5 f shape (address : string) names :
  h5 address = Some f →
  (∀ key, key ∈ names → ∃ n, dataset_shape h5 address key = Some (n :: shape)) →
  ∀ E (entry : util.source_entry),
    E !! address = Some entry →
    for_ names (util.third_inner_body f shape address) E
    = Return (<[address := util.SourceEntry (util.se_Datasets entry)
                 (util.se_data_num entry ++ first_axes h5 address names)]> E).
Proof.
  intros Hf. induction names as [|key names IH]; intros Hnames E entry Hentry.
  - cbn. by rewrite app_nil_r, entry_eta, insert_id.
  - destruct (Hnames key) as [n Hn]; [by left|].
    pose proof Hn as Hitem. rewrite (dataset_shape_items _ _ _ _ Hf) in Hitem.
    destruct (h5py.items f key) as [[sh|]|] eqn:Hi; [|done..].
    injection Hitem as ->.
    cbn [for_]. rewrite (third_inner_body_step _ _ _ _ _ entry n shape) by done.
    rewrite bool_decide_eq_false_2 by (by intros H; apply H). cbn [bind].
    erewrite IH; [|intros k Hk; apply Hnames; by right|apply lookup_insert_eq].
    cbn [util.se_Datasets util.se_data_num].
    rewrite insert_insert_eq. unfold first_axes. cbn [omap list_omap].
    rewrite Hn. cbn. by rewrite <- app_assoc.
Qed.

(** The third loop over files whose datasets all have the reference
    shape. *)
Lemma third_loop_valid h5 shape (l : list (string * list string)) :
  ∀ E,
    NoDup l.*1 →
    (∀ address names, (address, names) ∈ l →
       E !! address = Some (util.SourceEntry names [])
       ∧ is_Some (h5 address)
       ∧ ∀ key, key ∈ names →
           ∃ n, dataset_shape h5 address key = Some (n :: shape)) →
    for_ l.*1 (util.third_loop_body h5 shape) E
    = Return (counted_entries h5 E l).
Proof.
  induction l as [|[a names] l IH]; intros E Hnodup Hl; [done|].
  rewrite fmap_cons in Hnodup |- *. apply NoDup_cons in Hnodup as [Ha Hnodup].
  destruct (Hl a names) as (Hentry & [f Hf] & Hnames); [by left|].
  cbn [for_ fst]. unfold util.third_loop_body at 1, h5py.File, getitem.
  rewrite Hf, Hentry. cbn [bind util.se_Datasets].
  rewrite (third_inner_loop h5 f shape a names Hf Hnames E _ Hentry).
  cbn [bind util.se_Datasets util.se_data_num app].
  change (counted_entries h5 E ((a, names) :: l))
    with (counted_entries h5
            (<[a := util.SourceEntry names (first_axes h5 a names)]> E) l).
  apply IH; [done|].
  intros a' names' Hin. destruct (Hl a' names') as (He & Ho & Hn); [by right|].
  split; [|done]. rewrite lookup_insert_ne; [done|].
  intros ->. apply Ha. apply list_elem_of_fmap. by exists (a', names').
Qed.

End third_loop.

Section parser_rounds.
Context {A S : Type}.
Implicit Types (xs : list A) (body : S → A → result S).

(** A loop whose rounds raise an exception of the kind [Q] or return and
    keep an invariant does one or the other itself. *)
Lemma for_within (P : S → Prop) (Q : exn → Prop) xs body (s : S) :
  P s →
  (∀ s x, x ∈ xs → P s →
     (∃ e, body s x = Raise e ∧ Q e) ∨ (∃ s', body s x = Return s' ∧ P s')) →
  (∃ e, for_ xs body s = Raise e ∧ Q e) ∨ (∃ s', for_ xs body s = Return s' ∧ P s').
Proof.
  intros Hs Hstep. revert s Hs.
  induction xs as [|x xs IH]; intros s Hs; [right; by exists s|].
  cbn [for_]. destruct (Hstep s x) as [(e & -> & He)|(s' & -> & Hs')]; [by left|done| |].
  - left. by exists e.
  - cbn [bind]. apply IH; [|done]. intros t y Hy. apply Hstep. by right.
Qed.

(** In a loop that returns, every round has returned, from a state that
    satisfies the invariant the rounds keep. *)
Lemma for_returns_rounds (P : S → Prop) xs body (s s' : S) :
  P s →
  (∀ s x s', x ∈ xs → P s → body s x = Return s' → P s') →
  for_ xs body s = Return s' →
  P s' ∧ ∀ x, x ∈ xs → ∃ s1 s2, P s1 ∧ body s1 x = Return s2.
Proof.
  intros Hs Hstep. revert s Hs.
  induction xs as [|x xs IH]; intros s Hs Hfor.
  - injection Hfor as <-. split; [done|]. intros x Hx. by apply elem_of_nil in Hx.
  - cbn [for_] in Hfor. destruct (body s x) as [t|e] eqn:Hbody; [|done].
    cbn [bind] in Hfor.
    assert (Ht : P t) by (eapply Hstep; [by left|done..]).
    destruct (IH (λ s x s' Hx, Hstep s x s' (list_elem_of_further _ _ _ Hx)) t Ht Hfor)
      as [Hs' Hrounds].
    split; [done|]. intros y [->|Hy]%elem_of_cons; [by exists s, t|by apply Hrounds].
Qed.

End parser_rounds.

Section parser_phases.
Implicit Types (E : gmap string util.source_entry) (f : h5py.file)
  (shape : list Z) (names : list string).

Lemma first_loop_all_open h5 (lines : list string) :
  all_open h5 (listed_files lines) →
  util.first_loop h5 lines
  = Return (listed_files lines, fresh_entries ∅ (listed_files lines),
            file_positions 0 lines).
Proof.
  intros Hopen. unfold util.first_loop, range. rewrite Z.sub_0_r.
  by rewrite (first_loop_returns h5 lines [] [] ∅ [] Hopen).
Qed.

Lemma fresh_other E (files : list string) (address : string) :
  address ∉ files → fresh_entries E files !! address = E !! address.
Proof.
  unfold fresh_entries. revert E.
  induction files as [|a files IH]; intros E Hnotin; [done|].
  apply not_elem_of_cons in Hnotin as [Hne Hnotin].
  cbn [foldl]. rewrite IH by done. by apply lookup_insert_ne.
Qed.

(** The entries the second loop leaves on a list with distinct paths. *)
Lemma listed_lookup h5 (lines : list string) E (address : string) names :
  NoDup (listed_files lines) → (address, names) ∈ listing h5 lines →
  listed_entries E (listing h5 lines) !! address
  = Some (util.SourceEntry names []).
Proof.
  intros Hnodup Hin. unfold listed_entries.
  by rewrite (update_entries_lookup _ _ _ address names)
    by (by rewrite ?fst_listing).
Qed.

Lemma elem_of_listing_files h5 (lines : list string) (address : string) names :
  (address, names) ∈ listing h5 lines → address ∈ listed_files lines.
Proof.
  intros Hin. rewrite <- (fst_listing h5). apply list_elem_of_fmap.
  by exists (address, names).
Qed.

Lemma elem_of_files_listing h5 (lines : list string) (address : string) :
  address ∈ listed_files lines → ∃ names, (address, names) ∈ listing h5 lines.
Proof.
  rewrite <- (fst_listing h5). intros ([a names] & -> & Hin)%list_elem_of_fmap.
  by exists names.
Qed.

Lemma get_a_shape_spec h5 (address : string) (rest : list string) E
    (entry : util.source_entry) (key : string) names f (sh : list Z) :
  h5 address = Some f → E !! address = Some entry →
  util.se_Datasets entry = key :: names →
  h5py.items f key = Some (h5py.Dataset sh) →
  util.get_a_shape h5 (address :: rest) E = Return (drop 1 sh).
Proof.
  intros Hf Hentry Hnames Hitem.
  unfold util.get_a_shape, h5py.File, getitem, h5py.getitem.
  rewrite (index_lookup (address :: rest) 0 address) by done. cbn [bind].
  rewrite Hf, Hentry. cbn [bind]. rewrite Hnames.
  rewrite (index_lookup (key :: names) 0 key) by done. cbn [bind].
  rewrite Hitem. cbn [bind h5py.shape]. by rewrite get_slice_tail.
Qed.

Lemma index_zero_inv {A} (l : list A) (x : A) :
  index l 0 = Return x → ∃ rest, l = x :: rest.
Proof.
  destruct l as [|y rest]; [done|]. intros H.
  rewrite (index_lookup (y :: rest) 0 y) in H by done.
  injection H as ->. by exists rest.
Qed.

Lemma get_a_shape_returns h5 (file_list : list string) E shape :
  util.get_a_shape h5 file_list E = Return shape →
  ∃ address rest f entry key names sh,
    file_list = address :: rest ∧ h5 address = Some f
    ∧ E !! address = Some entry ∧ util.se_Datasets entry = key :: names
    ∧ h5py.items f key = Some (h5py.Dataset sh) ∧ shape = drop 1 sh.
Proof.
  unfold util.get_a_shape, h5py.File, getitem, h5py.getitem.
  destruct (index file_list 0) as [address|] eqn:Hfile; [|done].
  apply index_zero_inv in Hfile as [rest ->]. cbn [bind].
  destruct (h5 address) as [f|] eqn:Hf; [|done]. cbn [bind].
  destruct (E !! address) as [entry|] eqn:Hentry; [|done]. cbn [bind].
  destruct (index (util.se_Datasets entry) 0) as [key|] eqn:Hkey; [|done].
  apply index_zero_inv in Hkey as [names Hnames]. cbn [bind].
  destruct (h5py.items f key) as [[sh|]|] eqn:Hitem; [|done..].
  cbn [bind h5py.shape]. rewrite get_slice_tail. intros [= <-].
  by exists address, rest, f, entry, key, names, sh.
Qed.

(** A round of the third loop that returns has opened the file and read
    every dataset of its entry with the reference shape. *)
Lemma third_loop_body_returns h5 shape E0 E E' (address : string) :
  keeps_datasets E0 E →
  util.third_loop_body h5 shape E address = Return E' →
  keeps_datasets E0 E'
  ∧ ∃ f entry,
      h5 address = Some f ∧ E !! address = Some entry
      ∧ ∀ key, key ∈ util.se_Datasets entry →
          ∃ n, h5py.items f key = Some (h5py.Dataset (n :: shape)).
Proof.
  intros Hkeep. unfold util.third_loop_body, h5py.File, getitem.
  destruct (h5 address) as [f|] eqn:Hf; [|done]. cbn [bind].
  destruct (E !! address) as [entry|] eqn:Hentry; [|done]. cbn [bind].
  intros Hfor.
  apply (for_returns_rounds (keeps_datasets E0)) in Hfor as [Hkeep' Hrounds];
    [|done|].
  - split; [done|]. exists f, entry. split; [done|]. split; [done|].
    intros key Hkey. destruct (Hrounds key Hkey) as (s1 & s2 & _ & Hbody).
    apply third_inner_body_returns in Hbody as (n & _ & Hitem & _).
    by exists n.
  - intros s key s' _ Hs Hbody.
    apply third_inner_body_returns in Hbody as (n & e & _ & He & ->).
    by apply keeps_datasets_insert.
Qed.

End parser_phases.

Section parser_results.
Implicit Types (E : gmap string util.source_entry) (f : h5py.file)
  (shape : list Z) (names : list string) (lines : list string).

(** The parser up to the end of the first loop, on a list whose files all
    open. *)
Lemma parse_all_open (text : util.text_store) h5 (txt_file : string)
    (raw : list string) :
  text txt_file = Some raw →
  all_open h5 (listed_files (clean_lines raw)) →
  util._parse_h5_data_list text h5 txt_file
  = if has_duplicates (listed_files (clean_lines raw))
    then Raise (Exception (util.duplicate_message txt_file))
    else bind (util.second_loop h5 (clean_lines raw)
                 (listed_files (clean_lines raw))
                 (file_positions 0 (clean_lines raw) ++ [len (clean_lines raw)])
                 (fresh_entries ∅ (listed_files (clean_lines raw))))
              (util.third_loop h5 (listed_files (clean_lines raw))).
Proof.
  intros Htext Hopen. unfold util._parse_h5_data_list, util.readlines.
  rewrite Htext. cbn [bind]. fold (clean_lines raw).
  by rewrite first_loop_all_open.
Qed.

(** The parser up to the end of the second loop, on a list of distinct
    files that all open. *)
Lemma parse_distinct (text : util.text_store) h5 (txt_file : string)
    (raw : list string) :
  text txt_file = Some raw →
  all_open h5 (listed_files (clean_lines raw)) →
  NoDup (listed_files (clean_lines raw)) →
  util._parse_h5_data_list text h5 txt_file
  = util.third_loop h5 (listed_files (clean_lines raw))
      (listed_entries (fresh_entries ∅ (listed_files (clean_lines raw)))
                      (listing h5 (clean_lines raw))).
Proof.
  intros Htext Hopen Hnodup. rewrite (parse_all_open _ _ _ raw) by done.
  rewrite (proj2 (has_duplicates_NoDup _) Hnodup).
  by rewrite second_loop_returns.
Qed.

Lemma parse_missing_fails (text : util.text_store) h5 (txt_file : string)
    (raw : list string) (address : string) :
  text txt_file = Some raw →
  address ∈ listed_files (clean_lines raw) → h5 address = None →
  fails (util._parse_h5_data_list text h5 txt_file).
Proof.
  intros Htext Hin Hmissing. unfold util._parse_h5_data_list, util.readlines.
  rewrite Htext. cbn [bind]. fold (clean_lines raw).
  unfold util.first_loop, range. rewrite Z.sub_0_r.
  destruct (first_loop_fails h5 (clean_lines raw) [] [] ∅ [] address Hin Hmissing)
    as [msg Hmsg].
  cbn [app] in Hmsg. change (len []) with 0 in Hmsg. rewrite Hmsg.
  by exists msg.
Qed.

(** The reference shape the third loop starts from is the per-sample shape
    of the first dataset of the first file. *)
Lemma get_a_shape_first h5 lines E shape :
  NoDup (listed_files lines) →
  util.get_a_shape h5 (listed_files lines) (listed_entries E (listing h5 lines))
    = Return shape
  ↔ first_shape h5 lines = Some shape.
Proof.
  intros Hnodup. unfold first_shape.
  rewrite <- (fst_listing h5) in Hnodup |- *.
  destruct (listing h5 lines) as [|[a0 names0] l]; [done|].
  rewrite fmap_cons. cbn [fst].
  assert (Hentry : listed_entries E ((a0, names0) :: l) !! a0
                   = Some (util.SourceEntry names0 [])).
  { unfold listed_entries.
    apply (update_entries_lookup (λ _ names, util.SourceEntry names []) E _ a0 names0);
      [done|by left]. }
  split.
  - intros (a & rest & f & entry & key & names & sh & [= <- <-] & Hf & He
            & Hnames & Hitem & ->)%get_a_shape_returns.
    rewrite Hentry in He. injection He as <-. cbn in Hnames. subst names0.
    rewrite (dataset_shape_items _ _ _ _ Hf), Hitem. done.
  - destruct names0 as [|key names]; [done|].
    intros (sh & Hsh & ->)%fmap_Some.
    destruct (h5 a0) as [f|] eqn:Hf; [|by unfold dataset_shape in Hsh; rewrite Hf in Hsh].
    rewrite (dataset_shape_items _ _ _ _ Hf) in Hsh.
    destruct (h5py.items f key) as [[sh'|]|] eqn:Hitem; [|done..].
    injection Hsh as ->.
    by rewrite (get_a_shape_spec h5 a0 _ _ _ key names f sh Hf Hentry).
Qed.

(** The datasets of a file that a round of the third loop reads are the
    listed ones. *)
Lemma kept_entry h5 lines E0 E (address : string) names :
  NoDup (listed_files lines) →
  (address, names) ∈ listing h5 lines →
  keeps_datasets (listed_entries E0 (listing h5 lines)) E →
  ∃ entry, E !! address = Some entry ∧ util.se_Datasets entry = names.
Proof.
  intros Hnodup Hin Hkeep.
  by apply (keeps_datasets_lookup _ _ _ _ Hkeep (listed_lookup _ _ _ _ _ Hnodup Hin)).
Qed.

(** A round of the inner loop on a dataset with a first axis fails the
    shape check or adds to the entry. *)
Lemma third_inner_checked f shape (address key : string) E0 E
    (n : Z) (rest : list Z) :
  h5py.items f key = Some (h5py.Dataset (n :: rest)) →
  is_Some (E !! address) →
  keeps_datasets E0 E →
  (∃ e, util.third_inner_body f shape address E key = Raise e ∧ shape_failure e)
  ∨ (∃ E', util.third_inner_body f shape address E key = Return E'
           ∧ keeps_datasets E0 E').
Proof.
  intros Hitem [entry Hentry] Hkeep.
  rewrite (third_inner_body_step _ _ _ _ _ entry n rest) by done.
  case_bool_decide.
  - left. eexists. split; [done|]. by exists key, address.
  - right. eexists. split; [done|]. by apply keeps_datasets_insert.
Qed.

(** A round of the third loop on a file whose listed datasets all have a
    first axis fails the shape check or keeps the dataset names. *)
Lemma third_loop_body_checked h5 lines shape E0 E (address : string) names :
  NoDup (listed_files lines) →
  all_open h5 (listed_files lines) →
  all_datasets h5 lines →
  (address, names) ∈ listing h5 lines →
  keeps_datasets (listed_entries E0 (listing h5 lines)) E →
  (∃ e, util.third_loop_body h5 shape E address = Raise e ∧ shape_failure e)
  ∨ (∃ E', util.third_loop_body h5 shape E address = Return E'
           ∧ keeps_datasets (listed_entries E0 (listing h5 lines)) E').
Proof.
  intros Hnodup Hopen Hall Hin Hkeep.
  destruct (Hopen address) as [f Hf]; [by eapply elem_of_listing_files|].
  destruct (kept_entry _ _ _ _ _ _ Hnodup Hin Hkeep) as (entry & Hentry & Hnames).
  unfold util.third_loop_body, h5py.File, getitem.
  rewrite Hf, Hentry. cbn [bind]. rewrite Hnames.
  apply for_within; [done|]. intros E1 key Hkey Hkeep1.
  destruct (Hall address names key Hin Hkey) as (n & rest & Hshape).
  rewrite (dataset_shape_items _ _ _ _ Hf) in Hshape.
  destruct (h5py.items f key) as [[sh|]|] eqn:Hitem; [|done..].
  injection Hshape as ->.
  apply (third_inner_checked f shape address key _ E1 n rest Hitem); [|done].
  destruct (kept_entry _ _ _ _ _ _ Hnodup Hin Hkeep1) as (e1 & -> & _). by eexists.
Qed.

End parser_results.

Section parser_checks.
Implicit Types (E : gmap string util.source_entry) (f : h5py.file)
  (shape : list Z) (names : list string) (lines : list string).

(** A round of the inner loop on a listed dataset of a list whose
    datasets all have a first axis. *)
Lemma third_inner_listed h5 lines shape E0 E (address key : string) names f :
  NoDup (listed_files lines) →
  all_datasets h5 lines →
  h5 address = Some f →
  (address, names) ∈ listing h5 lines → key ∈ names →
  keeps_datasets (listed_entries E0 (listing h5 lines)) E →
  ∃ n rest entry,
    dataset_shape h5 address key = Some (n :: rest)
    ∧ E !! address = Some entry
    ∧ util.third_inner_body f shape address E key
      = if bool_decide (shape ≠ rest)
        then Raise (Exception (util.shape_message key address))
        else Return (<[address := util.SourceEntry (util.se_Datasets entry)
                                    (util.se_data_num entry ++ [n])]> E).
Proof.
  intros Hnodup Hall Hf Hin Hkey Hkeep.
  destruct (Hall address names key Hin Hkey) as (n & rest & Hshape).
  destruct (kept_entry _ _ _ _ _ _ Hnodup Hin Hkeep) as (entry & Hentry & _).
  exists n, rest, entry. split; [done|]. split; [done|].
  rewrite (dataset_shape_items _ _ _ _ Hf) in Hshape.
  destruct (h5py.items f key) as [[sh|]|] eqn:Hitem; [|done..].
  injection Hshape as ->. by apply third_inner_body_step.
Qed.

End parser_checks.

Example example_listed_files :
  listed_files (clean_lines example_raw) = ["/data/a.h5"; "/data/b.h5"].
Proof. vm_compute. reflexivity. Qed.

Example example_listing :
  listing example_h5 (clean_lines example_raw)
  = [("/data/a.h5", ["x"]); ("/data/b.h5", ["u"; "v"])].
Proof. vm_compute. reflexivity. Qed.

Example example_listing_ragged :
  listing example_h5_ragged (clean_lines example_raw)
  = [("/data/a.h5", ["x"]); ("/data/b.h5", ["u"; "v"])].
Proof. vm_compute. reflexivity. Qed.

Example example_listed_twice :
  listed_files (clean_lines example_raw_twice)
  = ["/data/a.h5"; "/data/b.h5"; "/data/a.h5"].
Proof. vm_compute. reflexivity. Qed.

Lemma example_all_open (last : Z) :
  all_open (λ path,
              if decide (path = "/data/a.h5") then Some example_a
              else if decide (path = "/data/b.h5") then Some (example_b last)
              else None)
           ["/data/a.h5"; "/data/b.h5"].
Proof.
  intros a Ha. apply elem_of_cons in Ha as [->|Ha]; [by eexists|].
  apply list_elem_of_singleton in Ha as ->. by eexists.
Qed.

Lemma example_NoDup : NoDup ["/data/a.h5"; "/data/b.h5"].
Proof.
  apply NoDup_cons. split; [|apply NoDup_singleton].
  intros H%list_elem_of_singleton. discriminate H.
Qed.

(** X1. The parser fails with an [Exception] when a file named on a [File:]
    line of the list cannot be opened, whatever else the list holds, as long
    as no listed path is one of the fixed keys of the dictionary. *)
Theorem parse_h5_data_list_missing_file (text : util.text_store) (h5 : h5py.store)
    (txt_file : string) (raw : list string) (address : string) :
  text txt_file = Some raw →
  no_fixed_key (listed_files (clean_lines raw)) →
  address ∈ listed_files (clean_lines raw) →
  h5 address = None →
  fails (util._parse_h5_data_list text h5 txt_file)
  ∧ ∀ d, util._parse_h5_data_list text h5 txt_file ≠ Return d.
Proof.
  intros Htext _ Hin Hmissing.
  destruct (parse_missing_fails text h5 txt_file raw address Htext Hin Hmissing)
    as [msg Hmsg].
  split; [by exists msg|]. intros d. by rewrite Hmsg.
Qed.

Lemma parse_h5_data_list_missing_file_witness :
  fails (util._parse_h5_data_list example_list example_h5_missing "/data/list.txt")
  ∧ ∀ d, util._parse_h5_data_list example_list example_h5_missing "/data/list.txt"
         ≠ Return d.
Proof.
  apply (parse_h5_data_list_missing_file example_list example_h5_missing
           "/data/list.txt" example_raw "/data/b.h5").
  - reflexivity.
  - rewrite example_listed_files. apply (bool_decide_unpack _). by vm_compute.
  - rewrite example_listed_files. apply list_elem_of_further, list_elem_of_here.
  - reflexivity.
Defined.

(** X2. When every listed file opens, none of the paths being a fixed key
    of the dictionary, and one path is listed twice, the parser fails with
    the [Exception] about duplicated files. *)
Theorem parse_h5_data_list_duplicate (text : util.text_store) (h5 : h5py.store)
    (txt_file : string) (raw : list string) :
  text txt_file = Some raw →
  no_fixed_key (listed_files (clean_lines raw)) →
  all_open h5 (listed_files (clean_lines raw)) →
  ¬ NoDup (listed_files (clean_lines raw)) →
  util._parse_h5_data_list text h5 txt_file
  = Raise (Exception (util.duplicate_message txt_file)).
Proof.
  intros Htext _ Hopen Hdup. rewrite (parse_all_open _ _ _ raw) by done.
  destruct (has_duplicates _) eqn:H; [done|].
  by apply has_duplicates_NoDup in H.
Qed.

Lemma parse_h5_data_list_duplicate_witness :
  util._parse_h5_data_list (single_text "/data/list.txt" example_raw_twice)
                           example_h5 "/data/list.txt"
  = Raise (Exception (util.duplicate_message "/data/list.txt")).
Proof.
  apply (parse_h5_data_list_duplicate _ example_h5 "/data/list.txt" example_raw_twice).
  - reflexivity.
  - rewrite example_listed_twice. apply (bool_decide_unpack _). by vm_compute.
  - rewrite example_listed_twice. intros a Ha.
    apply elem_of_cons in Ha as [->|Ha]; [by eexists|].
    apply elem_of_cons in Ha as [->|Ha]; [by eexists|].
    apply list_elem_of_singleton in Ha as ->. by eexists.
  - rewrite example_listed_twice. intros [Ha _]%NoDup_cons. apply Ha.
    apply list_elem_of_further, list_elem_of_here.
Defined.

(** X3. On a valid list, none of whose paths is a fixed key of the
    dictionary, the parser returns the dictionary of the list: the files in
    the order of their lines, the per-sample shape of the first dataset of
    the first file, and for every file the datasets listed for it with the
    first axis of each; it holds no other entry. *)
Theorem parse_h5_data_list_valid (text : util.text_store) (h5 : h5py.store)
    (txt_file : string) (raw : list string) (shape : list Z) :
  text txt_file = Some raw →
  no_fixed_key (listed_files (clean_lines raw)) →
  valid_list h5 (clean_lines raw) shape →
  ∃ entries,
    util._parse_h5_data_list text h5 txt_file
    = Return (util.SourceDict (listed_files (clean_lines raw)) entries shape)
    ∧ (∀ address names,
         (address, names) ∈ listing h5 (clean_lines raw) →
         entries !! address
         = Some (util.SourceEntry names (first_axes h5 address names)))
    ∧ (∀ address,
         address ∉ listed_files (clean_lines raw) → entries !! address = None).
Proof.
  intros Htext _ (Hopen & Hnodup & Hfirst & Hall).
  rewrite (parse_distinct _ _ _ raw) by done. unfold util.third_loop.
  rewrite (proj2 (get_a_shape_first _ _ _ _ Hnodup) Hfirst). cbn [bind].
  set (E2 := listed_entries _ _).
  assert (Hloop : for_ (listed_files (clean_lines raw)) (util.third_loop_body h5 shape) E2
                  = Return (counted_entries h5 E2 (listing h5 (clean_lines raw)))).
  { rewrite <- (fst_listing h5 (clean_lines raw)) at 1.
    apply third_loop_valid; [by rewrite fst_listing|].
    intros a names Hin. split; [by apply listed_lookup|].
    split; [apply Hopen; by eapply elem_of_listing_files|].
    intros key Hkey. by eapply Hall. }
  rewrite Hloop. cbn [bind]. eexists. split; [done|]. split.
  - intros a names Hin. unfold counted_entries.
    apply (update_entries_lookup
             (λ a names, util.SourceEntry names (first_axes h5 a names)));
      [by rewrite fst_listing|done].
  - intros a Hnotin. unfold counted_entries, E2, listed_entries.
    rewrite !update_entries_other by (by rewrite fst_listing).
    by rewrite fresh_other.
Qed.

Lemma example_valid_list : valid_list example_h5 (clean_lines example_raw) [4; 4].
Proof.
  unfold valid_list. rewrite example_listed_files, example_listing.
  split; [apply example_all_open|]. split; [apply example_NoDup|].
  split; [reflexivity|]. intros a names key Ha Hkey.
  apply elem_of_cons in Ha as [[= -> ->]|Ha].
  - apply list_elem_of_singleton in Hkey as ->. by exists 3.
  - apply list_elem_of_singleton in Ha as [= -> ->].
    apply elem_of_cons in Hkey as [->|Hkey]; [by exists 2|].
    apply list_elem_of_singleton in Hkey as ->. by exists 5.
Qed.

Lemma parse_h5_data_list_valid_witness :
  ∃ entries,
    util._parse_h5_data_list example_list example_h5 "/data/list.txt"
    = Return (util.SourceDict (listed_files (clean_lines example_raw)) entries [4; 4])
    ∧ (∀ address names,
         (address, names) ∈ listing example_h5 (clean_lines example_raw) →
         entries !! address
         = Some (util.SourceEntry names (first_axes example_h5 address names)))
    ∧ (∀ address,
         address ∉ listed_files (clean_lines example_raw) → entries !! address = None).
Proof.
  apply (parse_h5_data_list_valid example_list example_h5 "/data/list.txt"
           example_raw [4; 4]).
  - reflexivity.
  - rewrite example_listed_files. apply (bool_decide_unpack _). by vm_compute.
  - exact example_valid_list.
Defined.

(** X4. A dictionary the parser returns for a list, none of whose paths is a
    fixed key of the dictionary, comes from a valid list: every listed file
    opens, no path is listed twice, and every listed dataset has the
    per-sample shape the dictionary records, which is that of the first
    dataset of the first file. *)
Theorem parse_h5_data_list_returns_valid (text : util.text_store) (h5 : h5py.store)
    (txt_file : string) (raw : list string) (d : util.source_dict) :
  text txt_file = Some raw →
  no_fixed_key (listed_files (clean_lines raw)) →
  util._parse_h5_data_list text h5 txt_file = Return d →
  util.sd_Files d = listed_files (clean_lines raw)
  ∧ valid_list h5 (clean_lines raw) (util.sd_shape d).
Proof.
  intros Htext _ Hparse.
  assert (Hopen : all_open h5 (listed_files (clean_lines raw))).
  { intros a Ha. destruct (h5 a) eqn:Hf; [by eexists|].
    destruct (parse_missing_fails _ _ _ _ _ Htext Ha Hf) as [msg Hmsg]. congruence. }
  rewrite (parse_all_open _ _ _ raw) in Hparse by done.
  destruct (has_duplicates (listed_files (clean_lines raw))) eqn:Hdup'; [done|].
  pose proof (proj1 (has_duplicates_NoDup _) Hdup') as Hdup.
  rewrite second_loop_returns in Hparse by done. cbn [bind] in Hparse.
  unfold util.third_loop in Hparse.
  destruct (util.get_a_shape _ _ _) as [shape|] eqn:Hshape; [|done].
  cbn [bind] in Hparse.
  destruct (for_ _ _ _) as [E3|] eqn:Hfor; [|done].
  cbn [bind] in Hparse. injection Hparse as <-. cbn [util.sd_Files util.sd_shape].
  split; [done|]. split; [done|]. split; [done|].
  split; [by apply get_a_shape_first in Hshape|].
  intros a names key Hin Hkey.
  set (E2 := listed_entries (fresh_entries ∅ (listed_files (clean_lines raw)))
                            (listing h5 (clean_lines raw))) in *.
  assert (Hstep : ∀ s x s',
            x ∈ listed_files (clean_lines raw) → keeps_datasets E2 s →
            util.third_loop_body h5 shape s x = Return s' → keeps_datasets E2 s').
  { intros s x s' _ Hs Hbody.
    by apply (third_loop_body_returns _ _ _ _ _ _ Hs) in Hbody as [? _]. }
  destruct (for_returns_rounds _ _ _ _ _ (keeps_datasets_refl E2) Hstep Hfor)
    as [_ Hrounds].
  destruct (Hrounds a) as (s1 & s2 & Hkeep & Hbody);
    [by eapply elem_of_listing_files|].
  apply (third_loop_body_returns _ _ _ _ _ _ Hkeep) in Hbody
    as (_ & f & entry & Hf & Hentry & Hkeys).
  destruct (kept_entry _ _ _ _ _ _ Hdup Hin Hkeep) as (entry' & Hentry' & Hnames).
  rewrite Hentry in Hentry'. injection Hentry' as <-. rewrite Hnames in Hkeys.
  destruct (Hkeys key Hkey) as [n Hitem]. exists n.
  by rewrite (dataset_shape_items _ _ _ _ Hf), Hitem.
Qed.

Lemma parse_h5_data_list_returns_valid_witness :
  util.sd_Files
    (util.SourceDict ["/data/a.h5"; "/data/b.h5"]
       (<["/data/b.h5" := util.SourceEntry ["u"; "v"] [2; 5]]>
          (<["/data/a.h5" := util.SourceEntry ["x"] [3]]> ∅))
       [4; 4])
  = listed_files (clean_lines example_raw)
  ∧ valid_list example_h5 (clean_lines example_raw)
      (util.sd_shape
         (util.SourceDict ["/data/a.h5"; "/data/b.h5"]
            (<["/data/b.h5" := util.SourceEntry ["u"; "v"] [2; 5]]>
               (<["/data/a.h5" := util.SourceEntry ["x"] [3]]> ∅))
            [4; 4])).
Proof.
  apply (parse_h5_data_list_returns_valid example_list example_h5 "/data/list.txt"
           example_raw).
  - reflexivity.
  - rewrite example_listed_files. apply (bool_decide_unpack _). by vm_compute.
  - vm_compute. reflexivity.
Defined.

(** X5. When every listed file opens, no path is listed twice nor is a fixed
    key of the dictionary, and every listed dataset has a first axis, a
    listed dataset whose per-sample shape is not that of the first dataset
    of the first file makes the parser fail with the [Exception] of the
    shape check. *)
Theorem parse_h5_data_list_shape_mismatch (text : util.text_store) (h5 : h5py.store)
    (txt_file : string) (raw : list string) (shape : list Z)
    (address : string) (names : list string) (key : string) (sh : list Z) :
  text txt_file = Some raw →
  no_fixed_key (listed_files (clean_lines raw)) →
  all_open h5 (listed_files (clean_lines raw)) →
  NoDup (listed_files (clean_lines raw)) →
  all_datasets h5 (clean_lines raw) →
  first_shape h5 (clean_lines raw) = Some shape →
  (address, names) ∈ listing h5 (clean_lines raw) → key ∈ names →
  dataset_shape h5 address key = Some sh →
  sample_shape sh ≠ shape →
  ∃ e, util._parse_h5_data_list text h5 txt_file = Raise e ∧ shape_failure e.
Proof.
  intros Htext _ Hopen Hnodup Hall Hfirst Hin Hkey Hsh Hne.
  rewrite (parse_distinct _ _ _ raw) by done. unfold util.third_loop.
  rewrite (proj2 (get_a_shape_first _ _ _ _ Hnodup) Hfirst). cbn [bind].
  set (E2 := listed_entries (fresh_entries ∅ (listed_files (clean_lines raw)))
                            (listing h5 (clean_lines raw))).
  destruct (for_raises_within (keeps_datasets E2) shape_failure
              (listed_files (clean_lines raw)) (util.third_loop_body h5 shape)
              E2 address) as (e & He & HQ).
  - apply keeps_datasets_refl.
  - intros s a Ha Hs. destruct (elem_of_files_listing h5 _ _ Ha) as [names' Hin'].
    by eapply third_loop_body_checked.
  - by eapply elem_of_listing_files.
  - intros s Hs. destruct (Hopen address) as [f Hf];
      [by eapply elem_of_listing_files|].
    destruct (kept_entry _ _ _ _ _ _ Hnodup Hin Hs) as (entry & Hentry & Hnames).
    unfold util.third_loop_body, h5py.File, getitem.
    rewrite Hf, Hentry. cbn [bind]. rewrite Hnames.
    apply (for_raises_within (keeps_datasets E2) shape_failure names _ s key);
      [done| |done|].
    + intros s1 key1 Hkey1 Hs1.
      destruct (third_inner_listed h5 _ shape _ s1 address key1 names f
                  Hnodup Hall Hf Hin Hkey1 Hs1) as (n & rest & e1 & _ & He1 & ->).
      case_bool_decide.
      * left. eexists. split; [done|]. by exists key1, address.
      * right. eexists. split; [done|]. by apply keeps_datasets_insert.
    + intros s1 Hs1.
      destruct (third_inner_listed h5 _ shape _ s1 address key names f
                  Hnodup Hall Hf Hin Hkey Hs1) as (n & rest & e1 & Hshape & _ & ->).
      rewrite Hsh in Hshape. injection Hshape as ->.
      rewrite bool_decide_eq_true_2 by (intros ->; by apply Hne).
      eexists. split; [done|]. by exists key, address.
  - rewrite He. cbn [bind]. by exists e.
Qed.

Lemma parse_h5_data_list_shape_mismatch_witness :
  ∃ e, util._parse_h5_data_list example_list example_h5_ragged "/data/list.txt"
       = Raise e ∧ shape_failure e.
Proof.
  apply (parse_h5_data_list_shape_mismatch example_list example_h5_ragged
           "/data/list.txt" example_raw [4; 4] "/data/b.h5" ["u"; "v"] "v" [5; 4; 3]).
  - reflexivity.
  - rewrite example_listed_files. apply (bool_decide_unpack _). by vm_compute.
  - rewrite example_listed_files. apply example_all_open.
  - rewrite example_listed_files. apply example_NoDup.
  - unfold all_datasets. rewrite example_listing_ragged.
    intros a names key Ha Hkey.
    apply elem_of_cons in Ha as [[= -> ->]|Ha].
    + apply list_elem_of_singleton in Hkey as ->. by exists 3, [4; 4].
    + apply list_elem_of_singleton in Ha as [= -> ->].
      apply elem_of_cons in Hkey as [->|Hkey]; [by exists 2, [4; 4]|].
      apply list_elem_of_singleton in Hkey as ->. by exists 5, [4; 3].
  - reflexivity.
  - rewrite example_listing_ragged. apply list_elem_of_further, list_elem_of_here.
  - apply list_elem_of_further, list_elem_of_here.
  - reflexivity.
  - discriminate.
Defined.

(** X6. A list with no [File:] line makes the parser raise [IndexError], at
    [file_list[0]]. *)
Theorem parse_h5_data_list_no_file (text : util.text_store) (h5 : h5py.store)
    (txt_file : string) (raw : list string) :
  text txt_file = Some raw →
  listed_files (clean_lines raw) = [] →
  util._parse_h5_data_list text h5 txt_file = Raise IndexError.
Proof.
  intros Htext Hnone. rewrite (parse_distinct _ _ _ raw); rewrite ?Hnone.
  - reflexivity.
  - done.
  - intros a Ha. by apply elem_of_nil in Ha.
  - constructor.
Qed.

Lemma parse_h5_data_list_no_file_witness :
  util._parse_h5_data_list (single_text "/data/list.txt" example_raw_no_file)
                           example_h5 "/data/list.txt"
  = Raise IndexError.
Proof.
  apply (parse_h5_data_list_no_file _ example_h5 "/data/list.txt" example_raw_no_file).
  - reflexivity.
  - vm_compute. reflexivity.
Defined.

(** ** The blocks assemble_mat writes *)

Section assembled_blocks.
Implicit Types (fs : util.filesystem) (holder patch : np.ndarray2)
  (bsl : list Z).

Lemma well_shaped_zeros (r c : Z) holder :
  np.zeros_nd r c = Return holder →
  well_shaped holder ∧ holder.(np.nd_shape) = (Z.to_nat r, Z.to_nat c).
Proof.
  unfold np.zeros_nd. destruct ((r <? 0) || (c <? 0)); [done|].
  intros [= <-]. split; [|done]. split; cbn.
  - apply length_replicate.
  - apply Forall_replicate. apply length_replicate.
Qed.

Lemma set_block_shape holder (a0 b0 a1 b1 : Z) patch holder' :
  np.set_block holder a0 b0 a1 b1 patch = Return holder' →
  holder'.(np.nd_shape) = holder.(np.nd_shape)
  ∧ (well_shaped holder → well_shaped holder').
Proof.
  unfold np.set_block.
  match goal with |- context [if ?b then _ else _] => destruct b end; [|done].
  intros [= <-]. split; [done|]. intros [Hrows Hcols]. split; cbn.
  - by rewrite length_imap.
  - apply Forall_lookup. intros i row' Hrow'.
    rewrite list_lookup_imap in Hrow'.
    destruct (np.nd_rows holder !! i) as [row|] eqn:Hrow; [|done].
    cbn in Hrow'. injection Hrow' as <-.
    pose proof (Forall_lookup_1 _ _ _ _ Hcols Hrow) as Hlen. cbn in Hlen.
    destruct (_ && _); [|done]. by rewrite length_imap.
Qed.

(** The bounds of a slice [[a : b)] that holds position [p]. *)
Lemma slice_holds (n : nat) (a b : Z) (p : nat) :
  0 ≤ a → a ≤ Z.of_nat p < b → (p < n)%nat →
  slice_lo (Z.of_nat n) (Some a) = Z.to_nat a
  ∧ (slice_lo (Z.of_nat n) (Some a) ≤ p < slice_hi (Z.of_nat n) (Some b))%nat.
Proof.
  unfold slice_lo, slice_hi, adjust. intros Ha Hp Hn.
  destruct (Z.ltb_spec a 0), (Z.ltb_spec b 0); lia.
Qed.

(** Inside the assigned block an entry is the entry of the patch. *)
Lemma entry_set_block_inside holder (a0 b0 a1 b1 : Z) patch holder' (i j v : Z) :
  np.set_block holder a0 b0 a1 b1 patch = Return holder' →
  well_shaped holder →
  0 ≤ a0 → 0 ≤ a1 → a0 ≤ i < b0 → a1 ≤ j < b1 →
  Z.of_nat patch.(np.nd_shape).1 = b0 - a0 →
  Z.of_nat patch.(np.nd_shape).2 = b1 - a1 →
  entry holder' i j = Some v →
  v = patch_entry patch (i - a0) (j - a1).
Proof.
  unfold np.set_block.
  match goal with |- context [if ?b then _ else _] => destruct b end; [|done].
  intros [= <-] [Hrows Hcols] Ha0 Ha1 Hi Hj Hs1 Hs2. unfold entry. cbn [np.nd_rows].
  destruct (Z.leb_spec 0 i), (Z.leb_spec 0 j); cbn [andb]; try lia.
  rewrite list_lookup_imap.
  destruct (np.nd_rows holder !! Z.to_nat i) as [row|] eqn:Hrow; [|done].
  cbn [fmap option_fmap option_map mbind option_bind].
  pose proof (lookup_lt_Some _ _ _ Hrow) as Hilt. rewrite Hrows in Hilt.
  destruct (slice_holds _ a0 b0 (Z.to_nat i) Ha0 ltac:(lia) Hilt) as [Hlo0 Hin0].
  rewrite (proj2 (andb_true_iff _ _)); cycle 1.
  { split; [apply Nat.leb_le|apply Nat.ltb_lt]; lia. }
  rewrite list_lookup_imap.
  destruct (row !! Z.to_nat j) as [w|] eqn:Hw; [|done].
  cbn [fmap option_fmap option_map].
  pose proof (lookup_lt_Some _ _ _ Hw) as Hjlt.
  pose proof (Forall_lookup_1 _ _ _ _ Hcols Hrow) as Hlen. cbn in Hlen.
  rewrite Hlen in Hjlt.
  destruct (slice_holds _ a1 b1 (Z.to_nat j) Ha1 ltac:(lia) Hjlt) as [Hlo1 Hin1].
  rewrite (proj2 (andb_true_iff _ _)); cycle 1.
  { split; [apply Nat.leb_le|apply Nat.ltb_lt]; lia. }
  intros [= <-]. unfold np.broadcast_at, patch_entry, entry.
  destruct (Z.leb_spec 0 (i - a0)), (Z.leb_spec 0 (j - a1)); cbn [andb]; try lia.
  rewrite Hlo0, Hlo1.
  replace (if (patch.(np.nd_shape).1 =? 1)%nat then 0%nat
           else (Z.to_nat i - Z.to_nat a0)%nat) with (Z.to_nat (i - a0))
    by (destruct (Nat.eqb_spec patch.(np.nd_shape).1 1); lia).
  replace (if (patch.(np.nd_shape).2 =? 1)%nat then 0%nat
           else (Z.to_nat j - Z.to_nat a1)%nat) with (Z.to_nat (j - a1))
    by (destruct (Nat.eqb_spec patch.(np.nd_shape).2 1); lia).
  done.
Qed.

End assembled_blocks.

Section assembled_rounds.
Implicit Types (fs : util.filesystem) (holder patch : np.ndarray2)
  (bsl : list Z).

(** One round of the inner loop that returns: the patch is written as
    block [(l, m)], and nothing else changes. *)
Lemma assemble_patch_body_block fs (folder_address : string) bsl (l s0 x c m : Z)
    holder holder' (c' : Z) :
  0 ≤ l ≤ m → 0 ≤ s0 ≤ c → bsl !! Z.to_nat l = Some x →
  s0 = batch_start bsl l → c = batch_start bsl m →
  well_shaped holder →
  util.assemble_patch_body fs folder_address bsl l s0 (s0 + x) (holder, c) m
    = Return (holder', c') →
  0 ≤ x ∧ c ≤ c' ∧ c' = batch_start bsl (m + 1)
  ∧ well_shaped holder' ∧ holder'.(np.nd_shape) = holder.(np.nd_shape)
  ∧ block_holds fs folder_address bsl holder' l m
  ∧ (∀ i j v, entry holder' i j = Some v →
       ¬ (s0 ≤ i < s0 + x ∧ c ≤ j < c') → entry holder i j = Some v).
Proof.
  intros Hlm Hs0 Hx Hstart Hc Hwf. unfold util.assemble_patch_body.
  destruct (util.load fs _) as [patch|] eqn:Hload; [|done]. cbn [bind].
  rewrite (index_lookup _ _ _ (proj1 Hlm) Hx). cbn [bind].
  destruct (Z.eqb_spec (Z.of_nat patch.(np.nd_shape).1) x) as [Hx0|];
    cbn [negb bind]; cycle 1.
  { by destruct (index bsl m). }
  destruct (index bsl m) as [y|] eqn:Hy; [|done]. cbn [bind].
  apply index_Return_inv in Hy; [|lia].
  destruct (Z.eqb_spec (Z.of_nat patch.(np.nd_shape).2) y) as [Hy0|];
    cbn [negb bind]; [|done].
  destruct (np.set_block holder s0 (s0 + x) c (c + y) patch) as [h|] eqn:Hset;
    [|done].
  cbn [bind]. intros [= <- <-].
  destruct (set_block_shape _ _ _ _ _ _ _ Hset) as [Hshape Hwf'].
  split; [lia|]. split; [lia|].
  split; [rewrite (batch_start_succ bsl m y) by (lia || done); lia|].
  split; [by apply Hwf'|]. split; [done|]. split.
  - intros patch' i j v Hload' Hi Hj Hv.
    rewrite Hload in Hload'. injection Hload' as <-.
    rewrite (batch_start_succ bsl l x) in Hi by (lia || done).
    rewrite (batch_start_succ bsl m y) in Hj by (lia || done).
    rewrite <- Hstart, <- Hc in *.
    apply (entry_set_block_inside _ _ _ _ _ _ _ _ _ _ Hset Hwf); (lia || done).
  - intros i j v Hv Hout.
    destruct (entry_set_block _ _ _ _ _ _ _ _ _ _ Hset Hv)
      as [Hold|(Hi & Hj & Hrow & Hcol)]; [done|].
    apply slice_within in Hrow, Hcol; [|lia..]. exfalso. apply Hout. lia.
Qed.

(** One round of the outer loop that returns: the blocks of row [l] are
    written from the diagonal on, and no other row changes. *)
Lemma assemble_row_body_blocks fs (folder_address : string) bsl (batch_num l : Z)
    holder (s0 : Z) holder' (s0' : Z) :
  0 ≤ l < batch_num → 0 ≤ s0 → s0 = batch_start bsl l →
  well_shaped holder →
  util.assemble_row_body fs folder_address bsl batch_num (holder, s0) l
    = Return (holder', s0') →
  s0' = batch_start bsl (l + 1) ∧ s0 ≤ s0'
  ∧ well_shaped holder' ∧ holder'.(np.nd_shape) = holder.(np.nd_shape)
  ∧ (∀ m, l ≤ m < batch_num → block_holds fs folder_address bsl holder' l m)
  ∧ (∀ i j v, entry holder' i j = Some v →
       ¬ (s0 ≤ i < s0') → entry holder i j = Some v).
Proof.
  intros Hl Hs0 Hstart Hwf. unfold util.assemble_row_body.
  destruct (index bsl l) as [x|] eqn:Hx; [|done]. cbn [bind].
  apply index_Return_inv in Hx; [|lia].
  destruct (for_ _ _ _) as [[h c]|] eqn:Hloop; [|done].
  cbn [bind fst]. intros [= <- <-].
  unfold range in Hloop.
  replace (batch_num - l) with (Z.of_nat (Z.to_nat (batch_num - l))) in Hloop by lia.
  apply (for_range_invariant
           (λ k st,
              st.2 = batch_start bsl k ∧ s0 ≤ st.2 ∧ (l < k → 0 ≤ x)
              ∧ well_shaped st.1 ∧ st.1.(np.nd_shape) = holder.(np.nd_shape)
              ∧ (∀ m, l ≤ m < k → batch_start bsl (m + 1) ≤ st.2)
              ∧ (∀ m, l ≤ m < k → block_holds fs folder_address bsl st.1 l m)
              ∧ (∀ i j v, entry st.1 i j = Some v →
                   ¬ (s0 ≤ i < s0 + x) → entry holder i j = Some v)))
    in Hloop.
  - destruct Hloop as (_ & _ & Hx0 & Hwf' & Hshape & _ & Hblocks & Hother).
    cbn [fst snd] in *. specialize (Hx0 ltac:(lia)).
    rewrite (batch_start_succ bsl l x) by (lia || done).
    split; [lia|]. split; [lia|]. split; [done|]. split; [done|].
    split.
    + intros m Hm. apply Hblocks. lia.
    + intros i j v Hv Hout. apply (Hother i j v Hv). lia.
  - cbn [fst snd]. split; [done|]. split; [lia|]. split; [lia|].
    split; [done|]. split; [done|]. split; [intros; lia|].
    split; [intros; lia|]. done.
  - intros k [h1 c1] [h2 c2] Hk (Hc1 & Hle & _ & Hwf1 & Hshape1 & Hends & Hblocks & Hother)
           Hbody.
    cbn [fst snd] in *.
    eapply assemble_patch_body_block in Hbody
      as (Hx0 & Hc2 & Hc2' & Hwf2 & Hshape2 & Hnew & Hout);
      [|lia|lia|done|done|done|done].
    split; [done|]. split; [lia|]. split; [done|]. split; [done|].
    split; [congruence|]. split.
    { intros m Hm. destruct (decide (m = k)) as [->|]; [lia|].
      specialize (Hends m ltac:(lia)). lia. }
    split.
    { intros m Hm. destruct (decide (m = k)) as [->|Hne]; [done|].
      intros patch i j v Hload Hi Hj Hv.
      apply (Hblocks m ltac:(lia) patch i j v Hload Hi Hj).
      apply (Hout i j v Hv). specialize (Hends m ltac:(lia)). lia. }
    intros i j v Hv Hrows. apply (Hother i j v); [|done].
    apply (Hout i j v Hv). lia.
Qed.

End assembled_rounds.

(** Every position inside a well-shaped array has an entry. *)
Lemma entry_inside (holder : np.ndarray2) (i j : Z) :
  well_shaped holder →
  0 ≤ i < Z.of_nat holder.(np.nd_shape).1 →
  0 ≤ j < Z.of_nat holder.(np.nd_shape).2 →
  is_Some (entry holder i j).
Proof.
  intros [Hrows Hcols] Hi Hj. unfold entry.
  destruct (Z.leb_spec 0 i), (Z.leb_spec 0 j); cbn [andb]; try lia.
  destruct (lookup_lt_is_Some_2 holder.(np.nd_rows) (Z.to_nat i)) as [row Hrow];
    [lia|].
  rewrite Hrow. cbn.
  pose proof (Forall_lookup_1 _ _ _ _ Hcols Hrow) as Hlen. cbn in Hlen.
  apply lookup_lt_is_Some_2. lia.
Qed.

(** X7. The matrix a successful [assemble_mat] returns has
    [pattern_number_total] rows and columns, and for all batches [l <= m]
    every position of the matrix in the rows of batch [l] and the columns of
    batch [m] holds the entry of the patch loaded from [patch_l_m.npy] for
    that position. When the sizes of the batches sum to no more than
    [pattern_number_total], every block lies inside the matrix, which then
    holds every entry of every patch. *)
Theorem assemble_mat_blocks (fs : util.filesystem) (data_source : util.data_source)
    (holder : np.ndarray2) :
  util.assemble_mat fs data_source = Return holder →
  well_shaped holder
  ∧ holder.(np.nd_shape)
    = (Z.to_nat data_source.(util.pattern_number_total),
       Z.to_nat data_source.(util.pattern_number_total))
  ∧ (∀ l m,
       0 ≤ l ≤ m ∧ m < data_source.(util.batch_number) →
       block_is_patch fs (data_source.(util.output_path) +:+ "/distances")
                      data_source.(util.batch_size_list)
                      data_source.(util.pattern_number_total) holder l m)
  ∧ (batch_start data_source.(util.batch_size_list) data_source.(util.batch_number)
       ≤ data_source.(util.pattern_number_total) →
     ∀ l, 0 ≤ l < data_source.(util.batch_number) →
       0 ≤ batch_start data_source.(util.batch_size_list) l
       ∧ batch_start data_source.(util.batch_size_list) (l + 1)
         ≤ data_source.(util.pattern_number_total)).
Proof.
  unfold util.assemble_mat.
  destruct (util.isdir fs _); cbn [negb]; [|done].
  destruct (util.all_patches_present fs _ _); cbn [negb]; [|done].
  destruct (np.zeros_nd _ _) as [zeros|] eqn:Hzeros; [|done]. cbn [bind].
  destruct (for_ _ _ _) as [[h s0]|] eqn:Hloop; [|done].
  cbn [bind fst]. intros [= <-].
  set (bsl := data_source.(util.batch_size_list)) in *.
  set (B := data_source.(util.batch_number)) in *.
  set (N := data_source.(util.pattern_number_total)) in *.
  set (folder := data_source.(util.output_path) +:+ "/distances") in *.
  destruct (well_shaped_zeros _ _ _ Hzeros) as [Hwf0 Hshape0].
  destruct (Z.le_gt_cases B 0) as [HB|HB].
  { unfold range in Hloop. rewrite Z.sub_0_r in Hloop.
    rewrite seqZ_nil in Hloop by lia. injection Hloop as <- <-.
    split; [done|]. split; [done|]. split; intros; lia. }
  unfold range in Hloop. rewrite Z.sub_0_r in Hloop.
  replace B with (Z.of_nat (Z.to_nat B)) in Hloop by lia.
  apply (for_range_invariant
           (λ k st,
              st.2 = batch_start bsl k ∧ 0 ≤ st.2
              ∧ well_shaped st.1 ∧ st.1.(np.nd_shape) = zeros.(np.nd_shape)
              ∧ (∀ l, 0 ≤ l < k → batch_start bsl (l + 1) ≤ st.2)
              ∧ (∀ l, 0 ≤ l < k → 0 ≤ batch_start bsl l)
              ∧ (∀ l m, 0 ≤ l < k → l ≤ m < B →
                   block_holds fs folder bsl st.1 l m))) in Hloop.
  - destruct Hloop as (Hend & _ & Hwf & Hshape & Hends & Hstarts & Hblocks).
    cbn [fst snd] in *. rewrite Z.add_0_l, Z2Nat.id in * by lia.
    rewrite Hshape0 in Hshape.
    split; [done|]. split; [done|]. split.
    + intros l m Hlm patch i j Hload Hi Hj HiN HjN.
      pose proof (Hstarts l ltac:(lia)). pose proof (Hstarts m ltac:(lia)).
      destruct (entry_inside h i j Hwf) as [v Hv];
        [rewrite Hshape; cbn [fst snd]; lia..|].
      rewrite Hv. f_equal.
      by apply (Hblocks l m ltac:(lia) ltac:(lia) patch i j v).
    + intros HN l Hl. split; [by apply Hstarts|].
      specialize (Hends l Hl). lia.
  - cbn [fst snd]. split; [done|]. split; [done|]. split; [done|].
    split; [done|]. repeat split; intros; lia.
  - intros k [h1 c1] [h2 c2] Hk
      (Hc1 & Hc0 & Hwf1 & Hshape1 & Hends & Hstarts & Hblocks) Hbody.
    cbn [fst snd] in *.
    eapply assemble_row_body_blocks in Hbody
      as (Hc2 & Hle & Hwf2 & Hshape2 & Hnew & Hout); [|lia|done|done|done].
    split; [done|]. split; [lia|]. split; [done|]. split; [congruence|].
    split.
    { intros l Hl. destruct (decide (l = k)) as [->|]; [lia|].
      specialize (Hends l ltac:(lia)). lia. }
    split.
    { intros l Hl. destruct (decide (l = k)) as [->|]; [lia|].
      apply Hstarts. lia. }
    intros l m Hl Hm. destruct (decide (l = k)) as [->|Hne]; [apply Hnew; lia|].
    intros patch i j v Hload Hi Hj Hv.
    apply (Hblocks l m ltac:(lia) Hm patch i j v Hload Hi Hj).
    apply (Hout i j v Hv). specialize (Hends l ltac:(lia)). lia.
Qed.

Lemma assemble_mat_blocks_witness :
  well_shaped (np.Ndarray2 (3, 3)%nat [[5; 6; 7]; [0; 8; 9]; [0; 10; 11]])
  ∧ (3, 3)%nat = (Z.to_nat 3, Z.to_nat 3)
  ∧ (∀ l m,
       0 ≤ l ≤ m ∧ m < 2 →
       block_is_patch example_patches "/out/distances" [1; 2] 3
         (np.Ndarray2 (3, 3)%nat [[5; 6; 7]; [0; 8; 9]; [0; 10; 11]]) l m)
  ∧ (batch_start [1; 2] 2 ≤ 3 →
     ∀ l, 0 ≤ l < 2 → 0 ≤ batch_start [1; 2] l ∧ batch_start [1; 2] (l + 1) ≤ 3).
Proof.
  apply (assemble_mat_blocks example_patches example_data_source).
  vm_compute. reflexivity.
Defined.

(** ** The batch tables for every argument *)

(** X8. [get_batch_idx_per_list] returns a table for one batch and for two
    batches only: every other argument, negative, zero or at least three,
    raises [ValueError]. *)
Theorem get_batch_idx_per_list_only_small (batch_num : Z) :
  util.get_batch_idx_per_list batch_num
  = if decide (batch_num = 1) then Return [[]]
    else if decide (batch_num = 2) then Return [[1]; [0]]
    else Raise ValueError.
Proof.
  destruct (decide (batch_num = 1)) as [->|H1]; [reflexivity|].
  destruct (decide (batch_num = 2)) as [->|H2]; [reflexivity|].
  destruct (Z.le_gt_cases batch_num 0) as [Hle|Hgt].
  - by apply get_batch_idx_per_list_nonpositive.
  - apply get_batch_idx_per_list_raises. lia.
Qed.

(** X9. [get_batch_num_list] for every pair of integers of numpy's [int64]
    range: a zero [batch_num] is a [ZeroDivisionError], a negative one gives
    the empty list without an error, and a positive one gives [batch_num]
    sizes that sum to [total_num] and are each the floor of
    [total_num / batch_num] or one more, also for a zero or negative
    [total_num]. *)
Theorem get_batch_num_list_any (total_num batch_num : Z) :
  - 2 ^ 63 ≤ total_num < 2 ^ 63 → - 2 ^ 63 ≤ batch_num < 2 ^ 63 →
  (batch_num = 0 →
     util.get_batch_num_list total_num batch_num = Raise ZeroDivisionError)
  ∧ (batch_num < 0 → util.get_batch_num_list total_num batch_num = Return [])
  ∧ (0 < batch_num →
       ∃ l, util.get_batch_num_list total_num batch_num = Return l
            ∧ len l = batch_num
            ∧ py.sum l = total_num
            ∧ ∀ x, x ∈ l →
                total_num `div` batch_num ≤ x ≤ total_num `div` batch_num + 1).
Proof.
  intros Ht Hb. split; [|split].
  - intros ->. unfold util.get_batch_num_list. by rewrite mod_int64 by lia.
  - intros Hneg. unfold util.get_batch_num_list, floordiv.
    rewrite mod_int64 by lia. cbn [bind np.ne_zero].
    destruct (Z.eqb_spec batch_num 0) as [|_]; [lia|].
    pose proof (Z.mod_neg_bound total_num batch_num Hneg) as Hr.
    destruct (Z.eqb_spec (total_num `mod` batch_num) 0) as [Hz|Hnz];
      cbn [negb bind]; rewrite !list_mul_singleton by lia;
      cbn [bind]; by rewrite !Z2Nat.nonpos by lia.
  - intros Hpos. eexists. split; [apply get_batch_num_list_shape; lia|].
    pose proof (Z.mod_pos_bound total_num batch_num Hpos) as Hr.
    pose proof (Z.div_mod total_num batch_num ltac:(lia)) as Hdm.
    split; [|split].
    + unfold len. rewrite length_app, !length_replicate. lia.
    + rewrite sum_app, !sum_replicate, !Z2Nat.id by lia.
      set (r := total_num `mod` batch_num) in *.
      set (q := total_num `div` batch_num) in *. nia.
    + intros x [Hx|Hx]%elem_of_app; apply elem_of_replicate in Hx; lia.
Qed.

Lemma get_batch_num_list_any_witness :
  util.get_batch_num_list 7 0 = Raise ZeroDivisionError
  ∧ util.get_batch_num_list 7 (-3) = Return []
  ∧ ∃ l, util.get_batch_num_list (-5) 3 = Return l
         ∧ len l = 3 ∧ py.sum l = -5
         ∧ ∀ x, x ∈ l → (-5) `div` 3 ≤ x ≤ (-5) `div` 3 + 1.
Proof.
  split; [|split].
  - apply (proj1 (get_batch_num_list_any 7 0 ltac:(by vm_compute)
                    ltac:(by vm_compute))). reflexivity.
  - apply (proj1 (proj2 (get_batch_num_list_any 7 (-3) ltac:(by vm_compute)
                           ltac:(by vm_compute)))). lia.
  - apply (proj2 (proj2 (get_batch_num_list_any (-5) 3 ltac:(by vm_compute)
                           ltac:(by vm_compute)))). lia.
Defined.

(** ** The shape of the index map *)

Section index_map_shape.
Implicit Types (holder : list (list Z)) (row : list Z).

Lemma fill_slice_length row (a b : option Z) (v : Z) :
  length (np.fill_slice row a b v) = length row.
Proof.
  unfold np.fill_slice.
  pose proof (slice_lo_le row a). pose proof (slice_hi_le row b).
  rewrite !length_app, length_take, length_replicate, length_drop. lia.
Qed.

Lemma has_shape_insert (r c : nat) holder (p : nat) row :
  has_shape r c holder → length row = c → has_shape r c (<[p := row]> holder).
Proof.
  intros [Hr Hc] Hrow. split; [by rewrite length_insert|].
  apply Forall_insert; done.
Qed.

Lemma fill_row_slice_shape (r c : nat) holder (i : Z) (a b : option Z) (v : Z)
    holder' :
  has_shape r c holder →
  np.fill_row_slice holder i a b v = Return holder' → has_shape r c holder'.
Proof.
  intros Hshape. unfold np.fill_row_slice.
  destruct (position _ _) as [p|]; [|done].
  destruct (holder !! p) as [row|] eqn:Hrow; [|done].
  intros [= <-]. apply has_shape_insert; [done|].
  rewrite fill_slice_length.
  by apply (Forall_lookup_1 _ _ _ _ (proj2 Hshape) Hrow).
Qed.

Lemma set_row_slice_shape (r c : nat) holder (i : Z) (a b : option Z)
    (vals : list Z) holder' :
  has_shape r c holder →
  np.set_row_slice holder i a b vals = Return holder' → has_shape r c holder'.
Proof.
  intros Hshape. unfold np.set_row_slice.
  destruct (position _ _) as [p|]; [|done].
  destruct (holder !! p) as [row|] eqn:Hrow; [|done].
  destruct (np.set_slice row a b vals) as [row'|] eqn:Hset; [|done].
  cbn [bind]. intros [= <-]. apply has_shape_insert; [done|].
  rewrite (set_slice_length _ _ _ _ _ Hset).
  by apply (Forall_lookup_1 _ _ _ _ (proj2 Hshape) Hrow).
Qed.

Lemma dataset_loop_body_shape (r c : nat) (counts : list (list Z)) (f : Z)
    holder (s : Z) (d : Z) holder' (s' : Z) :
  has_shape r c holder →
  util.dataset_loop_body counts f (holder, s) d = Return (holder', s') →
  has_shape r c holder'.
Proof.
  intros Hshape. unfold util.dataset_loop_body.
  destruct (index counts f) as [per|]; [|done]. cbn [bind].
  destruct (index per d) as [count|]; [|done]. cbn [bind].
  destruct (np.fill_row_slice _ _ _ _ _) as [h1|] eqn:H1; [|done]. cbn [bind].
  destruct (np.set_row_slice _ _ _ _ _) as [h2|] eqn:H2; [|done]. cbn [bind].
  intros [= <- <-].
  eapply set_row_slice_shape; [|done]. by eapply fill_row_slice_shape.
Qed.

Lemma file_loop_body_shape (r c : nat) (per_file per_count : list Z)
    (counts : list (list Z)) holder (s : Z) (f : Z) holder' (s' : Z) :
  has_shape r c holder →
  util.file_loop_body per_file per_count counts (holder, s) f
    = Return (holder', s') →
  has_shape r c holder'.
Proof.
  intros Hshape. unfold util.file_loop_body.
  destruct (index per_file f) as [n|]; [|done]. cbn [bind].
  destruct (np.fill_row_slice _ _ _ _ _) as [h1|] eqn:H1; [|done]. cbn [bind].
  destruct (index per_count f) as [dn|]; [|done]. cbn [bind].
  destruct (for_ _ _ _) as [[h2 s2]|] eqn:Hloop; [|done]. cbn [bind fst].
  intros [= <- <-].
  apply (for_returns_rounds (λ st, has_shape r c st.1)) in Hloop as [Hend _];
    [done|by eapply fill_row_slice_shape|].
  intros [h3 s3] d [h4 s4] _ H3 Hbody. by eapply dataset_loop_body_shape.
Qed.

End index_map_shape.

(** X10. Whatever the counts it is given, an index map that
    [get_global_index_map] returns has three rows of [data_num_total]
    entries, and [data_num_total] is not negative. *)
Theorem get_global_index_map_shape (data_num_total file_num : Z)
    (data_num_per_file dataset_num_per_file : list Z)
    (data_num_per_dataset : list (list Z)) (holder : list (list Z)) :
  util.get_global_index_map data_num_total file_num data_num_per_file
                            dataset_num_per_file data_num_per_dataset
    = Return holder →
  0 ≤ data_num_total ∧ has_shape 3 (Z.to_nat data_num_total) holder.
Proof.
  unfold util.get_global_index_map, np.zeros2.
  destruct (Z.ltb_spec 3 0) as [|_]; [lia|].
  destruct (Z.ltb_spec data_num_total 0) as [|Hn]; [done|].
  cbn [orb bind].
  destruct (for_ _ _ _) as [[h s]|] eqn:Hloop; [|done]. cbn [bind fst].
  intros [= <-]. split; [done|].
  apply (for_returns_rounds (λ st, has_shape 3 (Z.to_nat data_num_total) st.1))
    in Hloop as [Hend _]; [done| |].
  - split; [done|]. cbn [fst]. apply Forall_replicate, length_replicate.
  - intros [h1 s1] f [h2 s2] _ H1 Hbody. by eapply file_loop_body_shape.
Qed.

Lemma get_global_index_map_shape_witness :
  0 ≤ 3 ∧ has_shape 3 (Z.to_nat 3) [[0; 0; 1]; [0; 1; 0]; [0; 0; 0]].
Proof.
  apply (get_global_index_map_shape 3 2 [2; 1] [2; 1] [[1; 1]; [1]]).
  vm_compute. reflexivity.
Defined.

(** ** When assemble_mat returns *)

Section assemble_returns.
Implicit Types (fs : util.filesystem) (holder patch : np.ndarray2)
  (bsl : list Z).

(** A loop over a range whose rounds all return and carry an invariant
    from one index to the next returns. *)
Lemma for_range_returns {T} (Q : Z → T → Prop) (body : T → Z → result T)
    (a : Z) (n : nat) (s : T) :
  Q a s →
  (∀ k t, a ≤ k < a + Z.of_nat n → Q k t →
     ∃ t', body t k = Return t' ∧ Q (k + 1) t') →
  ∃ s', for_ (seqZ a (Z.of_nat n)) body s = Return s' ∧ Q (a + Z.of_nat n) s'.
Proof.
  revert a s. induction n as [|n IH]; intros a s Hs Hstep.
  - exists s. cbn. by rewrite Z.add_0_r.
  - rewrite seqZ_cons by lia. cbn [for_].
    destruct (Hstep a s ltac:(lia) Hs) as (t & -> & Ht). cbn [bind].
    replace (Z.pred (Z.of_nat (S n))) with (Z.of_nat n) by lia.
    replace (a + Z.of_nat (S n)) with (Z.succ a + Z.of_nat n) by lia.
    apply IH.
    + by replace (Z.succ a) with (a + 1) by lia.
    + intros k t' Hk. apply Hstep. lia.
Qed.

(** A block assignment of a patch that has the extent of the block, inside
    the holder, succeeds. *)
Lemma set_block_returns holder (a0 a1 : Z) patch :
  0 ≤ a0 → 0 ≤ a1 →
  a0 + Z.of_nat patch.(np.nd_shape).1 ≤ Z.of_nat holder.(np.nd_shape).1 →
  a1 + Z.of_nat patch.(np.nd_shape).2 ≤ Z.of_nat holder.(np.nd_shape).2 →
  ∃ holder',
    np.set_block holder a0 (a0 + Z.of_nat patch.(np.nd_shape).1)
                 a1 (a1 + Z.of_nat patch.(np.nd_shape).2) patch
    = Return holder'
    ∧ holder'.(np.nd_shape) = holder.(np.nd_shape).
Proof.
  intros Ha0 Ha1 Hb0 Hb1. unfold np.set_block.
  match goal with |- context [if ?b then _ else _] => destruct b eqn:Hfits end.
  - by eexists.
  - exfalso. revert Hfits. unfold slice_lo, slice_hi, adjust.
    destruct (Z.ltb_spec a0 0), (Z.ltb_spec a1 0); try lia.
    destruct (Z.ltb_spec (a0 + Z.of_nat patch.(np.nd_shape).1) 0),
             (Z.ltb_spec (a1 + Z.of_nat patch.(np.nd_shape).2) 0); try lia.
    intros Hfits. apply andb_false_iff in Hfits as [Hf|Hf];
      apply orb_false_iff in Hf as [Hf _]; apply Nat.eqb_neq in Hf; lia.
Qed.

Lemma forallb_true_range (g : Z → bool) (a b : Z) :
  (∀ k, a ≤ k < b → g k = true) → forallb g (range a b) = true.
Proof.
  intros Hg. apply forallb_forall. intros k Hk%list_elem_of_In.
  apply Hg. by apply elem_of_range.
Qed.

End assemble_returns.

Section assemble_total.
Implicit Types (fs : util.filesystem) (holder patch : np.ndarray2)
  (bsl : list Z).

Lemma batch_start_0 bsl : batch_start bsl 0 = 0.
Proof. done. Qed.

(** One round of the inner loop on a recorded patch that fits the holder. *)
Lemma assemble_patch_body_returns fs (folder_address : string) bsl (l m x N : Z)
    holder :
  0 ≤ l ≤ m →
  patch_recorded fs folder_address bsl l m →
  bsl !! Z.to_nat l = Some x →
  holder.(np.nd_shape) = (Z.to_nat N, Z.to_nat N) →
  0 ≤ batch_start bsl l → batch_start bsl l + x ≤ N →
  0 ≤ batch_start bsl m → batch_start bsl (m + 1) ≤ N →
  ∃ holder',
    util.assemble_patch_body fs folder_address bsl l (batch_start bsl l)
      (batch_start bsl l + x) (holder, batch_start bsl m) m
    = Return (holder', batch_start bsl (m + 1))
    ∧ holder'.(np.nd_shape) = holder.(np.nd_shape).
Proof.
  intros Hlm (patch & Hfile & Hl & Hm) Hx Hshape Hs0 Hs1 Hc0 Hc1.
  rewrite Hx in Hl. injection Hl as ->.
  rewrite (batch_start_succ bsl m _ ltac:(lia) Hm) in Hc1 |- *.
  unfold util.assemble_patch_body, util.load. rewrite Hfile. cbn [bind].
  rewrite (index_lookup _ _ _ (proj1 Hlm) Hx). cbn [bind].
  rewrite Z.eqb_refl. cbn [negb bind].
  rewrite (index_lookup bsl m _ ltac:(lia) Hm). cbn [bind].
  rewrite Z.eqb_refl. cbn [negb bind].
  destruct (set_block_returns holder (batch_start bsl l) (batch_start bsl m) patch)
    as (holder' & Hset & Hshape'); [done|done|rewrite Hshape; cbn; lia..|].
  rewrite Hset. cbn [bind]. by exists holder'.
Qed.

(** One round of the outer loop on recorded patches that fit the holder. *)
Lemma assemble_row_body_returns fs (folder_address : string) bsl
    (batch_num l N : Z) holder :
  0 ≤ l < batch_num →
  (∀ m, l ≤ m < batch_num → patch_recorded fs folder_address bsl l m) →
  (∀ k, 0 ≤ k < batch_num → batch_start bsl k ≤ batch_start bsl (k + 1)) →
  batch_start bsl batch_num ≤ N →
  holder.(np.nd_shape) = (Z.to_nat N, Z.to_nat N) →
  ∃ holder',
    util.assemble_row_body fs folder_address bsl batch_num
      (holder, batch_start bsl l) l
    = Return (holder', batch_start bsl (l + 1))
    ∧ holder'.(np.nd_shape) = holder.(np.nd_shape).
Proof.
  intros Hl Hrec Hmono HN Hshape.
  destruct (Hrec l ltac:(lia)) as (patch & _ & Hx & _).
  assert (Hle : ∀ a b, 0 ≤ a ≤ b ∧ b ≤ batch_num →
                       batch_start bsl a ≤ batch_start bsl b)
    by (intros a b Hab; by apply (batch_start_mono bsl batch_num)).
  pose proof (Hle 0 l ltac:(lia)) as H0l. rewrite batch_start_0 in H0l.
  pose proof (Hle (l + 1) batch_num ltac:(lia)) as Hl1.
  unfold util.assemble_row_body.
  rewrite (index_lookup _ _ _ (proj1 Hl) Hx). cbn [bind].
  unfold range.
  replace (batch_num - l) with (Z.of_nat (Z.to_nat (batch_num - l))) by lia.
  destruct (for_range_returns
              (λ k st, st.2 = batch_start bsl k
                       ∧ st.1.(np.nd_shape) = holder.(np.nd_shape))
              (util.assemble_patch_body fs folder_address bsl l (batch_start bsl l)
                 (batch_start bsl l + Z.of_nat patch.(np.nd_shape).1))
              l (Z.to_nat (batch_num - l)) (holder, batch_start bsl l))
    as ([h c] & Hloop & Hc & Hh).
  - done.
  - intros k [h c] Hk [Hc Hh]. cbn [fst snd] in *. subst c.
    pose proof (Hle 0 k ltac:(lia)) as H0k. rewrite batch_start_0 in H0k.
    pose proof (Hle (k + 1) batch_num ltac:(lia)).
    destruct (assemble_patch_body_returns fs folder_address bsl l k
                (Z.of_nat patch.(np.nd_shape).1) N h)
      as (h' & Hbody & Hh'); try done; try lia.
    + apply Hrec. lia.
    + congruence.
    + rewrite <- (batch_start_succ bsl l _ ltac:(lia) Hx). lia.
    + exists (h', batch_start bsl (k + 1)). split; [done|]. split; [done|].
      cbn [fst]. congruence.
  - rewrite Hloop. cbn [bind fst snd] in *. exists h. split; [|done].
    by rewrite (batch_start_succ bsl l _ ltac:(lia) Hx).
Qed.

End assemble_total.

(** X11. [assemble_mat] returns a matrix when the distances folder is a
    folder, every patch file [patch_l_m.npy], [0 <= l <= m < batch_number],
    holds an array of the recorded sizes of the batches [l] and [m], and the
    sizes of the batches sum to no more than [pattern_number_total]. *)
Theorem assemble_mat_returns (fs : util.filesystem) (data_source : util.data_source) :
  util.isdir fs (data_source.(util.output_path) +:+ "/distances") = true →
  batch_start data_source.(util.batch_size_list) data_source.(util.batch_number)
    ≤ data_source.(util.pattern_number_total) →
  (∀ l m, 0 ≤ l ≤ m ∧ m < data_source.(util.batch_number) →
     patch_recorded fs (data_source.(util.output_path) +:+ "/distances")
                    data_source.(util.batch_size_list) l m) →
  ∃ holder, util.assemble_mat fs data_source = Return holder.
Proof.
  intros Hdir HN Hrec. unfold util.assemble_mat.
  set (bsl := data_source.(util.batch_size_list)) in *.
  set (B := data_source.(util.batch_number)) in *.
  set (N := data_source.(util.pattern_number_total)) in *.
  set (folder := data_source.(util.output_path) +:+ "/distances") in *.
  rewrite Hdir. cbn [negb].
  assert (Hpresent : util.all_patches_present fs folder B = true).
  { unfold util.all_patches_present. apply forallb_true_range. intros l Hl.
    apply forallb_true_range. intros m Hm.
    destruct (Hrec l m ltac:(lia)) as (patch & Hfile & _).
    unfold util.isfile. by rewrite Hfile. }
  rewrite Hpresent. cbn [negb].
  assert (Hmono : ∀ k, 0 ≤ k < B → batch_start bsl k ≤ batch_start bsl (k + 1)).
  { intros k Hk. destruct (Hrec k k ltac:(lia)) as (patch & _ & Hx & _).
    rewrite (batch_start_succ bsl k _ ltac:(lia) Hx). lia. }
  assert (H0 : 0 ≤ N).
  { destruct (Z.le_gt_cases B 0) as [HB|HB].
    - unfold batch_start in HN. rewrite Z2Nat.nonpos in HN by done. by cbn in HN.
    - pose proof (batch_start_mono bsl B 0 B Hmono ltac:(lia)) as Hle.
      rewrite batch_start_0 in Hle. lia. }
  unfold np.zeros_nd. destruct (Z.ltb_spec N 0) as [|_]; [lia|]. cbn [orb bind].
  unfold range. rewrite Z.sub_0_r.
  destruct (Z.le_gt_cases B 0) as [HB|HB].
  { rewrite seqZ_nil by lia. cbn. by eexists. }
  replace (seqZ 0 B) with (seqZ 0 (Z.of_nat (Z.to_nat B))) by (f_equal; lia).
  destruct (for_range_returns
              (λ k st, st.2 = batch_start bsl k
                       ∧ st.1.(np.nd_shape) = (Z.to_nat N, Z.to_nat N))
              (util.assemble_row_body fs folder bsl B)
              0 (Z.to_nat B)
              (np.Ndarray2 (Z.to_nat N, Z.to_nat N)
                 (replicate (Z.to_nat N) (replicate (Z.to_nat N) 0)), 0))
    as ([h c] & Hloop & _).
  - done.
  - intros k [h c] Hk [Hc Hh]. cbn [fst snd] in *. subst c.
    destruct (assemble_row_body_returns fs folder bsl B k N h)
      as (h' & Hbody & Hh'); try done; try lia.
    + intros m Hm. apply Hrec. lia.
    + exists (h', batch_start bsl (k + 1)). split; [done|]. split; [done|].
      cbn [fst]. congruence.
  - rewrite Hloop. cbn [bind]. by eexists.
Qed.

Lemma example_patches_recorded (l m : Z) :
  0 ≤ l ≤ m ∧ m < 2 → patch_recorded example_patches "/out/distances" [1; 2] l m.
Proof.
  intros Hlm.
  assert ((l = 0 ∧ m = 0) ∨ (l = 0 ∧ m = 1) ∨ (l = 1 ∧ m = 1))
    as [[-> ->]|[[-> ->]|[-> ->]]] by lia; by eexists.
Qed.

Lemma assemble_mat_returns_witness :
  ∃ holder, util.assemble_mat example_patches example_data_source = Return holder.
Proof.
  apply (assemble_mat_returns example_patches example_data_source).
  - reflexivity.
  - vm_compute. discriminate.
  - exact example_patches_recorded.
Defined.

(** ** What get_batch_ends has read when it returns *)

Section batch_ends_returns.
Implicit Types (file_list : list string) (source_dict : util.source_dict)
  (cols : list triple).

(** A round of the loop over the datasets that returns has found the file
    and the dataset. *)
Lemma batch_dataset_body_returns file_list source_dict (fp dp lp : list Z)
    (f d : Z) (batch batch' : util.batch_ends) :
  util.batch_dataset_body file_list source_dict fp dp lp f batch d = Return batch' →
  ∃ name source dataset_name,
    index file_list f = Return name
    ∧ util.sd_entries source_dict !! name = Some source
    ∧ index (util.se_Datasets source) d = Return dataset_name.
Proof.
  unfold util.batch_dataset_body, getitem.
  destruct (index file_list f) as [name|]; [|done]. cbn [bind].
  destruct (util.be_entries batch !! name); [|done]. cbn [bind].
  destruct (util.sd_entries source_dict !! name) as [source|] eqn:Hsource;
    [|done]. cbn [bind].
  destruct (index (util.se_Datasets source) d) as [dataset_name|] eqn:Hd; [|done].
  intros _. by exists name, source, dataset_name.
Qed.

(** A round of the loop over the files that returns has resolved every
    column of the file. *)
Lemma batch_file_body_returns file_list source_dict cols (f : Z)
    (batch batch' : util.batch_ends) (t : triple) :
  util.batch_file_body file_list source_dict (tfile <$> cols) (tdataset <$> cols)
    (tlocal <$> cols) batch f = Return batch' →
  t ∈ cols → tfile t = f →
  names_dataset file_list source_dict t.
Proof.
  unfold util.batch_file_body.
  destruct (index file_list f) as [name|]; [|done]. cbn [bind].
  rewrite select_eq_mask. intros Hloop Ht Hf.
  apply (for_returns_rounds (λ _, True)) in Hloop as [_ Hrounds]; [|done..].
  destruct (Hrounds (tdataset t)) as (b1 & b2 & _ & Hbody).
  { apply elem_of_unique, list_elem_of_fmap. exists t. split; [done|].
    by apply list_elem_of_filter. }
  apply batch_dataset_body_returns in Hbody. by rewrite <- Hf in Hbody.
Qed.

End batch_ends_returns.

(** X12. When [get_batch_ends] returns on an index map of three rows of one
    length, every column of every batch range has been resolved: its file
    index is a subscript of [file_list], the path found there is a key of
    [source_dict], and its dataset index is a subscript of the datasets of
    that entry. *)
Theorem get_batch_ends_returns_resolved (index_map : list (list Z))
    (ranges : list (Z * Z)) (file_list : list string)
    (source_dict : util.source_dict) (out : list util.batch_ends) :
  rectangular index_map →
  util.get_batch_ends index_map ranges file_list source_dict = Return out →
  ∀ s e t, (s, e) ∈ ranges → t ∈ batch_columns index_map s e →
    names_dataset file_list source_dict t.
Proof.
  intros (r0 & r1 & r2 & -> & H01 & H12) Hret s e t Hrange Ht.
  unfold util.get_batch_ends in Hret.
  apply (for_returns_rounds (λ _, True)) in Hret as [_ Hrounds]; [|done..].
  destruct (Hrounds (s, e) Hrange) as (o1 & o2 & _ & Hbody).
  unfold util.batch_body in Hbody. cbn [fst snd] in Hbody.
  destruct (zip_rows r0 r1 r2 H01 H12) as (Hr0 & Hr1 & Hr2).
  unfold batch_columns, columns in Ht.
  set (C := zip (zip r0 r1) r2) in *.
  rewrite (index_lookup [r0; r1; r2] 0 r0), (index_lookup [r0; r1; r2] 1 r1),
    (index_lookup [r0; r1; r2] 2 r2) in Hbody by done.
  cbn [bind] in Hbody.
  rewrite <- Hr0, <- Hr1, <- Hr2, !get_slice_fmap in Hbody.
  set (cols := get_slice C (Some s) (Some e)) in *.
  destruct (for_ _ _ _) as [batch|] eqn:Hloop; [|done].
  apply (for_returns_rounds (λ _, True)) in Hloop as [_ Hfiles]; [|done..].
  destruct (Hfiles (tfile t)) as (b1 & b2 & _ & Hfile).
  { apply elem_of_unique, list_elem_of_fmap. by exists t. }
  by apply (batch_file_body_returns _ _ _ _ _ _ t) in Hfile.
Qed.

Lemma get_batch_ends_returns_resolved_witness :
  rectangular example_index_map
  ∧ ∀ s e t, (s, e) ∈ [(0, 2); (2, 5)] →
      t ∈ batch_columns example_index_map s e →
      names_dataset example_files example_source t.
Proof.
  split; [by exists [0; 0; 0; 1; 1], [0; 1; 1; 0; 0], [0; 0; 1; 0; 1]|].
  apply (get_batch_ends_returns_resolved example_index_map [(0, 2); (2, 5)]
           example_files example_source
           (match util.get_batch_ends example_index_map [(0, 2); (2, 5)]
                    example_files example_source with
            | Return out => out
            | Raise _ => []
            end)).
  - by exists [0; 0; 0; 1; 1], [0; 1; 1; 0; 0], [0; 0; 1; 0; 1].
  - vm_compute. reflexivity.
Defined.

(** ** An index map longer than its counts *)

(** X13. For consistent non-negative counts and a [data_num_total] larger
    than their sum, [get_global_index_map] raises nothing: it returns the
    blocks of the files followed by columns that are left at zero, so every
    global index past the counted samples names local index 0 of dataset 0
    of file 0. *)
Theorem get_global_index_map_padded (counts : list (list Z)) (data_num_total : Z) :
  Forall (Forall (λ c, 0 ≤ c)) counts →
  py.sum (py.sum <$> counts) ≤ data_num_total →
  let padding :=
    replicate (Z.to_nat (data_num_total - py.sum (py.sum <$> counts))) 0 in
  util.get_global_index_map data_num_total (len counts)
      (py.sum <$> counts) (len <$> counts) counts
  = Return [(tfile <$> file_blocks 0 counts) ++ padding;
            (tdataset <$> file_blocks 0 counts) ++ padding;
            (tlocal <$> file_blocks 0 counts) ++ padding].
Proof.
  intros Hc Htotal padding.
  assert (Htot : 0 ≤ py.sum (py.sum <$> counts)).
  { apply sum_nonneg, Forall_fmap. eapply Forall_impl; [exact Hc|].
    intros l Hl. by apply sum_nonneg. }
  unfold util.get_global_index_map, np.zeros2.
  destruct (Z.ltb_spec data_num_total 0) as [|_]; [lia|].
  cbn [orb Z.ltb Z.compare bind].
  unfold range. rewrite Z.sub_0_r.
  pose proof (file_loop_spec counts [] [] [] [] data_num_total) as H.
  cbn [app] in H. change (len []) with 0 in H.
  change (replicate (Z.to_nat 3) ?x) with [x; x; x].
  by rewrite H by (done || lia).
Qed.

Lemma get_global_index_map_padded_witness :
  util.get_global_index_map 5 (len [[1; 1]; [1]])
      (py.sum <$> [[1; 1]; [1]]) (len <$> [[1; 1]; [1]]) [[1; 1]; [1]]
  = Return [(tfile <$> file_blocks 0 [[1; 1]; [1]])
              ++ replicate (Z.to_nat (5 - py.sum (py.sum <$> [[1; 1]; [1]]))) 0;
            (tdataset <$> file_blocks 0 [[1; 1]; [1]])
              ++ replicate (Z.to_nat (5 - py.sum (py.sum <$> [[1; 1]; [1]]))) 0;
            (tlocal <$> file_blocks 0 [[1; 1]; [1]])
              ++ replicate (Z.to_nat (5 - py.sum (py.sum <$> [[1; 1]; [1]]))) 0].
Proof.
  apply (get_global_index_map_padded [[1; 1]; [1]] 5).
  - repeat constructor; lia.
  - vm_compute. discriminate.
Defined.

Example get_global_index_map_padded_example :
  util.get_global_index_map 5 2 [2; 1] [2; 1] [[1; 1]; [1]]
  = Return [[0; 0; 1; 0; 0]; [0; 1; 0; 0; 0]; [0; 0; 0; 0; 0]].
Proof. vm_compute. reflexivity. Qed.

(** ** Strings and paths *)

Section strings.
Implicit Types (s t u : string) (c : Ascii.ascii) (chars : Ascii.ascii → bool).

Lemma str_app_cons c s t : String c s +:+ t = String c (s +:+ t).
Proof. reflexivity. Qed.

Lemma str_app_nil_r s : s +:+ "" = s.
Proof. induction s as [|c s IH]; [done|]. by rewrite str_app_cons, IH. Qed.

Lemma str_app_assoc s t u : (s +:+ t) +:+ u = s +:+ t +:+ u.
Proof. induction s as [|c s IH]; [done|]. by rewrite !str_app_cons, IH. Qed.

Lemma str_length_app s t :
  String.length (s +:+ t) = (String.length s + String.length t)%nat.
Proof. induction s as [|c s IH]; [done|]. rewrite str_app_cons. cbn. by rewrite IH. Qed.

Lemma rev_app_spec s u : String.rev_app s u = String.rev s +:+ u.
Proof.
  unfold String.rev. revert u. induction s as [|c s IH]; intros u; [done|].
  cbn. rewrite (IH (String c u)), (IH (String c "")).
  by rewrite str_app_assoc.
Qed.

Lemma rev_cons c s : String.rev (String c s) = String.rev s +:+ String c "".
Proof. unfold String.rev at 1. cbn. apply rev_app_spec. Qed.

Lemma rev_snoc s c : String.rev (s +:+ String c "") = String c (String.rev s).
Proof.
  induction s as [|a s IH]; [done|].
  by rewrite str_app_cons, !rev_cons, IH.
Qed.

Lemma rev_involutive s : String.rev (String.rev s) = s.
Proof. induction s as [|c s IH]; [done|]. by rewrite rev_cons, rev_snoc, IH. Qed.

Lemma length_rev s : String.length (String.rev s) = String.length s.
Proof.
  induction s as [|c s IH]; [done|].
  rewrite rev_cons, str_length_app, IH. cbn. lia.
Qed.

Lemma length_lstrip chars s :
  (String.length (lstrip chars s) ≤ String.length s)%nat.
Proof.
  induction s as [|c s IH]; [done|]. cbn. destruct (chars c); cbn; lia.
Qed.

Lemma length_rstrip chars s :
  (String.length (rstrip chars s) ≤ String.length s)%nat.
Proof.
  unfold rstrip. rewrite length_rev.
  etrans; [apply length_lstrip|]. by rewrite length_rev.
Qed.

Lemma rstrip_snoc chars s c :
  rstrip chars (s +:+ String c "")
  = if chars c then rstrip chars s else s +:+ String c "".
Proof.
  unfold rstrip. rewrite rev_snoc. cbn [lstrip]. destruct (chars c); [done|].
  by rewrite <- rev_snoc, rev_involutive.
Qed.

Lemma lstrip_app_nil chars s t : lstrip chars (s +:+ t) = "" → lstrip chars t = "".
Proof.
  induction s as [|c s IH]; [done|]. rewrite str_app_cons. cbn.
  destruct (chars c); [done|discriminate].
Qed.

End strings.

Section paths.
Implicit Types (s t p folder : string) (c : Ascii.ascii).

Lemma str_app_ne_nil s c t : s +:+ String c t ≠ "".
Proof. by destruct s. Qed.

Lemma has_slash_app s t :
  util.has_slash (s +:+ t) = util.has_slash s || util.has_slash t.
Proof.
  induction s as [|c s IH]; [done|]. rewrite str_app_cons. cbn [util.has_slash].
  by rewrite IH, orb_assoc.
Qed.

(** The last slash of a path splits it. *)
Lemma rpartition_slash s t :
  util.has_slash t = false →
  util.rpartition (s +:+ "/" +:+ t) = (s +:+ "/", t).
Proof.
  intros Ht. induction s as [|c s IH].
  - change ("" +:+ "/" +:+ t) with (String (Ascii.ascii_of_nat 47) t).
    cbn [util.rpartition]. by rewrite Ht.
  - rewrite str_app_cons. cbn [util.rpartition].
    rewrite has_slash_app.
    change (util.has_slash ("/" +:+ t)) with (true || util.has_slash t).
    rewrite orb_true_r, IH. by rewrite str_app_cons.
Qed.

Lemma rpartition_app p :
  (util.rpartition p).1 +:+ (util.rpartition p).2 = p.
Proof.
  induction p as [|c p IH]; [done|]. cbn [util.rpartition].
  destruct (util.has_slash p).
  - destruct (util.rpartition p) as [h t]. cbn [fst snd] in *.
    by rewrite str_app_cons, IH.
  - by destruct (util.is_slash c).
Qed.

(** The head and the tail of a split are no longer than the path. *)
Lemma path_split_length p :
  (String.length (util.path_split p).1 + String.length (util.path_split p).2
   ≤ String.length p)%nat.
Proof.
  unfold util.path_split. pose proof (rpartition_app p) as Hp.
  destruct (util.rpartition p) as [h t]. cbn [fst snd] in *.
  rewrite <- Hp, str_length_app.
  destruct (_ && _); [|done]. pose proof (length_rstrip util.is_slash h). lia.
Qed.

Lemma numeral_app s t : numeral (s +:+ t) = numeral s && numeral t.
Proof.
  induction s as [|c s IH]; [done|]. rewrite str_app_cons. cbn [numeral].
  by rewrite IH, andb_assoc.
Qed.

Lemma pretty_N_go_numeral (x : N) s :
  numeral s = true → numeral (pretty_N_go x s) = true.
Proof.
  revert s. induction (N.lt_wf_0 x) as [x _ IH]; intros s Hs.
  assert (x = 0 ∨ 0 < x)%N as [->|Hx] by lia; [by rewrite pretty_N_go_0|].
  rewrite pretty_N_go_step by done. apply IH; [by apply N.div_lt|].
  cbn [numeral]. rewrite Hs, andb_true_r.
  unfold pretty_N_char. by repeat case_match.
Qed.

(** A printed integer is made of digits and the sign. *)
Lemma pretty_Z_numeral (z : Z) : numeral (pretty z) = true.
Proof.
  assert (Hpos : ∀ p : positive, numeral (pretty p) = true).
  { intros p. unfold pretty, pretty_positive, pretty, pretty_N.
    case_decide; [done|]. by apply pretty_N_go_numeral. }
  destruct z as [|p|p]; [done|apply Hpos|].
  unfold pretty, pretty_Z. rewrite numeral_app. by rewrite (Hpos p).
Qed.

Lemma numeral_has_slash s : numeral s = true → util.has_slash s = false.
Proof.
  induction s as [|c s IH]; [done|]. cbn [numeral util.has_slash].
  intros [Hc Hs]%andb_true_iff. rewrite (IH Hs), orb_false_r.
  unfold util.is_slash. apply bool_decide_eq_false. by intros ->.
Qed.


(** The name of a patch is one component of a path. *)
Lemma patch_name_has_slash (l m : Z) : util.has_slash (patch_name l m) = false.
Proof.
  unfold patch_name. rewrite !has_slash_app.
  by rewrite (numeral_has_slash (pretty l)), (numeral_has_slash (pretty m))
    by apply pretty_Z_numeral.
Qed.

Lemma patch_name_first (l m : Z) :
  ∃ rest, patch_name l m = String (Ascii.ascii_of_nat 112) rest.
Proof. by eexists. Qed.


(** The file [assemble_mat] reads is the patch name in the folder, and it
    is the file [save_distances] writes. *)
Lemma patch_file_name folder (l m : Z) :
  util.patch_file folder l m = folder +:+ "/" +:+ patch_name l m.
Proof. reflexivity. Qed.

Lemma save_name output_path (l m : Z) :
  output_path +:+ "/distances/patch_" +:+ pretty l +:+ "_" +:+ pretty m +:+ ".npy"
  = util.patch_file (output_path +:+ "/distances") l m.
Proof. unfold util.patch_file. by rewrite str_app_assoc. Qed.

(** The components of a path. *)
Lemma components_ne_nil p : util.components p ≠ [].
Proof.
  induction p as [|c p IH]; [done|]. cbn [util.components].
  destruct (util.is_slash c); [done|]. by destruct (util.components p).
Qed.

Lemma components_app_slash s t :
  util.components (s +:+ "/" +:+ t) = util.components s ++ util.components t.
Proof.
  induction s as [|c s IH]; [done|].
  rewrite str_app_cons. cbn [util.components]. rewrite IH.
  destruct (util.is_slash c); [done|].
  pose proof (components_ne_nil s). by destruct (util.components s).
Qed.

Lemma components_no_slash t : util.has_slash t = false → util.components t = [t].
Proof.
  induction t as [|c t IH]; [done|]. cbn [util.has_slash util.components].
  intros [-> Ht]%orb_false_iff. by rewrite (IH Ht).
Qed.

Lemma components_slashes s (k : nat) :
  util.components (s +:+ slashes k) = util.components s ++ replicate k "".
Proof.
  revert s. induction k as [|k IH]; intros s.
  - by rewrite str_app_nil_r, app_nil_r.
  - change (slashes (S k)) with ("/" +:+ slashes k).
    rewrite components_app_slash.
    specialize (IH ""). change ("" +:+ slashes k) with (slashes k) in IH.
    by rewrite IH.
Qed.

Lemma is_absolute_app s t :
  s ≠ "" → util.is_absolute (s +:+ t) = util.is_absolute s.
Proof. by destruct s. Qed.

Lemma last_components_file s t :
  util.has_slash t = false → last (util.components (s +:+ "/" +:+ t)) = Some t.
Proof.
  intros Ht. rewrite components_app_slash, (components_no_slash t) by done.
  apply last_snoc.
Qed.

(** What [rstrip('/')] removes is a run of slashes. *)
Lemma lstrip_slashes s : ∃ k, s = slashes k +:+ lstrip util.is_slash s.
Proof.
  induction s as [|c s [k IH]]; [by exists 0%nat|]. cbn [lstrip].
  destruct (util.is_slash c) eqn:Hc; [|by exists 0%nat].
  exists (S k). apply bool_decide_eq_true in Hc as ->.
  change (slashes (S k) +:+ ?x) with (String (Ascii.ascii_of_nat 47) (slashes k +:+ x)).
  by rewrite <- IH.
Qed.

Lemma rev_app s t : String.rev (s +:+ t) = String.rev t +:+ String.rev s.
Proof.
  induction s as [|c s IH].
  - by rewrite str_app_nil_r.
  - by rewrite str_app_cons, !rev_cons, IH, str_app_assoc.
Qed.

Lemma rev_slashes (k : nat) : String.rev (slashes k) = slashes k.
Proof.
  induction k as [|k IH]; [done|].
  change (slashes (S k)) with (String (Ascii.ascii_of_nat 47) (slashes k)) at 1.
  rewrite rev_cons, IH. clear IH.
  induction k as [|k IH]; [done|].
  change (slashes (S k)) with (String (Ascii.ascii_of_nat 47) (slashes k)) at 1.
  rewrite str_app_cons, IH. done.
Qed.

Lemma rstrip_slashes p : ∃ k, p = rstrip util.is_slash p +:+ slashes k.
Proof.
  unfold rstrip. destruct (lstrip_slashes (String.rev p)) as [k Hk].
  exists k. rewrite <- (rev_involutive p) at 1.
  rewrite Hk at 1. by rewrite rev_app, rev_slashes.
Qed.

End paths.

(** ** Disks and path resolution *)

Section disks.
Implicit Types (d : util.disk) (loc cur L : util.location)
  (comps : list string) (n : util.node).

Lemma node_at_root d : util.node_at d [] = Some util.Directory.
Proof. done. Qed.


Lemma node_at_write d L n loc :
  L ≠ [] →
  util.node_at (util.write d L n) loc
  = if decide (loc = L) then Some n else util.node_at d loc.
Proof.
  intros HL. destruct loc as [|x loc]; [by rewrite decide_False|]. done.
Qed.

Lemma node_at_write_same d L n :
  L ≠ [] → util.node_at (util.write d L n) L = Some n.
Proof. intros HL. by rewrite node_at_write, decide_True. Qed.

Lemma node_at_write_other d L n loc :
  loc ≠ L → util.node_at (util.write d L n) loc = util.node_at d loc.
Proof.
  intros Hne. destruct loc as [|x loc]; [done|]. cbn. by rewrite decide_False.
Qed.

Lemma extends_refl d : extends d d.
Proof. done. Qed.

Lemma extends_trans d1 d2 d3 : extends d1 d2 → extends d2 d3 → extends d1 d3.
Proof.
  intros [Hc12 H12] [Hc23 H23]. split; [congruence|].
  intros loc n Hn. by apply H23, H12.
Qed.

Lemma extends_dirs_kept d d' : extends d d' → dirs_kept d d'.
Proof. intros [Hc H]. split; [done|]. intros loc. apply H. Qed.

Lemma dirs_kept_trans d1 d2 d3 : dirs_kept d1 d2 → dirs_kept d2 d3 → dirs_kept d1 d3.
Proof.
  intros [Hc12 H12] [Hc23 H23]. split; [congruence|].
  intros loc Hn. by apply H23, H12.
Qed.

Lemma extends_write d L n : util.node_at d L = None → extends d (util.write d L n).
Proof.
  intros Hfree. split; [done|]. intros loc m Hm.
  rewrite node_at_write_other; [done|]. intros ->. congruence.
Qed.

Lemma dirs_kept_write d L n :
  util.node_at d L ≠ Some util.Directory → dirs_kept d (util.write d L n).
Proof.
  intros Hfree. split; [done|]. intros loc Hdir.
  rewrite node_at_write_other; [done|]. intros ->. congruence.
Qed.

(** Resolution goes the same way on a disk that keeps the directories. *)
Lemma step_kept d d' cur (c : string) loc :
  dirs_kept d d' → util.step d cur c = inr loc → util.step d' cur c = inr loc.
Proof.
  intros [_ Hkept]. unfold util.step. case_bool_decide; [done|].
  destruct (util.node_at d cur) as [[]|] eqn:Hcur; try done.
  by rewrite (Hkept _ Hcur).
Qed.

Lemma walk_kept d d' cur comps loc :
  dirs_kept d d' → util.walk d cur comps = inr loc → util.walk d' cur comps = inr loc.
Proof.
  intros Hkept. revert cur. induction comps as [|c comps IH]; intros cur; [done|].
  cbn [util.walk]. destruct (util.step d cur c) as [e|cur'] eqn:Hstep; [done|].
  rewrite (step_kept _ _ _ _ _ Hkept Hstep). apply IH.
Qed.

Lemma locate_kept d d' (p : string) loc :
  dirs_kept d d' → util.locate d p = inr loc → util.locate d' p = inr loc.
Proof.
  intros Hkept. unfold util.locate. case_bool_decide; [done|].
  rewrite (proj1 Hkept). by apply walk_kept.
Qed.

Lemma walk_app d cur comps1 comps2 :
  util.walk d cur (comps1 ++ comps2)
  = match util.walk d cur comps1 with
    | inl e => inl e
    | inr cur' => util.walk d cur' comps2
    end.
Proof.
  revert cur. induction comps1 as [|c comps1 IH]; intros cur; [done|].
  cbn [app util.walk]. by destruct (util.step d cur c).
Qed.

(** The location of a name in a folder: a step from the folder. *)
Lemma locate_in_folder d (folder name : string) :
  folder ≠ "" → util.has_slash name = false →
  util.locate d (folder +:+ "/" +:+ name)
  = match util.locate d folder with
    | inl e => inl e
    | inr F => util.step d F name
    end.
Proof.
  intros Hfolder Hname. unfold util.locate.
  rewrite (bool_decide_eq_false_2 (folder +:+ "/" +:+ name = ""))
    by apply str_app_ne_nil.
  rewrite (bool_decide_eq_false_2 (folder = "")) by done.
  rewrite is_absolute_app by done.
  rewrite components_app_slash, walk_app, (components_no_slash name) by done.
  destruct (util.walk _ _ _) as [e|F]; [done|]. cbn [util.walk].
  by destruct (util.step d F name).
Qed.

Lemma step_name d cur (name : string) :
  name ≠ "" → name ≠ "." → name ≠ ".." →
  util.step d cur name
  = match util.node_at d cur with
    | Some util.Directory => inr (cur ++ [name])
    | Some _ => inl util.NotADirectoryError
    | None => inl util.FileNotFoundError
    end.
Proof.
  intros H0 H1 H2. unfold util.step.
  by rewrite !bool_decide_eq_false_2 by done.
Qed.

Lemma step_patch_name d cur (l m : Z) :
  util.step d cur (patch_name l m)
  = match util.node_at d cur with
    | Some util.Directory => inr (cur ++ [patch_name l m])
    | Some _ => inl util.NotADirectoryError
    | None => inl util.FileNotFoundError
    end.
Proof.
  destruct (patch_name_first l m) as [rest Hrest].
  apply step_name; rewrite Hrest; done.
Qed.

(** What a path names. *)
Lemma view_Some d (p : string) n :
  util.view d p = Some n ↔
  ∃ loc, util.locate d p = inr loc ∧ util.node_at d loc = Some n
         ∧ (n = util.Directory ∨ util.ends_in_slash p = false).
Proof.
  unfold util.view, util.stat. split.
  - destruct (util.locate d p) as [e|loc]; [done|].
    destruct (util.node_at d loc) as [[]|] eqn:Hnode; try done.
    + intros [= <-]. exists loc. split; [done|]. split; [done|]. by left.
    + destruct (util.ends_in_slash p); [done|]. intros [= <-].
      exists loc. split; [done|]. split; [done|]. by right.
    + destruct (util.ends_in_slash p); [done|]. intros [= <-].
      exists loc. split; [done|]. split; [done|]. by right.
  - intros (loc & -> & -> & [->|Hend]); [done|]. rewrite Hend. by destruct n.
Qed.

Lemma view_None_located d (p : string) loc :
  util.locate d p = inr loc → util.ends_in_slash p = false →
  util.view d p = util.node_at d loc.
Proof.
  intros Hloc Hend. unfold util.view, util.stat. rewrite Hloc, Hend.
  by destruct (util.node_at d loc) as [[]|].
Qed.

Lemma view_extends d d' (p : string) n :
  extends d d' → util.view d p = Some n → util.view d' p = Some n.
Proof.
  intros Hext (loc & Hloc & Hnode & Hend)%view_Some. apply view_Some.
  exists loc. split; [|split; [|done]].
  - apply (locate_kept d); [by apply extends_dirs_kept|done].
  - by apply Hext.
Qed.


(** On a tree the parent of a directory is a directory. *)
Lemma tree_parent d loc :
  tree d → util.node_at d loc = Some util.Directory →
  util.node_at d (removelast loc) = Some util.Directory.
Proof.
  intros [_ Htree] Hdir. destruct (decide (loc = [])) as [->|Hne]; [done|].
  destruct (exists_last Hne) as (p & x & ->). rewrite removelast_last.
  apply (Htree p x util.Directory). by destruct p.
Qed.

(** Where a walk from a directory ends: at a directory, or at a name under
    a directory. *)
Lemma step_target d cur (c : string) loc :
  tree d → util.node_at d cur = Some util.Directory →
  util.step d cur c = inr loc →
  util.node_at d loc = Some util.Directory
  ∨ ∃ p x, loc = p ++ [x] ∧ util.node_at d p = Some util.Directory.
Proof.
  intros Htree Hcur. unfold util.step. case_bool_decide; [intros [= <-]; by left|].
  rewrite Hcur. intros [= <-]. case_bool_decide; [by left|].
  case_bool_decide; [left; by apply tree_parent|]. right. by exists cur, c.
Qed.

Lemma walk_target d cur comps loc :
  tree d →
  (util.node_at d cur = Some util.Directory
   ∨ ∃ p x, cur = p ++ [x] ∧ util.node_at d p = Some util.Directory) →
  util.walk d cur comps = inr loc →
  util.node_at d loc = Some util.Directory
  ∨ ∃ p x, loc = p ++ [x] ∧ util.node_at d p = Some util.Directory.
Proof.
  intros Htree. revert cur. induction comps as [|c comps IH]; intros cur Hcur.
  { by intros [= <-]. }
  cbn [util.walk]. destruct (util.step d cur c) as [e|cur'] eqn:Hstep; [done|].
  apply IH. revert Hstep. unfold util.step.
  case_bool_decide; [by intros [= <-]|].
  destruct (util.node_at d cur) as [[]|] eqn:Hdir; try done.
  intros Hstep. apply (step_target d cur c); [done..|].
  unfold util.step. by rewrite bool_decide_eq_false_2, Hdir by done.
Qed.

Lemma locate_target d (p : string) loc :
  tree d → util.locate d p = inr loc →
  util.node_at d loc = Some util.Directory
  ∨ ∃ q x, loc = q ++ [x] ∧ util.node_at d q = Some util.Directory.
Proof.
  intros Htree. unfold util.locate. case_bool_decide; [done|].
  apply walk_target; [done|]. left. destruct (util.is_absolute p); [done|].
  apply Htree.
Qed.

(** Nothing is under a place where nothing is. *)
Lemma tree_free_below d loc (x : string) :
  tree d → util.node_at d loc = None → util.node_at d (loc ++ [x]) = None.
Proof.
  intros [_ Htree] Hfree.
  destruct (util.node_at d (loc ++ [x])) as [n|] eqn:Hn; [|done].
  assert (util.nodes d (loc ++ [x]) = Some n) as Hnodes by (by destruct loc).
  apply Htree in Hnodes. congruence.
Qed.

(** A new node under a directory leaves a tree. *)
Lemma tree_write d L n :
  tree d →
  util.node_at d L ≠ Some util.Directory →
  (∃ p x, L = p ++ [x] ∧ util.node_at d p = Some util.Directory) →
  tree (util.write d L n).
Proof.
  intros [Hcwd Htree] Hfree (p & x & -> & Hp).
  pose proof (dirs_kept_write d _ n Hfree) as [_ Hkept].
  split; [by apply Hkept|]. intros loc y m Hm. apply Hkept.
  unfold util.write in Hm. cbn [util.nodes] in Hm.
  case_decide as Heq.
  - by apply app_inj_tail in Heq as [-> _].
  - by apply (Htree loc y m).
Qed.

Lemma mkdir_returns d (p : string) d' :
  util.mkdir d p = inr d' →
  ∃ L, util.locate d p = inr L ∧ util.node_at d L = None
       ∧ d' = util.write d L util.Directory.
Proof.
  unfold util.mkdir. destruct (util.locate d p) as [e|L]; [done|].
  destruct (util.node_at d L) eqn:Hnode; [done|]. intros [= <-]. by exists L.
Qed.

Lemma mkdir_extends d (p : string) d' :
  util.mkdir d p = inr d' → extends d d' ∧ (tree d → tree d').
Proof.
  intros (L & Hloc & Hfree & ->)%mkdir_returns. split; [by apply extends_write|].
  intros Htree. apply tree_write; [done|congruence|].
  destruct (locate_target _ _ _ Htree Hloc) as [Hdir|Hunder]; [congruence|done].
Qed.

(** [mkdir] fails on a path that names something. *)
Lemma mkdir_exists d (p : string) n :
  util.view d p = Some n → ∃ e, util.mkdir d p = inl e.
Proof.
  intros (loc & Hloc & Hnode & _)%view_Some. unfold util.mkdir.
  rewrite Hloc, Hnode. by eexists.
Qed.


End disks.

(** ** Making the folder *)

Section making.
Implicit Types (d : util.disk) (name head : string)
  (rec : util.disk → string → util.outcome).

Lemma path_split_tail (s t : string) :
  util.has_slash t = false → (util.path_split (s +:+ "/" +:+ t)).2 = t.
Proof. intros Ht. unfold util.path_split. by rewrite rpartition_slash. Qed.

(** The head [makedirs] recurses on is shorter than the name. *)
Lemma makedirs_head_shorter name :
  let '(head, tail) := util.path_split name in
  let '(head, tail) :=
    if bool_decide (tail = "") then util.path_split head else (head, tail) in
  tail ≠ "" → (String.length head < String.length name)%nat.
Proof.
  pose proof (path_split_length name) as Hname.
  destruct (util.path_split name) as [h t]. cbn [fst snd] in Hname.
  case_bool_decide as Ht.
  - pose proof (path_split_length h) as Hh.
    destruct (util.path_split h) as [h' t']. cbn [fst snd] in Hh.
    intros Ht'. destruct t'; [done|]. cbn in Hh. lia.
  - intros _. destruct t; [done|]. cbn in Hname. lia.
Qed.

(** The body calls [makedirs] on shorter paths only. *)
Lemma makedirs_body_ext rec1 rec2 d name :
  (∀ d0 head, (String.length head < String.length name)%nat →
     rec1 d0 head = rec2 d0 head) →
  util.makedirs_body rec1 d name = util.makedirs_body rec2 d name.
Proof.
  intros Hrec. unfold util.makedirs_body.
  pose proof (makedirs_head_shorter name) as Hshort.
  destruct (util.path_split name) as [h t].
  destruct (if bool_decide (t = "") then util.path_split h else (h, t))
    as [head tail].
  destruct (bool_decide (head ≠ "")); [|done]. cbn [andb].
  case_bool_decide as Htail; [|done]. cbn [andb].
  destruct (negb _); [|done]. by rewrite (Hrec d head (Hshort Htail)).
Qed.

(** The unfoldings of [makedirs] are enough: more of them change nothing. *)
Lemma makedirs_go_fuel (fuel1 fuel2 : nat) d name :
  (String.length name ≤ fuel1)%nat → (String.length name ≤ fuel2)%nat →
  util.makedirs_go fuel1 d name = util.makedirs_go fuel2 d name.
Proof.
  revert fuel2 d name. induction fuel1 as [|fuel1 IH];
    intros [|fuel2] d name H1 H2; cbn [util.makedirs_go];
    apply makedirs_body_ext; intros d0 head Hhead; try lia.
  apply IH; lia.
Qed.

Lemma attempt_mkdir d name d' (err : option util.oserror) :
  util.attempt d (util.mkdir d name) = (d', err) →
  extends d d' ∧ (tree d → tree d').
Proof.
  unfold util.attempt. destruct (util.mkdir d name) as [e|d1] eqn:Hmk;
    intros [= <- <-]; [done|]. by apply (mkdir_extends d name).
Qed.

(** [makedirs] leaves every node in its place, and a tree a tree, also
    when it fails. *)
Lemma makedirs_body_extends rec d name d' (err : option util.oserror) :
  (∀ d0 head d1 e1, rec d0 head = (d1, e1) → extends d0 d1 ∧ (tree d0 → tree d1)) →
  util.makedirs_body rec d name = (d', err) →
  extends d d' ∧ (tree d → tree d').
Proof.
  intros Hrec. unfold util.makedirs_body.
  destruct (util.path_split name) as [h t].
  destruct (if bool_decide (t = "") then util.path_split h else (h, t))
    as [head tail].
  destruct (_ && _); [|apply attempt_mkdir].
  destruct (rec d head) as [d1 e1] eqn:Hr.
  destruct (Hrec _ _ _ _ Hr) as [Hext Htree].
  assert (Hthen : (if bool_decide (tail = ".") then (d1, None)
                   else util.attempt d1 (util.mkdir d1 name)) = (d', err) →
                  extends d d' ∧ (tree d → tree d')).
  { case_bool_decide; [by intros [= <- <-]|].
    intros [Hext' Htree']%attempt_mkdir. split; [by eapply extends_trans|].
    intros Hd. by apply Htree', Htree. }
  destruct e1 as [[]|]; try done; by intros [= <- <-].
Qed.

Lemma makedirs_go_extends (fuel : nat) d name d' (err : option util.oserror) :
  util.makedirs_go fuel d name = (d', err) → extends d d' ∧ (tree d → tree d').
Proof.
  revert d name d' err. induction fuel as [|fuel IH]; intros d name d' err;
    cbn [util.makedirs_go]; apply makedirs_body_extends.
  - by intros d0 head d1 e1 [= <- <-].
  - apply IH.
Qed.

(** A call of [makedirs] that does not fail on a path with a last component
    other than [.] ends with the [mkdir] of that path. *)
Lemma makedirs_body_completed rec d name d' :
  (∀ d0 head d1 e1, rec d0 head = (d1, e1) → extends d0 d1 ∧ (tree d0 → tree d1)) →
  (util.path_split name).2 ≠ "" → (util.path_split name).2 ≠ "." →
  util.makedirs_body rec d name = (d', None) →
  ∃ d0, extends d d0 ∧ (tree d → tree d0) ∧ util.mkdir d0 name = inr d'.
Proof.
  intros Hrec. unfold util.makedirs_body.
  destruct (util.path_split name) as [h t]. cbn [snd]. intros Ht Hdot.
  rewrite (bool_decide_eq_false_2 _ Ht), (bool_decide_eq_false_2 _ Hdot).
  assert (Hmk : ∀ d0, extends d d0 → (tree d → tree d0) →
            util.attempt d0 (util.mkdir d0 name) = (d', None) →
            ∃ d0, extends d d0 ∧ (tree d → tree d0) ∧ util.mkdir d0 name = inr d').
  { intros d0 Hext Htree. unfold util.attempt.
    destruct (util.mkdir d0 name) as [e|d1] eqn:Hmk; [done|].
    intros [= <-]. by exists d0. }
  destruct (_ && _); [|by apply Hmk].
  destruct (rec d h) as [d1 e1] eqn:Hr.
  destruct (Hrec _ _ _ _ Hr) as [Hext Htree].
  destruct e1 as [[]|]; try done; by apply Hmk.
Qed.

Lemma makedirs_go_body (fuel : nat) :
  ∃ rec,
    (∀ d0 head d1 e1, rec d0 head = (d1, e1) → extends d0 d1 ∧ (tree d0 → tree d1))
    ∧ ∀ d name, util.makedirs_go fuel d name = util.makedirs_body rec d name.
Proof.
  destruct fuel as [|fuel].
  - exists (λ d _, (d, None)). split; [|done]. by intros d0 head d1 e1 [= <- <-].
  - exists (util.makedirs_go fuel). split; [|done]. intros d0 head d1 e1.
    apply makedirs_go_extends.
Qed.

Lemma distances_tail (output_path : string) :
  (util.path_split (output_path +:+ "/distances")).2 = "distances".
Proof. by apply (path_split_tail output_path "distances"). Qed.

(** [os.makedirs] on the distances folder: the last thing it does is to
    make the folder, where nothing was. *)
Lemma makedirs_distances d (output_path : string) d' :
  util.makedirs d (output_path +:+ "/distances") = (d', None) →
  ∃ d0 F, extends d d0 ∧ (tree d → tree d0)
          ∧ util.locate d0 (output_path +:+ "/distances") = inr F
          ∧ util.node_at d0 F = None
          ∧ d' = util.write d0 F util.Directory.
Proof.
  unfold util.makedirs. intros Hmake.
  destruct (makedirs_go_body (String.length (output_path +:+ "/distances")))
    as (rec & Hrec & Hbody).
  rewrite Hbody in Hmake.
  apply makedirs_body_completed in Hmake as (d0 & Hext & Htree & Hmk);
    [|done|by rewrite distances_tail..].
  apply mkdir_returns in Hmk as (F & Hloc & Hfree & ->). by exists d0, F.
Qed.

(** And it fails when the path names something already. *)
Lemma makedirs_distances_exists d (output_path : string) (n : util.node) :
  util.view d (output_path +:+ "/distances") = Some n →
  ∃ d' e, util.makedirs d (output_path +:+ "/distances") = (d', Some e).
Proof.
  intros Hthere.
  destruct (util.makedirs d (output_path +:+ "/distances")) as [d' [e|]] eqn:Hmake;
    [by exists d', e|].
  apply makedirs_distances in Hmake as (d0 & F & Hext & _ & Hloc & Hfree & _).
  apply (view_extends _ _ _ _ Hext) in Hthere.
  apply view_Some in Hthere as (loc & Hloc' & Hnode & _). congruence.
Qed.


End making.

(** ** Saving a patch *)

Section saving.
Implicit Types (d : util.disk) (output_path : string) (patch : np.ndarray2)
  (F : util.location).

Lemma distances_ne_nil output_path : output_path +:+ "/distances" ≠ "".
Proof. apply str_app_ne_nil. Qed.

Lemma patch_file_ends (folder : string) (l m : Z) :
  util.ends_in_slash (util.patch_file folder l m) = false.
Proof.
  unfold util.ends_in_slash. rewrite patch_file_name.
  rewrite last_components_file by apply patch_name_has_slash.
  apply bool_decide_eq_false. destruct (patch_name_first l m) as [rest ->].
  by intros [=].
Qed.

(** The location of a patch file in a folder that is a directory, and what
    the path of the file names. *)
Lemma locate_patch_file d (folder : string) F (l m : Z) :
  folder ≠ "" → util.locate d folder = inr F →
  util.node_at d F = Some util.Directory →
  util.locate d (util.patch_file folder l m) = inr (F ++ [patch_name l m]).
Proof.
  intros Hne Hloc Hdir.
  rewrite patch_file_name, locate_in_folder by (done || apply patch_name_has_slash).
  by rewrite Hloc, step_patch_name, Hdir.
Qed.

Lemma view_patch_file d (folder : string) F (l m : Z) :
  folder ≠ "" → util.locate d folder = inr F →
  util.node_at d F = Some util.Directory →
  util.view d (util.patch_file folder l m)
  = util.node_at d (F ++ [patch_name l m]).
Proof.
  intros Hne Hloc Hdir. apply view_None_located; [|apply patch_file_ends].
  by apply locate_patch_file.
Qed.


(** Steps along empty components go nowhere. *)
Lemma walk_empty d F (k : nat) : util.walk d F (replicate k "") = inr F.
Proof. induction k as [|k IH]; [done|]. cbn. exact IH. Qed.

Lemma locate_slashes d (p : string) (k : nat) :
  p ≠ "" → util.locate d (p +:+ slashes k) = util.locate d p.
Proof.
  intros Hp. unfold util.locate.
  rewrite (bool_decide_eq_false_2 (p = "")) by done.
  rewrite bool_decide_eq_false_2 by (by destruct p).
  rewrite is_absolute_app, components_slashes, walk_app by done.
  destruct (util.walk _ _ _) as [e|F]; [done|]. apply walk_empty.
Qed.

Lemma view_directory_slashes d (p : string) (k : nat) :
  p ≠ "" →
  util.view d (p +:+ slashes k) = Some util.Directory
  ↔ util.view d p = Some util.Directory.
Proof.
  intros Hp. rewrite !view_Some. rewrite locate_slashes by done.
  split; intros (F & Hloc & Hnode & _); exists F; (split; [done|]);
    (split; [done|]); by left.
Qed.

Lemma lstrip_only_slashes (k : nat) : lstrip util.is_slash (slashes k +:+ "/") = "".
Proof. induction k as [|k IH]; [done|]. exact IH. Qed.

(** The head of the distances folder names what [output_path] names. *)
Lemma distances_head d output_path :
  util.view d output_path = Some util.Directory →
  ∃ head, util.path_split (output_path +:+ "/distances") = (head, "distances")
          ∧ util.view d head = Some util.Directory.
Proof.
  intros Hview.
  assert (Hout : output_path ≠ "").
  { intros ->. apply view_Some in Hview as (F & Hloc & _). done. }
  unfold util.path_split.
  change (output_path +:+ "/distances") with (output_path +:+ "/" +:+ "distances").
  rewrite (rpartition_slash output_path "distances") by done.
  eexists. split; [reflexivity|].
  change (output_path +:+ "/") with (output_path +:+ slashes 1).
  destruct (_ && _) eqn:Hstrip.
  - apply andb_true_iff in Hstrip as [_ Hall%negb_true_iff].
    change (slashes 1) with (String (Ascii.ascii_of_nat 47) "").
    rewrite rstrip_snoc.
    change (util.is_slash (Ascii.ascii_of_nat 47)) with true. cbn match.
    destruct (rstrip_slashes output_path) as [k Hk].
    assert (rstrip util.is_slash output_path ≠ "") as Hne.
    { intros Hnil. rewrite Hnil in Hk. cbn in Hk.
      unfold util.all_slashes in Hall. apply bool_decide_eq_false in Hall.
      apply Hall. rewrite Hk. apply (lstrip_only_slashes k). }
    apply (view_directory_slashes d _ k Hne). by rewrite <- Hk.
  - by apply view_directory_slashes.
Qed.

End saving.


Lemma example_empty_tree : tree example_empty.
Proof. split; [done|]. by intros loc name n. Qed.


(** X15. With something already at [output_path/distances],
    [save_distances] returns exactly when that is a directory and the path
    of the patch file does not name a directory: it then writes the patch
    file at its place in the folder, replacing a file of that name, and
    changes nothing else. A file in the place of the folder, or a directory
    in the place of the patch file, makes it raise. *)
Theorem save_distances_folder_there (d : util.disk) (output_path : string)
    (patch : np.ndarray2) (l m : Z) (n : util.node) :
  util.view d (output_path +:+ "/distances") = Some n →
  (n = util.Directory
   ∧ util.view d (util.patch_file (output_path +:+ "/distances") l m)
     ≠ Some util.Directory →
   ∃ F, util.locate d (output_path +:+ "/distances") = inr F
        ∧ util.save_distances d output_path patch [l; m]
          = Return (util.write d (F ++ [patch_name l m]) (util.Npy patch)))
  ∧ (n ≠ util.Directory
     ∨ util.view d (util.patch_file (output_path +:+ "/distances") l m)
       = Some util.Directory →
     util.save_distances d output_path patch [l; m] = Raise IOError).
Proof.
  intros Hview. pose proof Hview as (F & HF & Hnode & _)%view_Some.
  pose proof (distances_ne_nil output_path) as Hfolder.
  assert (Hsave : n = util.Directory →
            util.save_distances d output_path patch [l; m]
            = util.os_call
                (match util.node_at d (F ++ [patch_name l m]) with
                 | Some util.Directory => inl util.IsADirectoryError
                 | _ => inr (util.write d (F ++ [patch_name l m]) (util.Npy patch))
                 end)).
  { intros ->. unfold util.save_distances, util.isdir. rewrite Hview.
    cbn [negb bind]. change (index [l; m] 0) with (Return (A:=Z) l).
    change (index [l; m] 1) with (Return (A:=Z) m). cbn [bind].
    rewrite save_name. unfold util.save.
    rewrite (locate_patch_file d _ F), patch_file_ends by done.
    by destruct (util.node_at d (F ++ [patch_name l m])) as [[]|]. }
  split.
  - intros [-> Hfile]. exists F. split; [done|]. rewrite Hsave by done.
    rewrite (view_patch_file d _ F) in Hfile by done.
    by destruct (util.node_at d (F ++ [patch_name l m])) as [[]|].
  - intros Hbad.
    assert (n = util.Directory ∨ n ≠ util.Directory) as [->|Hn]
      by (destruct n; (by left) || by right).
    + destruct Hbad as [?|Hfile]; [done|]. rewrite Hsave by done.
      rewrite (view_patch_file d _ F) in Hfile by done. by rewrite Hfile.
    + unfold util.save_distances, util.isdir. rewrite Hview.
      destruct (makedirs_distances_exists d output_path n Hview) as (d' & e & ->).
      by destruct n.
Qed.

Lemma save_distances_folder_there_witness :
  (util.Directory = util.Directory
   ∧ util.view example_disk (util.patch_file ("/out" +:+ "/distances") 0 1)
     ≠ Some util.Directory →
   ∃ F, util.locate example_disk ("/out" +:+ "/distances") = inr F
        ∧ util.save_distances example_disk "/out" example_patch [0; 1]
          = Return (util.write example_disk (F ++ [patch_name 0 1])
                                (util.Npy example_patch)))
  ∧ (util.Directory ≠ util.Directory
     ∨ util.view example_disk (util.patch_file ("/out" +:+ "/distances") 0 1)
       = Some util.Directory →
     util.save_distances example_disk "/out" example_patch [0; 1] = Raise IOError).
Proof.
  apply (save_distances_folder_there example_disk "/out" example_patch 0 1
           util.Directory).
  vm_compute. reflexivity.
Defined.

(** X16. The first call: with [output_path] a directory and nothing yet at
    [output_path/distances], [save_distances] returns, having made the
    folder under the directory and written the patch file into it, and
    nothing else. *)
Theorem save_distances_new_folder (d : util.disk) (output_path : string)
    (patch : np.ndarray2) (l m : Z) :
  tree d →
  util.isdir (util.view d) output_path = true →
  util.view d (output_path +:+ "/distances") = None →
  ∃ F, util.locate d (output_path +:+ "/distances") = inr F
       ∧ util.node_at d F = None
       ∧ util.save_distances d output_path patch [l; m]
         = Return (util.write (util.write d F util.Directory)
                               (F ++ [patch_name l m]) (util.Npy patch)).
Proof.
  intros Htree Hout Hnone.
  assert (Hview : util.view d output_path = Some util.Directory).
  { unfold util.isdir in Hout.
    by destruct (util.view d output_path) as [[]|]. }
  pose proof Hview as (O & HO & HnodeO & _)%view_Some.
  assert (Hne : output_path ≠ "") by (by intros ->).
  pose proof (distances_ne_nil output_path) as Hfolder.
  set (folder := output_path +:+ "/distances") in *.
  assert (HF : util.locate d folder = inr (O ++ ["distances"])).
  { unfold folder.
    change (output_path +:+ "/distances") with (output_path +:+ "/" +:+ "distances").
    rewrite (locate_in_folder d output_path "distances") by done.
    by rewrite HO, step_name, HnodeO. }
  assert (Hfree : util.node_at d (O ++ ["distances"]) = None).
  { rewrite <- Hnone. symmetry. apply view_None_located; [done|].
    unfold util.ends_in_slash, folder.
    change (output_path +:+ "/distances") with (output_path +:+ "/" +:+ "distances").
    by rewrite (last_components_file output_path "distances"). }
  exists (O ++ ["distances"]). split; [done|]. split; [done|].
  set (F := O ++ ["distances"]) in *.
  assert (HFroot : F ≠ []) by (by intros ->).
  assert (Hmake : util.makedirs d folder = (util.write d F util.Directory, None)).
  { subst folder. unfold util.makedirs.
    destruct (makedirs_go_body (String.length (output_path +:+ "/distances")))
      as (rec & _ & ->).
    unfold util.makedirs_body.
    destruct (distances_head d output_path Hview) as (head & -> & Hhead).
    rewrite (bool_decide_eq_false_2 ("distances" = "")) by done.
    unfold util.path_exists. rewrite Hhead.
    rewrite (bool_decide_eq_true_2 (Some util.Directory ≠ None)) by done.
    rewrite andb_false_r. unfold util.mkdir. by rewrite HF, Hfree. }
  unfold util.save_distances, util.isdir. fold folder. rewrite Hnone, Hmake.
  cbn [negb util.completed bind].
  change (index [l; m] 0) with (Return (A:=Z) l).
  change (index [l; m] 1) with (Return (A:=Z) m). cbn [bind].
  rewrite save_name. fold folder. unfold util.save.
  rewrite (locate_patch_file _ folder F), patch_file_ends; [|done|..].
  - rewrite node_at_write_other
      by (intros Heq; apply (f_equal length) in Heq; rewrite length_app in Heq;
          cbn in Heq; lia).
    by rewrite (tree_free_below d F).
  - apply (locate_kept d); [|done]. apply dirs_kept_write. congruence.
  - by apply node_at_write_same.
Qed.

Lemma example_out_tree : tree (util.write example_empty ["out"] util.Directory).
Proof.
  apply tree_write; [apply example_empty_tree|done|]. by exists [], "out".
Qed.

Lemma save_distances_new_folder_witness :
  ∃ F, util.locate (util.write example_empty ["out"] util.Directory)
         ("/out" +:+ "/distances") = inr F
       ∧ util.node_at (util.write example_empty ["out"] util.Directory) F = None
       ∧ util.save_distances (util.write example_empty ["out"] util.Directory)
           "/out" example_patch [0; 1]
         = Return (util.write
                     (util.write (util.write example_empty ["out"] util.Directory)
                                  F util.Directory)
                     (F ++ [patch_name 0 1]) (util.Npy example_patch)).
Proof.
  apply (save_distances_new_folder (util.write example_empty ["out"] util.Directory)
           "/out" example_patch 0 1).
  - exact example_out_tree.
  - reflexivity.
  - reflexivity.
Defined.
